(** * Generic tensor peek: plans and execution

    A shallow embedding of [eval/src/vespa/eval/instruction/generic_peek.cpp].
    Machine integers are [Z] with their wrap-around written out, vectors are
    lists, [abort()] and failed [assert]s are explicit fatal results. *)

From Stdlib Require Import ZArith List String Ascii Bool Lia Sorted.
From Stdlib Require Import Permutation.
From Stdlib Require Import DecimalString DecimalPos DecimalZ.
Import ListNotations.
Local Open Scope Z_scope.

(** ** Machine integers *)

(** [size_t]: 64-bit unsigned, arithmetic modulo [2^64]. *)
Module SizeT.
Definition modulus : Z := 2 ^ 64.
Definition wrap (z : Z) : Z := z mod modulus.
Definition add (a b : Z) : Z := wrap (a + b).
Definition sub (a b : Z) : Z := wrap (a - b).
Definition mul (a b : Z) : Z := wrap (a * b).
(** [static constexpr size_t npos = -1;] *)
Definition npos : Z := wrap (-1).
Definition in_range (z : Z) : Prop := 0 <= z < modulus.
(** Product of a vector of [size_t], accumulated with [*=] from 1. *)
Definition product (l : list Z) : Z := fold_left mul l 1.
End SizeT.

(** [int64_t]: the type of a child value once read through the getter. *)
Module Int64.
Definition min_value : Z := - 2 ^ 63.
Definition max_value : Z := 2 ^ 63 - 1.
Definition in_range (z : Z) : Prop := min_value <= z <= max_value.
(** The implicit conversion [int64_t -> size_t]. *)
Definition to_size_t (v : Z) : Z := SizeT.wrap v.
End Int64.

(** ** Fatal outcomes and the result monad *)

Inductive fatal : Type :=
| Aborted          (* abort() *)
| AssertFailed     (* a failed assert(...) *)
| BadVariant       (* std::get on the wrong alternative *)
| OutOfBounds.     (* an unchecked read outside a vector *)

Inductive result (A : Type) : Type :=
| Ok (a : A)
| Fatal (f : fatal).
Arguments Ok {A} a.
Arguments Fatal {A} f.

Definition bind {A B : Type} (r : result A) (k : A -> result B) : result B :=
  match r with
  | Ok a => k a
  | Fatal f => Fatal f
  end.

Notation "x <- r ;; k" := (bind r (fun x => k))
  (at level 61, r at next level, right associativity).

Definition assert (b : bool) : result unit :=
  if b then Ok tt else Fatal AssertFailed.

Fixpoint foldM {A S : Type} (f : S -> A -> result S) (l : list A) (s : S)
  : result S :=
  match l with
  | [] => Ok s
  | a :: l' => s' <- f s a ;; foldM f l' s'
  end.

Fixpoint mapM {A B : Type} (f : A -> result B) (l : list A) : result (list B) :=
  match l with
  | [] => Ok []
  | a :: l' => b <- f a ;; bs <- mapM f l' ;; Ok (b :: bs)
  end.

(** ** Types, labels and the specification map *)

(** Modelled from the spec: [ValueType::Dimension] is declared outside the
    sources at hand; a dimension has a name and is either indexed with a size
    or mapped. *)
Module Dimension.
Inductive kind_t : Type :=
| Indexed (size : Z)
| Mapped.
Record t : Type := mk { name : string; kind : kind_t }.
Definition is_indexed (d : t) : bool :=
  match kind d with Indexed _ => true | Mapped => false end.
Definition is_mapped (d : t) : bool := negb (is_indexed d).
End Dimension.

(** Modelled from the spec: [TensorSpec::Label], a literal coordinate that is
    either a mapped-dimension name or an indexed-dimension integer. *)
Module Label.
Inductive t : Type :=
| Name (name : string)
| Index (index : N).
Definition is_mapped (l : t) : bool :=
  match l with Name _ => true | Index _ => false end.
Definition is_indexed (l : t) : bool := negb (is_mapped l).
End Label.

(** [GenericPeek::MyLabel = std::variant<TensorSpec::Label, size_t>]. *)
Inductive MyLabel : Type :=
| child (idx : Z)
| label (l : Label.t).

(** [GenericPeek::SpecMap], a [std::map] keyed by dimension name: its
    iteration order is what the code sees, so it is kept as the list of its
    entries in that order. *)
Definition Spec : Type := list (string * MyLabel).

Definition holds_child (m : MyLabel) : bool :=
  match m with child _ => true | label _ => false end.

Definition count_children (spec : Spec) : Z :=
  fold_left
    (fun num_children e =>
       if holds_child (snd e) then SizeT.add num_children 1 else num_children)
    spec 0.

Module DimSpec.
Record t : Type := mk { name : string; child_or_label : MyLabel }.
Definition has_child (d : t) : bool := holds_child (child_or_label d).
Definition has_label (d : t) : bool := negb (holds_child (child_or_label d)).
Definition get_child_idx (d : t) : result Z :=
  match child_or_label d with
  | child idx => Ok idx
  | label _ => Fatal BadVariant
  end.
Definition get_label_name (d : t) : result string :=
  match child_or_label d with
  | label (Label.Name n) => Ok n
  | label (Label.Index _) => Fatal AssertFailed
  | child _ => Fatal BadVariant
  end.
Definition get_label_index (d : t) : result Z :=
  match child_or_label d with
  | label (Label.Index i) => Ok (Z.of_N i)
  | label (Label.Name _) => Fatal AssertFailed
  | child _ => Fatal BadVariant
  end.
End DimSpec.

(** ** The dimension classifier *)

(** Modelled from the spec: [visit_ranges] (vespalib/util/visit_ranges.h) is
    not among the sources; it is the one linear merge pass over two ranges,
    reporting each element as present in the first range only, in the second
    only, or in both. The calls made to the visitor are returned in order. *)
Inductive visit (A B : Type) : Type :=
| visit_ranges_first (a : A)
| visit_ranges_second (b : B)
| visit_ranges_both (a : A) (b : B).
Arguments visit_ranges_first {A B} a.
Arguments visit_ranges_second {A B} b.
Arguments visit_ranges_both {A B} a b.

Fixpoint visit_ranges {A B : Type}
  (cmp_ab : A -> B -> bool) (cmp_ba : B -> A -> bool)
  (ra : list A) (rb : list B) {struct ra} : list (visit A B) :=
  match ra with
  | [] => map visit_ranges_second rb
  | a :: ra' =>
      (fix against (rb : list B) {struct rb} : list (visit A B) :=
         match rb with
         | [] => map visit_ranges_first (a :: ra')
         | b :: rb' =>
             if cmp_ab a b then
               visit_ranges_first a :: visit_ranges cmp_ab cmp_ba ra' (b :: rb')
             else if cmp_ba b a then
               visit_ranges_second b :: against rb'
             else
               visit_ranges_both a b :: visit_ranges cmp_ab cmp_ba ra' rb'
         end) rb
  end.

Module ExtractedSpecs.
Record t : Type :=
  mk { dimensions : list Dimension.t; specs : list DimSpec.t }.

(** [MyComp]: both overloads compare names with [operator<]. *)
Definition MyComp_dim_spec (a : Dimension.t) (b : string * MyLabel) : bool :=
  String.ltb (Dimension.name a) (fst b).
Definition MyComp_spec_dim (a : string * MyLabel) (b : Dimension.t) : bool :=
  String.ltb (fst a) (Dimension.name b).

Definition visitor (indexed : bool) (acc : t)
  (ev : visit Dimension.t (string * MyLabel)) : result t :=
  match ev with
  | visit_ranges_first a =>
      if Bool.eqb (Dimension.is_indexed a) indexed
      then Ok (mk (dimensions acc ++ [a]) (specs acc))
      else Ok acc
  | visit_ranges_second _ =>
      (* spec has unknown dimension *)
      Fatal Aborted
  | visit_ranges_both a b =>
      if Bool.eqb (Dimension.is_indexed a) indexed
      then
        _ <- assert (String.eqb (Dimension.name a) (fst b)) ;;
        Ok (mk (dimensions acc ++ [a])
              (specs acc ++ [DimSpec.mk (Dimension.name a) (snd b)]))
      else Ok acc
  end.

Definition ctor (indexed : bool) (input_dims : list Dimension.t)
  (spec : Spec) : result t :=
  foldM (visitor indexed)
    (visit_ranges MyComp_dim_spec MyComp_spec_dim input_dims spec)
    (mk [] []).
End ExtractedSpecs.

(** ** Dense sizes and strides *)

Module DenseSizes.
Record t : Type := mk { size : list Z; stride : list Z; cur_size : Z }.

(** First loop: every dimension must be indexed; collect the sizes. *)
Definition collect (dims : list Dimension.t) : result (list Z) :=
  mapM (fun dim =>
          match Dimension.kind dim with
          | Dimension.Indexed n => Ok n
          | Dimension.Mapped => Fatal AssertFailed
          end) dims.

(** Second loop, [for (i = size.size(); i-- > 0; )]: the strides are filled
    from the right; the pair is the stride vector and [cur_size] after the
    dimensions of [sizes] were visited. *)
Fixpoint fill (sizes : list Z) : list Z * Z :=
  match sizes with
  | [] => ([], 1)
  | s :: rest =>
      let '(strides, cur) := fill rest in
      (cur :: strides, SizeT.mul cur s)
  end.

Definition ctor (dims : list Dimension.t) : result t :=
  size <- collect dims ;;
  let '(stride, cur) := fill size in
  Ok (mk size stride cur).
End DenseSizes.

(** ** The dense plan *)

(** The child-value source: a function from child index to the value read,
    already an [int64_t]; reading may itself run outside the operand stack. *)
Definition Getter : Type := Z -> result Z.

(** Modelled from the spec: [run_nested_loop] (eval/eval/nested_loop.h) is not
    among the sources; it visits the free dimensions in the order given,
    outermost first, and hands every offset reached to the visitor. The
    result is the sequence of indices handed over. *)
Fixpoint run_nested_loop (idx : Z) (loop : list (Z * Z)) {struct loop} : list Z :=
  match loop with
  | [] => [idx]
  | (cnt, stride) :: inner =>
      flat_map
        (fun i => run_nested_loop (SizeT.add idx (SizeT.mul (Z.of_nat i) stride)) inner)
        (seq 0 (Z.to_nat cnt))
  end.

Module DensePlan.
Record Child : Type := mkChild { idx : Z; stride : Z; limit : Z }.

Record t : Type := mk {
  in_dense_size : Z;
  out_dense_size : Z;
  loop_cnt : list Z;
  in_stride : list Z;
  verbatim_offset : Z;
  children : list Child
}.

(** The body of the constructor's loop over [mine.dimensions]; [dims] pairs
    each remaining dimension with [sizes.size[i]] and [sizes.stride[i]], and
    [pos] is what is left of [mine.specs]. The assertion after the loop is
    the empty case. *)
Fixpoint classify (dims : list (Dimension.t * (Z * Z)))
  (pos : list DimSpec.t) (p : t) {struct dims} : result t :=
  match dims with
  | [] => _ <- assert (match pos with [] => true | _ => false end) ;; Ok p
  | (dim, (size_i, stride_i)) :: rest =>
      let free :=
        mk (in_dense_size p)
           (SizeT.mul (out_dense_size p) size_i)
           (loop_cnt p ++ [size_i])
           (in_stride p ++ [stride_i])
           (verbatim_offset p)
           (children p) in
      match pos with
      | [] => classify rest pos free
      | here :: pos' =>
          if String.ltb (Dimension.name dim) (DimSpec.name here) then
            classify rest pos free
          else
            _ <- assert (String.eqb (Dimension.name dim) (DimSpec.name here)) ;;
            if DimSpec.has_child here then
              child_idx <- DimSpec.get_child_idx here ;;
              classify rest pos'
                (mk (in_dense_size p) (out_dense_size p) (loop_cnt p)
                    (in_stride p) (verbatim_offset p)
                    (children p ++ [mkChild child_idx stride_i size_i]))
            else
              _ <- assert (DimSpec.has_label here) ;;
              label_index <- DimSpec.get_label_index here ;;
              _ <- assert (label_index <? size_i) ;;
              classify rest pos'
                (mk (in_dense_size p) (out_dense_size p) (loop_cnt p)
                    (in_stride p)
                    (SizeT.add (verbatim_offset p)
                               (SizeT.mul label_index stride_i))
                    (children p))
      end
  end.

Definition ctor (input_dims : list Dimension.t) (spec : Spec) : result t :=
  mine <- ExtractedSpecs.ctor true input_dims spec ;;
  sizes <- DenseSizes.ctor (ExtractedSpecs.dimensions mine) ;;
  classify
    (combine (ExtractedSpecs.dimensions mine)
             (combine (DenseSizes.size sizes) (DenseSizes.stride sizes)))
    (ExtractedSpecs.specs mine)
    (mk (DenseSizes.cur_size sizes) 1 [] [] 0 []).

(** [get_offset]: the loop over the children, leaving at the first value
    that is not below its limit. *)
Fixpoint get_offset_from (cs : list Child) (get_child_value : Getter)
  (offset : Z) {struct cs} : result Z :=
  match cs with
  | [] => Ok offset
  | c :: rest =>
      value <- get_child_value (idx c) ;;
      let from_child := Int64.to_size_t value in
      if from_child <? limit c then
        get_offset_from rest get_child_value
          (SizeT.add offset (SizeT.mul from_child (stride c)))
      else Ok SizeT.npos
  end.

Definition get_offset (p : t) (get_child_value : Getter) : result Z :=
  get_offset_from (children p) get_child_value (verbatim_offset p).

(** [execute]: the indices handed to the visitor, in order. *)
Definition execute (p : t) (offset : Z) : list Z :=
  run_nested_loop offset (combine (loop_cnt p) (in_stride p)).
End DensePlan.

(** ** The sparse plan *)

(** [vespalib::make_string("%" PRId64, v)]: the signed base-10 numeral. *)
Definition make_string_PRId64 (v : Z) : string :=
  NilZero.string_of_int (Z.to_int v).

Module SparseState.
Record t : Type := mk {
  view_addr : list string;
  output_addr : list string
}.
(** [lookup_refs[i]] points at [view_refs[i]], which views [view_addr[i]]. *)
Definition lookup_refs (s : t) : list string := view_addr s.
Definition ctor (view_addr_in : list string) (out_dims : Z) : t :=
  mk view_addr_in (repeat EmptyString (Z.to_nat out_dims)).
End SparseState.

Module SparsePlan.
Record t : Type := mk {
  out_mapped_dims : Z;
  lookup_specs : list DimSpec.t;
  view_dims : list Z
}.

(** The constructor's loop over [mine.dimensions], from [dim_idx] on. *)
Fixpoint classify (dims : list Dimension.t) (dim_idx : Z)
  (pos : list DimSpec.t) (out : Z) (view : list Z) {struct dims}
  : result (Z * list Z) :=
  match dims with
  | [] => _ <- assert (match pos with [] => true | _ => false end) ;;
          Ok (out, view)
  | dim :: rest =>
      match pos with
      | [] => classify rest (SizeT.add dim_idx 1) pos (SizeT.add out 1) view
      | here :: pos' =>
          if String.ltb (Dimension.name dim) (DimSpec.name here) then
            classify rest (SizeT.add dim_idx 1) pos (SizeT.add out 1) view
          else
            _ <- assert (String.eqb (Dimension.name dim) (DimSpec.name here)) ;;
            classify rest (SizeT.add dim_idx 1) pos' out (view ++ [dim_idx])
      end
  end.

Definition ctor (input_dims : list Dimension.t) (spec : Spec) : result t :=
  mine <- ExtractedSpecs.ctor false input_dims spec ;;
  r <- classify (ExtractedSpecs.dimensions mine) 0
         (ExtractedSpecs.specs mine) 0 [] ;;
  Ok (mk (fst r) (ExtractedSpecs.specs mine) (snd r)).

(** One key per lookup spec, in the order of [lookup_specs]. *)
Definition key_of (get_child_value : Getter) (dim : DimSpec.t)
  : result string :=
  if DimSpec.has_child dim then
    child_idx <- DimSpec.get_child_idx dim ;;
    child_value <- get_child_value child_idx ;;
    Ok (make_string_PRId64 child_value)
  else DimSpec.get_label_name dim.

Definition make_state (p : t) (get_child_value : Getter)
  : result SparseState.t :=
  view_addr <- mapM (key_of get_child_value) (lookup_specs p) ;;
  _ <- assert (Nat.eqb (List.length view_addr) (List.length (view_dims p))) ;;
  Ok (SparseState.ctor view_addr (out_mapped_dims p)).
End SparsePlan.

(** ** Values, views and the execution engine *)

(** Modelled from the spec: the value, its sparse index with a lookup view
    over chosen mapped-dimension positions, and the output builder are
    collaborators outside the sources. A value is its list of subspaces'
    mapped addresses (the subspace ordinal is the position) and the cell
    array; a built value is the list of subspaces added to the builder. *)
Module Value.
Record t (CT : Type) : Type := mk {
  index : list (list string);
  cells : list CT
}.
Arguments mk {CT} index cells.
Arguments index {CT} t.
Arguments cells {CT} t.

Definition built (CT : Type) : Type := list (list string * list CT).

Definition read {CT : Type} (cells : list CT) (idx : Z) : result CT :=
  match nth_error cells (Z.to_nat idx) with
  | Some c => Ok c
  | None => Fatal OutOfBounds
  end.

(** [view->lookup(keys)]: a subspace matches when its label at every view
    dimension equals the key given for it. *)
Definition matches (view_dims : list Z) (keys : list string)
  (addr : list string) : bool :=
  forallb
    (fun dk => match nth_error addr (Z.to_nat (fst dk)) with
               | Some l => String.eqb l (snd dk)
               | None => false
               end)
    (combine view_dims keys).

(** The labels reported for a match: those of the dimensions outside the
    view, in dimension order. *)
Definition rest_of (view_dims : list Z) (addr : list string) : list string :=
  map snd
    (filter (fun il => negb (existsb (Z.eqb (Z.of_nat (fst il))) view_dims))
            (combine (seq 0 (List.length addr)) addr)).

(** [view->next_result] until exhausted: address and ordinal of every
    matching subspace. The order in which a view reports its matches is not
    fixed by its contract; they are listed here by ordinal, and what is
    proved of the subspaces of a result is stated up to their order. *)
Definition lookup (index : list (list string)) (view_dims : list Z)
  (keys : list string) : list (list string * Z) :=
  flat_map
    (fun oa => if matches view_dims keys (snd oa)
               then [(rest_of view_dims (snd oa), Z.of_nat (fst oa))]
               else [])
    (combine (seq 0 (List.length index)) index).
End Value.

Section Engine.
Context {ICT OCT : Type}.
(** [*dst++ = input_cells[idx]] converts between the cell types. *)
Variable convert : ICT -> OCT.
(** [OCT{}]. *)
Variable zero : OCT.

Definition copy_subspace (input : Value.t ICT) (dense_plan : DensePlan.t)
  (dense_offset : Z) (found : list string * Z)
  : result (list string * list OCT) :=
  let input_offset :=
    SizeT.mul (snd found) (DensePlan.in_dense_size dense_plan) in
  dst <- mapM (fun idx => c <- Value.read (Value.cells input) idx ;;
                          Ok (convert c))
           (DensePlan.execute dense_plan (SizeT.add dense_offset input_offset)) ;;
  Ok (fst found, dst).

Definition generic_mixed_peek (input_value : Value.t ICT)
  (sparse_plan : SparsePlan.t) (dense_plan : DensePlan.t)
  (get_child_value : Getter) : result (Value.built OCT) :=
  dense_offset <- DensePlan.get_offset dense_plan get_child_value ;;
  filled <-
    (if negb (dense_offset =? SizeT.npos) then
       state <- SparsePlan.make_state sparse_plan get_child_value ;;
       mapM (copy_subspace input_value dense_plan dense_offset)
         (Value.lookup (Value.index input_value)
            (SparsePlan.view_dims sparse_plan)
            (SparseState.lookup_refs state))
     else Ok []) ;;
  let filled_subspaces := Z.of_nat (List.length filled) in
  if (SparsePlan.out_mapped_dims sparse_plan =? 0) && (filled_subspaces =? 0)
  then Ok (filled ++
           [([], repeat zero
                   (Z.to_nat (DensePlan.out_dense_size dense_plan)))])
  else Ok filled.
End Engine.

(** ** Types and the operation's parameters *)

Module ValueType.
Record t : Type := mk { dimensions : list Dimension.t }.

Definition indexed_sizes (dims : list Dimension.t) : list Z :=
  flat_map (fun d => match Dimension.kind d with
                     | Dimension.Indexed n => [n]
                     | Dimension.Mapped => []
                     end) dims.

(** Modelled from the spec: [ValueType::dense_subspace_size] is declared
    outside the sources; it is the product of the sizes of the type's
    indexed dimensions, a [size_t]. *)
Definition dense_subspace_size (ty : t) : Z :=
  SizeT.product (indexed_sizes (dimensions ty)).

Definition count_mapped_dimensions (ty : t) : Z :=
  Z.of_nat (List.length (filter Dimension.is_mapped (dimensions ty))).
End ValueType.

Module PeekParam.
Record t : Type := mk {
  res_type : ValueType.t;
  dense_plan : DensePlan.t;
  sparse_plan : SparsePlan.t;
  num_children : Z
}.

Definition ctor (input_type res_type_in : ValueType.t) (spec_in : Spec)
  : result t :=
  dense <- DensePlan.ctor (ValueType.dimensions input_type) spec_in ;;
  sparse <- SparsePlan.ctor (ValueType.dimensions input_type) spec_in ;;
  _ <- assert (DensePlan.in_dense_size dense
               =? ValueType.dense_subspace_size input_type) ;;
  _ <- assert (DensePlan.out_dense_size dense
               =? ValueType.dense_subspace_size res_type_in) ;;
  Ok (mk res_type_in dense sparse (count_children spec_in)).
End PeekParam.

(** ** The stack glue *)

Section Glue.
Context {ICT OCT : Type}.
Variable convert : ICT -> OCT.
Variable zero : OCT.
(** Values on the operand stack, read as a double or as the input tensor;
    [D] stands for [double] and [int64_of_double] for the cast
    [int64_t(...)]. *)
Context {V D : Type}.
Variable as_double : V -> D.
Variable int64_of_double : D -> Z.
Variable as_tensor : V -> Value.t ICT.
(** [*state.stash.create<Value::UP>(std::move(up))]. *)
Variable stash_create : Value.built OCT -> V.

(** Modelled from the spec: the interpreter's operand stack is outside the
    sources. The stack is the list of its values, last pushed first;
    [peek ridx] reads [ridx] places below the top and [pop_n_push n v]
    replaces the top [n] values by [v]. *)
Definition peek (stack : list V) (ridx : Z) : result V :=
  match nth_error stack (Z.to_nat ridx) with
  | Some v => Ok v
  | None => Fatal OutOfBounds
  end.

Definition pop_n_push (n : Z) (v : V) (stack : list V) : list V :=
  v :: skipn (Z.to_nat n) stack.

Definition get_child_value (stack : list V) (last_child : Z) : Getter :=
  fun child_idx =>
    let stack_idx := SizeT.sub last_child child_idx in
    v <- peek stack stack_idx ;;
    Ok (int64_of_double (as_double v)).

Definition my_generic_peek_op (stack : list V) (param : PeekParam.t)
  : result (list V) :=
  input_value <- peek stack (PeekParam.num_children param) ;;
  let last_child := SizeT.sub (PeekParam.num_children param) 1 in
  up <- generic_mixed_peek convert zero (as_tensor input_value)
          (PeekParam.sparse_plan param) (PeekParam.dense_plan param)
          (get_child_value stack last_child) ;;
  (* num_children does not include the "input" param *)
  Ok (pop_n_push (SizeT.add (PeekParam.num_children param) 1)
        (stash_create up) stack).
End Glue.

(** ** Well-formed inputs *)

Definition name_lt (a b : string) : Prop := String.ltb a b = true.

(** A type lists its dimensions in ascending name order, names unique. *)
Definition dims_sorted (dims : list Dimension.t) : Prop :=
  StronglySorted (fun a b => name_lt (Dimension.name a) (Dimension.name b)) dims.

(** A [std::map] iterates in ascending key order, keys unique. *)
Definition spec_sorted (spec : Spec) : Prop :=
  StronglySorted (fun a b => name_lt (fst a) (fst b)) spec.

Definition spec_lookup (n : string) (spec : Spec) : option MyLabel :=
  match find (fun e => String.eqb (fst e) n) spec with
  | Some e => Some (snd e)
  | None => None
  end.

Definition pinned_by (spec : Spec) (d : Dimension.t) : bool :=
  match spec_lookup (Dimension.name d) spec with
  | Some _ => true
  | None => false
  end.

(** The data-model invariant of a specification entry: a literal on an
    indexed dimension is an in-range coordinate, a literal on a mapped
    dimension is a name. *)
Definition entry_fits (d : Dimension.t) (m : MyLabel) : Prop :=
  match Dimension.kind d, m with
  | Dimension.Indexed size, label (Label.Index i) => Z.of_N i < size
  | Dimension.Mapped, label (Label.Name _) => True
  | _, child _ => True
  | _, _ => False
  end.

Definition spec_fits (dims : list Dimension.t) (spec : Spec) : Prop :=
  forall e, In e spec ->
    exists d, In d dims /\ Dimension.name d = fst e /\ entry_fits d (snd e).

(** Modelled from the spec: the result type is computed by the type-inference
    stage outside the sources; its dimensions are the input dimensions the
    specification does not pin, in the same order. *)
Definition peek_result_dims (dims : list Dimension.t) (spec : Spec)
  : list Dimension.t :=
  filter (fun d => negb (pinned_by spec d)) dims.

Record well_typed (input_type res_type : ValueType.t) (spec : Spec) : Prop := {
  wt_dims : dims_sorted (ValueType.dimensions input_type);
  wt_spec : spec_sorted spec;
  wt_fits : spec_fits (ValueType.dimensions input_type) spec;
  wt_res : ValueType.dimensions res_type
           = peek_result_dims (ValueType.dimensions input_type) spec;
  (* the size of a vector is a size_t *)
  wt_count : Z.of_nat (List.length (ValueType.dimensions input_type))
             < SizeT.modulus
}.

(** Exact (unbounded) product, to compare the [size_t] results against. *)
Definition list_product (l : list Z) : Z := fold_right Z.mul 1 l.

(** The dense block of a type can be addressed: every indexed dimension
    has at least one coordinate and the number of cells of one dense
    subspace is at most [PTRDIFF_MAX]. Neither the sources nor the spec
    require it of a type; it is the hypothesis of the properties that are
    stated for such types only, outside which sizes, strides and offsets
    wrap around. *)
Definition dense_addressable (dims : list Dimension.t) : Prop :=
  Forall (fun n => 1 <= n) (ValueType.indexed_sizes dims)
  /\ list_product (ValueType.indexed_sizes dims) <= Int64.max_value.

(** The specification's slice for one kind of dimension, in dimension order:
    what the classifier extracts. *)
Definition pinned_specs (indexed : bool) (spec : Spec)
  (dims : list Dimension.t) : list DimSpec.t :=
  flat_map
    (fun d =>
       if Bool.eqb (Dimension.is_indexed d) indexed then
         match spec_lookup (Dimension.name d) spec with
         | Some m => [DimSpec.mk (Dimension.name d) m]
         | None => []
         end
       else [])
    dims.

Definition dims_of_kind (indexed : bool) (dims : list Dimension.t)
  : list Dimension.t :=
  filter (fun d => Bool.eqb (Dimension.is_indexed d) indexed) dims.

(** A child-value source that always delivers, with [int64_t] values. *)
Definition source (values : Z -> Z) : Getter := fun i => Ok (values i).

Definition int64_source (values : Z -> Z) : Prop :=
  forall i, Int64.in_range (values i).

(** ** Quantities the properties are stated with *)

(** The largest displacement a list of (count, stride) pairs can add to an
    offset: every coordinate at its last value. *)
Definition reach (l : list (Z * Z)) : Z :=
  fold_right (fun cs acc => (fst cs - 1) * snd cs + acc) 0 l.

Definition child_pairs (p : DensePlan.t) : list (Z * Z) :=
  map (fun c => (DensePlan.limit c, DensePlan.stride c)) (DensePlan.children p).

Definition free_pairs (p : DensePlan.t) : list (Z * Z) :=
  combine (DensePlan.loop_cnt p) (DensePlan.in_stride p).

Definition plan_reach (p : DensePlan.t) : Z :=
  DensePlan.verbatim_offset p + reach (child_pairs p) + reach (free_pairs p).

(** The children's contribution to the offset, in exact arithmetic. *)
Definition child_sum (cs : list DensePlan.Child) (values : Z -> Z) : Z :=
  fold_right
    (fun c acc => DensePlan.stride c * values (DensePlan.idx c) + acc) 0 cs.

Definition child_in_range (values : Z -> Z) (c : DensePlan.Child) : Prop :=
  0 <= values (DensePlan.idx c) < DensePlan.limit c.

(** Strides as exact products of the sizes to the right. *)
Fixpoint exact_strides (sizes : list Z) : list Z :=
  match sizes with
  | [] => []
  | _ :: rest => list_product rest :: exact_strides rest
  end.


Definition good_pairs (l : list (Z * Z)) : Prop :=
  Forall (fun cs => 1 <= fst cs /\ 0 <= snd cs) l.

(** What the constructor's loop maintains: counts and limits are positive,
    strides and the literal offset are not negative, and the two loop
    vectors grow together. *)
Definition plan_good (p : DensePlan.t) : Prop :=
  0 <= DensePlan.verbatim_offset p
  /\ good_pairs (child_pairs p)
  /\ good_pairs (free_pairs p)
  /\ List.length (DensePlan.loop_cnt p) = List.length (DensePlan.in_stride p).

(** ** The plans read off the specification, dimension by dimension

    What the constructors' loops compute when the classifier's output is in
    step with the dimensions: the role of each dimension is found by looking
    its name up in the specification. *)

Definition dense_step (spec : Spec) (p : DensePlan.t)
  (z : Dimension.t * (Z * Z)) : DensePlan.t :=
  match spec_lookup (Dimension.name (fst z)) spec with
  | None =>
      DensePlan.mk (DensePlan.in_dense_size p)
        (SizeT.mul (DensePlan.out_dense_size p) (fst (snd z)))
        (DensePlan.loop_cnt p ++ [fst (snd z)])
        (DensePlan.in_stride p ++ [snd (snd z)])
        (DensePlan.verbatim_offset p) (DensePlan.children p)
  | Some (child child_idx) =>
      DensePlan.mk (DensePlan.in_dense_size p) (DensePlan.out_dense_size p)
        (DensePlan.loop_cnt p) (DensePlan.in_stride p)
        (DensePlan.verbatim_offset p)
        (DensePlan.children p
           ++ [DensePlan.mkChild child_idx (snd (snd z)) (fst (snd z))])
  | Some (label (Label.Index i)) =>
      DensePlan.mk (DensePlan.in_dense_size p) (DensePlan.out_dense_size p)
        (DensePlan.loop_cnt p) (DensePlan.in_stride p)
        (SizeT.add (DensePlan.verbatim_offset p)
           (SizeT.mul (Z.of_N i) (snd (snd z))))
        (DensePlan.children p)
  | Some (label (Label.Name _)) => p
  end.

Definition dense_roles (spec : Spec) (zdims : list (Dimension.t * (Z * Z)))
  (p : DensePlan.t) : DensePlan.t :=
  fold_left (dense_step spec) zdims p.

(** State of the sparse loop: [dim_idx], [out_mapped_dims], [view_dims]. *)
Definition sparse_step (spec : Spec) (st : Z * (Z * list Z))
  (d : Dimension.t) : Z * (Z * list Z) :=
  if pinned_by spec d
  then (SizeT.add (fst st) 1, (fst (snd st), snd (snd st) ++ [fst st]))
  else (SizeT.add (fst st) 1, (SizeT.add (fst (snd st)) 1, snd (snd st))).

Definition sparse_roles (spec : Spec) (dims : list Dimension.t)
  (st : Z * (Z * list Z)) : Z * (Z * list Z) :=
  fold_left (sparse_step spec) dims st.

(** A dense specification entry the constructor's assertions accept. *)
Definition dense_entry_ok (spec : Spec) (z : Dimension.t * (Z * Z)) : Prop :=
  match spec_lookup (Dimension.name (fst z)) spec with
  | Some (label (Label.Index i)) => Z.of_N i < fst (snd z)
  | Some (label (Label.Name _)) => False
  | _ => True
  end.

(** The indexed dimensions of a type with their sizes and strides, as the
    dense constructor's loop walks them. *)
Definition dense_zip (dims : list Dimension.t) : list (Dimension.t * (Z * Z)) :=
  combine (dims_of_kind true dims)
    (combine (ValueType.indexed_sizes dims)
       (fst (DenseSizes.fill (ValueType.indexed_sizes dims)))).

Definition dense_init (dims : list Dimension.t) : DensePlan.t :=
  DensePlan.mk (snd (DenseSizes.fill (ValueType.indexed_sizes dims))) 1 [] [] 0 [].

Definition unpinned (spec : Spec) (d : Dimension.t) : bool :=
  negb (pinned_by spec d).

(** Sizes of the dimensions the specification leaves free. *)
Definition free_sizes (spec : Spec) (zdims : list (Dimension.t * (Z * Z)))
  : list Z :=
  map (fun z => fst (snd z)) (filter (fun z => unpinned spec (fst z)) zdims).

(** The key a pin resolves to: a literal name as it is, a child's value as
    its decimal numeral. *)
Definition resolved_key (values : Z -> Z) (m : MyLabel) : string :=
  match m with
  | child i => make_string_PRId64 (values i)
  | label (Label.Name n) => n
  | label (Label.Index _) => EmptyString
  end.

Definition key_pin (m : MyLabel) : Prop :=
  match m with
  | label (Label.Index _) => False
  | _ => True
  end.

Definition pinned_mapped (spec : Spec) (d : Dimension.t) : bool :=
  Bool.eqb (Dimension.is_indexed d) false && pinned_by spec d.

(** No subspace is filled from the input: the dense offset did not resolve,
    or it did and the lookup reported no subspace. *)
Definition nothing_filled {ICT : Type} (input_value : Value.t ICT)
  (sparse_plan : SparsePlan.t) (dense_plan : DensePlan.t)
  (get_child_value : Getter) : Prop :=
  DensePlan.get_offset dense_plan get_child_value = Ok SizeT.npos
  \/ exists dense_offset state,
       DensePlan.get_offset dense_plan get_child_value = Ok dense_offset
       /\ dense_offset <> SizeT.npos
       /\ SparsePlan.make_state sparse_plan get_child_value = Ok state
       /\ Value.lookup (Value.index input_value)
            (SparsePlan.view_dims sparse_plan)
            (SparseState.lookup_refs state) = [].

(** The parameters built for a well-typed triple. *)
Definition peek_param (input_type res_type : ValueType.t) (spec : Spec)
  : PeekParam.t :=
  let dims := ValueType.dimensions input_type in
  let roles := sparse_roles spec (dims_of_kind false dims) (0, (0, [])) in
  PeekParam.mk res_type
    (dense_roles spec (dense_zip dims) (dense_init dims))
    (SparsePlan.mk (fst (snd roles)) (pinned_specs false spec dims)
       (snd (snd roles)))
    (count_children spec).

(** ** Pinning every dimension with a literal *)

Definition all_literal (spec : Spec) (dims : list Dimension.t) : Prop :=
  forall d, In d dims ->
    exists l, spec_lookup (Dimension.name d) spec = Some (label l).

Definition label_index (spec : Spec) (d : Dimension.t) : Z :=
  match spec_lookup (Dimension.name d) spec with
  | Some (label (Label.Index i)) => Z.of_N i
  | _ => 0
  end.

Definition label_name (spec : Spec) (d : Dimension.t) : string :=
  match spec_lookup (Dimension.name d) spec with
  | Some (label (Label.Name n)) => n
  | _ => EmptyString
  end.

(** The mapped address the specification pins, in dimension order. *)
Definition pinned_address (spec : Spec) (dims : list Dimension.t) : list string :=
  map (label_name spec) (dims_of_kind false dims).

(** The row-major position, within a dense block, of the indexed coordinate
    the specification pins. *)
Fixpoint pinned_cell (spec : Spec) (idims : list Dimension.t) : Z :=
  match idims with
  | [] => 0
  | d :: rest =>
      label_index spec d * list_product (ValueType.indexed_sizes rest)
      + pinned_cell spec rest
  end.

Definition literal_sum (spec : Spec) (zdims : list (Dimension.t * (Z * Z))) : Z :=
  fold_right (fun z acc => label_index spec (fst z) * snd (snd z) + acc) 0 zdims.

(** Modelled from the spec: a value of a type has one address per subspace,
    no address twice, a label per mapped dimension in every address, and a
    dense block of cells per subspace in one cell array. *)
Record value_of_type {CT : Type} (dims : list Dimension.t) (v : Value.t CT)
  : Prop := {
  addresses_unique : NoDup (Value.index v);
  addresses_full : forall addr, In addr (Value.index v) ->
                     List.length addr = List.length (dims_of_kind false dims);
  cells_full : Z.of_nat (List.length (Value.cells v))
               = Z.of_nat (List.length (Value.index v))
                 * list_product (ValueType.indexed_sizes dims);
  cells_fit : Z.of_nat (List.length (Value.cells v)) < SizeT.modulus
}.

(** ** A worked example

    The tensor of the spec's examples: one indexed dimension [x] of size 3
    and one mapped dimension [y]; subspace [y = a] holds cells 1, 2, 3 and
    subspace [y = b] holds cells 4, 5, 6. *)
Module Sample.
Definition x : Dimension.t := Dimension.mk "x" (Dimension.Indexed 3).
Definition y : Dimension.t := Dimension.mk "y" Dimension.Mapped.
Definition input_type : ValueType.t := ValueType.mk [x; y].
Definition input : Value.t Z := Value.mk [["a"%string]; ["b"%string]] [1; 2; 3; 4; 5; 6].

(** [x] pinned by child 0, [y] left free. *)
Definition by_child : Spec := [("x"%string, child 0)].
Definition by_child_type : ValueType.t := ValueType.mk [y].
(** [x] pinned by child 0, [y] pinned to the literal [b]. *)
Definition child_and_name : Spec :=
  [("x"%string, child 0); ("y"%string, label (Label.Name "b"))].
(** Both dimensions pinned by literals: cell 2 of subspace [b]. *)
Definition literals : Spec :=
  [("x"%string, label (Label.Index 2)); ("y"%string, label (Label.Name "b"))].
Definition scalar_type : ValueType.t := ValueType.mk [].
(** A name the type does not have. *)
Definition unknown : Spec := [("w"%string, child 0)].
(** [y] pinned by child 0, [x] left free. *)
Definition mapped_child : Spec := [("y"%string, child 0)].
(** [y] pinned to a label no subspace has, [x] left free. *)
Definition absent_name : Spec := [("y"%string, label (Label.Name "z"))].
Definition dense_type : ValueType.t := ValueType.mk [x].

(** Three indexed dimensions, the middle one pinned by child 0. *)
Definition cube : list Dimension.t :=
  [Dimension.mk "a" (Dimension.Indexed 2);
   Dimension.mk "b" (Dimension.Indexed 3);
   Dimension.mk "c" (Dimension.Indexed 4)].
Definition cube_spec : Spec := [("b"%string, child 0)].
Definition cube_plan : DensePlan.t :=
  DensePlan.mk 24 8 [2; 4] [12; 1] 0 [DensePlan.mkChild 0 4 3].

(** Operand stack values: numbers, tensors and built results. *)
Inductive stack_value : Type :=
| Num (d : Z)
| Tensor (v : Value.t Z)
| Built (b : Value.built Z).
Definition as_double (v : stack_value) : Z :=
  match v with Num d => d | _ => 0 end.
Definition as_tensor (v : stack_value) : Value.t Z :=
  match v with Tensor t => t | _ => Value.mk [] [] end.
End Sample.

(** What "row-major strides" means for the vectors the builder fills, in
    [size_t] arithmetic and, where the products fit, exactly. *)
Definition row_major (sz : DenseSizes.t) : Prop :=
  List.length (DenseSizes.stride sz) = List.length (DenseSizes.size sz)
  /\ last (DenseSizes.stride sz) 0 = 1
  /\ (forall i, (i < List.length (DenseSizes.size sz))%nat ->
        nth i (DenseSizes.stride sz) 0
        = SizeT.wrap (list_product (skipn (S i) (DenseSizes.size sz))))
  /\ DenseSizes.cur_size sz = SizeT.wrap (list_product (DenseSizes.size sz)).

Definition row_major_exact (sz : DenseSizes.t) : Prop :=
  (forall i, (i < List.length (DenseSizes.size sz))%nat ->
     nth i (DenseSizes.stride sz) 0
     = list_product (skipn (S i) (DenseSizes.size sz)))
  /\ DenseSizes.cur_size sz = list_product (DenseSizes.size sz).

(** ** Proof steps for the result monad *)

Tactic Notation "bind_ok" hyp(H) "as" ident(E) :=
  match type of H with
  | bind ?r _ = Ok _ =>
      destruct r eqn:E; [cbn [bind] in H | discriminate H]
  end.

Tactic Notation "assert_ok" hyp(H) "as" ident(E) :=
  match type of H with
  | context [assert ?b] =>
      destruct b eqn:E;
      [cbn [assert bind] in H | cbn [assert bind] in H; discriminate H]
  end.

(** ** Further quantities

    Used by the properties of the constructors, of the state and of the
    engine further below. *)

(** A result that is not [std::get] applied to the alternative a variant
    does not hold. *)
Definition plain_failure {A : Type} (r : result A) : Prop :=
  match r with
  | Fatal BadVariant => False
  | _ => True
  end.

(** Positions in strictly ascending order within [lo, hi). *)
Definition ascending_within (lo hi : Z) (l : list Z) : Prop :=
  StronglySorted Z.lt l /\ Forall (fun v => lo <= v < hi) l.

(** A literal the dense constructor's assertions reject: a name on an
    indexed dimension, or an index that is not below the size. *)
Definition bad_dense_literal (spec : Spec) (d : Dimension.t) : bool :=
  match Dimension.kind d, spec_lookup (Dimension.name d) spec with
  | Dimension.Indexed _, Some (label (Label.Name _)) => true
  | Dimension.Indexed n, Some (label (Label.Index i)) => negb (Z.of_N i <? n)
  | _, _ => false
  end.

(** A literal [make_state] rejects: an index on a mapped dimension. *)
Definition bad_sparse_literal (spec : Spec) (d : Dimension.t) : bool :=
  match Dimension.kind d, spec_lookup (Dimension.name d) spec with
  | Dimension.Mapped, Some (label (Label.Index _)) => true
  | _, _ => false
  end.

Definition names_known (dims : list Dimension.t) (spec : Spec) : Prop :=
  forall e, In e spec -> exists d, In d dims /\ Dimension.name d = fst e.

(** The range check and the sum of [get_offset] as the machine computes
    them, on the child value converted to [size_t]. *)
Definition machine_in_range (values : Z -> Z) (c : DensePlan.Child) : bool :=
  Int64.to_size_t (values (DensePlan.idx c)) <? DensePlan.limit c.

Definition machine_sum (cs : list DensePlan.Child) (values : Z -> Z) : Z :=
  fold_right
    (fun c acc =>
       Int64.to_size_t (values (DensePlan.idx c)) * DensePlan.stride c + acc)
    0 cs.

(** The specification's entries found from the dimensions, in dimension
    order. *)
Definition pinned_entries (spec : Spec) (dims : list Dimension.t) : Spec :=
  flat_map
    (fun d => match spec_lookup (Dimension.name d) spec with
              | Some m => [(Dimension.name d, m)]
              | None => []
              end)
    dims.

Definition child_pinned (spec : Spec) (d : Dimension.t) : bool :=
  match spec_lookup (Dimension.name d) spec with
  | Some (child _) => true
  | _ => false
  end.

Definition child_entries (spec : Spec) : Spec :=
  filter (fun e => holds_child (snd e)) spec.

(** The parts of the dense plan, read off the indexed dimensions with their
    sizes and strides: the (count, stride) pairs of the dimensions left
    free, and a child per dimension pinned by a child reference. *)
Definition dense_free (spec : Spec) (zdims : list (Dimension.t * (Z * Z)))
  : list (Z * Z) :=
  map snd (filter (fun z => unpinned spec (fst z)) zdims).

Definition dense_children (spec : Spec) (zdims : list (Dimension.t * (Z * Z)))
  : list DensePlan.Child :=
  flat_map
    (fun z => match spec_lookup (Dimension.name (fst z)) spec with
              | Some (child i) =>
                  [DensePlan.mkChild i (snd (snd z)) (fst (snd z))]
              | _ => []
              end)
    zdims.

(** Positions, counted from [start], of the dimensions a test selects. *)
Fixpoint positions (f : Dimension.t -> bool) (dims : list Dimension.t)
  (start : nat) : list nat :=
  match dims with
  | [] => []
  | d :: rest => (if f d then [start] else []) ++ positions f rest (S start)
  end.

(** A built subspace of the right size whose cells are converted input
    cells or the default. *)
Definition subspace_from {ICT OCT : Type} (convert : ICT -> OCT) (zero : OCT)
  (cells : list ICT) (size : Z) (sub : list string * list OCT) : Prop :=
  Z.of_nat (List.length (snd sub)) = size
  /\ Forall (fun c => c = zero \/ exists x, In x cells /\ c = convert x)
       (snd sub).

(** Strides that nest: every stride exceeds what the loops inside it can
    add to an offset. *)
Fixpoint nested (l : list (Z * Z)) : Prop :=
  match l with
  | [] => True
  | cs :: inner => reach inner < snd cs /\ nested inner
  end.

(** Specifications for the worked example with a literal of the wrong
    kind: a name on the indexed [x], an index on the mapped [y]. *)
Module Misuse.
Definition name_on_indexed : Spec := [("x"%string, label (Label.Name "a"))].
Definition index_on_mapped : Spec := [("y"%string, label (Label.Index 0))].
Definition mapped_plan : SparsePlan.t :=
  SparsePlan.mk 0 [DimSpec.mk "y" (child 0)] [0].
End Misuse.

(** An address agrees with the keys of an invocation: for every mapped
    dimension the specification pins, the address holds the key the pin
    resolves to. The address is read dimension by dimension, not through
    the plan's view positions. *)
Definition address_agrees (spec : Spec) (values : Z -> Z)
  (dims : list Dimension.t) (addr : list string) : bool :=
  forallb
    (fun dl => match spec_lookup (Dimension.name (fst dl)) spec with
               | Some m => String.eqb (snd dl) (resolved_key values m)
               | None => true
               end)
    (combine (dims_of_kind false dims) addr).

(** The cells of the dense block of subspace [k], for blocks of [size]
    cells. *)
Definition subspace_cells {CT : Type} (cells : list CT) (size k : nat)
  : list CT :=
  firstn size (skipn (k * size) cells).

(** Further shapes for the worked instances. *)
Module Shapes.
(** The cube as an input type, and its result once [b] is pinned. *)
Definition cube_type : ValueType.t := ValueType.mk Sample.cube.
Definition cube_result : ValueType.t :=
  ValueType.mk [Dimension.mk "a" (Dimension.Indexed 2);
                Dimension.mk "c" (Dimension.Indexed 4)].

(** Two mapped dimensions before an indexed one. *)
Definition k : Dimension.t := Dimension.mk "k" Dimension.Mapped.
Definition m : Dimension.t := Dimension.mk "m" Dimension.Mapped.
Definition keyed : list Dimension.t := [k; m; Sample.x].
(** [k] pinned to the literal [b], [m] pinned by child 0. *)
Definition name_and_child : Spec :=
  [("k"%string, label (Label.Name "b")); ("m"%string, child 0)].
(** [m] pinned by child 0, [k] left free. *)
Definition second_by_child : Spec := [("m"%string, child 0)].
Definition keyed_index : list (list string) :=
  [["p"%string; "-1"%string]; ["q"%string; "5"%string]].

(** Four indexed dimensions of 65536 coordinates each, [2^64] cells in
    all, every one pinned by a child. *)
Definition wide : list Dimension.t :=
  [Dimension.mk "a" (Dimension.Indexed 65536);
   Dimension.mk "b" (Dimension.Indexed 65536);
   Dimension.mk "c" (Dimension.Indexed 65536);
   Dimension.mk "d" (Dimension.Indexed 65536)].
Definition wide_spec : Spec :=
  [("a"%string, child 0); ("b"%string, child 1);
   ("c"%string, child 2); ("d"%string, child 3)].
End Shapes.

(** * Properties *)

(** ** Arithmetic of [size_t] *)

Lemma modulus_eq : SizeT.modulus = 18446744073709551616.
Proof. reflexivity. Qed.

Lemma npos_eq : SizeT.npos = 18446744073709551615.
Proof. reflexivity. Qed.

Lemma wrap_range (z : Z) : 0 <= SizeT.wrap z < SizeT.modulus.
Proof. unfold SizeT.wrap. apply Z.mod_pos_bound. rewrite modulus_eq. lia. Qed.

Lemma wrap_small (z : Z) : 0 <= z < SizeT.modulus -> SizeT.wrap z = z.
Proof. intros H. unfold SizeT.wrap. now apply Z.mod_small. Qed.

Lemma wrap_idem (z : Z) : SizeT.wrap (SizeT.wrap z) = SizeT.wrap z.
Proof. apply wrap_small, wrap_range. Qed.

Lemma wrap_mul_l (a b : Z) : SizeT.wrap (SizeT.wrap a * b) = SizeT.wrap (a * b).
Proof. unfold SizeT.wrap. now rewrite Z.mul_mod_idemp_l by (rewrite modulus_eq; lia). Qed.

Lemma wrap_mul_r (a b : Z) : SizeT.wrap (a * SizeT.wrap b) = SizeT.wrap (a * b).
Proof. unfold SizeT.wrap. now rewrite Z.mul_mod_idemp_r by (rewrite modulus_eq; lia). Qed.

Lemma wrap_add_l (a b : Z) : SizeT.wrap (SizeT.wrap a + b) = SizeT.wrap (a + b).
Proof. unfold SizeT.wrap. now rewrite Z.add_mod_idemp_l by (rewrite modulus_eq; lia). Qed.

Lemma wrap_add_r (a b : Z) : SizeT.wrap (a + SizeT.wrap b) = SizeT.wrap (a + b).
Proof. unfold SizeT.wrap. now rewrite Z.add_mod_idemp_r by (rewrite modulus_eq; lia). Qed.

Lemma product_from (l : list Z) (a : Z) :
  fold_left SizeT.mul l (SizeT.wrap a) = SizeT.wrap (a * list_product l).
Proof.
  revert a. induction l as [|x l IH]; intros a; simpl.
  - now rewrite Z.mul_1_r.
  - unfold SizeT.mul at 2. rewrite wrap_mul_l, IH. f_equal. ring.
Qed.

Lemma product_wrap (l : list Z) :
  SizeT.product l = SizeT.wrap (list_product l).
Proof.
  unfold SizeT.product. change 1 with (SizeT.wrap 1) at 1.
  rewrite product_from. f_equal. ring.
Qed.

Lemma list_product_app (l1 l2 : list Z) :
  list_product (l1 ++ l2) = list_product l1 * list_product l2.
Proof.
  induction l1 as [|x l1 IH]; simpl.
  - now destruct (list_product l2).
  - rewrite IH. ring.
Qed.

Lemma list_product_pos (l : list Z) :
  Forall (fun n => 1 <= n) l -> 1 <= list_product l.
Proof.
  induction 1 as [|x l Hx _ IH]; simpl; [lia | nia].
Qed.

Lemma list_product_skipn (l : list Z) (k : nat) :
  Forall (fun n => 1 <= n) l ->
  1 <= list_product (skipn k l) <= list_product l.
Proof.
  intros H. revert k. induction H as [|x l Hx Hl IH]; intros [|k]; simpl; try lia.
  - pose proof (list_product_pos l Hl). nia.
  - specialize (IH k). pose proof (list_product_pos l Hl). nia.
Qed.

(** ** Strides *)

Lemma fill_length (sizes : list Z) :
  List.length (fst (DenseSizes.fill sizes)) = List.length sizes.
Proof.
  induction sizes as [|s rest IH]; simpl; [reflexivity|].
  destruct (DenseSizes.fill rest) as [strides cur]. simpl in *. now rewrite IH.
Qed.

Lemma fill_cur_size (sizes : list Z) :
  snd (DenseSizes.fill sizes) = SizeT.wrap (list_product sizes).
Proof.
  induction sizes as [|s rest IH]; simpl; [reflexivity|].
  destruct (DenseSizes.fill rest) as [strides cur]. simpl in *. subst cur.
  unfold SizeT.mul. rewrite wrap_mul_l. f_equal. ring.
Qed.

Lemma fill_stride (sizes : list Z) (i : nat) :
  (i < List.length sizes)%nat ->
  nth i (fst (DenseSizes.fill sizes)) 0
  = SizeT.wrap (list_product (skipn (S i) sizes)).
Proof.
  revert i. induction sizes as [|s rest IH]; intros i Hi; simpl in Hi; [lia|].
  pose proof (fill_cur_size rest) as Hc.
  cbn [DenseSizes.fill]. destruct (DenseSizes.fill rest) as [strides cur] eqn:E.
  destruct i as [|i].
  - simpl in *. now subst cur.
  - cbn [fst nth]. change (skipn (S (S i)) (s :: rest)) with (skipn (S i) rest).
    apply (IH i). lia.
Qed.

Lemma fill_last (sizes : list Z) (d : Z) :
  sizes <> [] -> last (fst (DenseSizes.fill sizes)) d = 1.
Proof.
  induction sizes as [|s rest IH]; intros Hne; [congruence|].
  pose proof (fill_length rest) as Hl.
  cbn [DenseSizes.fill]. destruct (DenseSizes.fill rest) as [strides cur] eqn:E.
  destruct rest as [|s' rest'].
  - simpl in E. now inversion E.
  - cbn [fst] in *. destruct strides as [|x strides']; [simpl in Hl; lia|].
    change (last (cur :: x :: strides') d) with (last (x :: strides') d).
    apply IH. congruence.
Qed.

Lemma collect_indexed (dims : list Dimension.t) :
  Forall (fun d => Dimension.is_indexed d = true) dims ->
  DenseSizes.collect dims = Ok (ValueType.indexed_sizes dims).
Proof.
  unfold DenseSizes.collect.
  induction 1 as [|d dims Hd _ IH]; simpl; [reflexivity|].
  unfold Dimension.is_indexed in Hd.
  destruct (Dimension.kind d); [|discriminate]. simpl. now rewrite IH.
Qed.

Lemma DenseSizes_ctor_indexed (dims : list Dimension.t) :
  Forall (fun d => Dimension.is_indexed d = true) dims ->
  DenseSizes.ctor dims
  = Ok (DenseSizes.mk (ValueType.indexed_sizes dims)
          (fst (DenseSizes.fill (ValueType.indexed_sizes dims)))
          (snd (DenseSizes.fill (ValueType.indexed_sizes dims)))).
Proof.
  intros H. unfold DenseSizes.ctor. rewrite (collect_indexed dims H). simpl.
  now destruct (DenseSizes.fill (ValueType.indexed_sizes dims)).
Qed.

Lemma indexed_sizes_length (dims : list Dimension.t) :
  Forall (fun d => Dimension.is_indexed d = true) dims ->
  List.length (ValueType.indexed_sizes dims) = List.length dims.
Proof.
  induction 1 as [|d dims Hd _ IH]; simpl; [reflexivity|].
  unfold Dimension.is_indexed in Hd.
  destruct (Dimension.kind d); [|discriminate]. simpl. now rewrite IH.
Qed.

(** C7. For a non-empty list of indexed dimensions the builder succeeds with
    the dimensions' sizes and row-major strides: the last stride is 1, every
    stride is the product of the sizes to its right and [cur_size] (the
    plan's [in_dense_size]) is the product of all sizes. The products are
    those of [size_t]; for an addressable dense block they are the exact
    products. *)
Theorem DenseSizes_row_major (dims : list Dimension.t) :
  dims <> [] ->
  Forall (fun d => Dimension.is_indexed d = true) dims ->
  exists sz,
    DenseSizes.ctor dims = Ok sz
    /\ DenseSizes.size sz = ValueType.indexed_sizes dims
    /\ row_major sz
    /\ (dense_addressable dims -> row_major_exact sz).
Proof.
  intros Hne Hidx. eexists. split; [apply DenseSizes_ctor_indexed, Hidx|].
  unfold row_major, row_major_exact.
  cbn [DenseSizes.size DenseSizes.stride DenseSizes.cur_size].
  set (sizes := ValueType.indexed_sizes dims).
  assert (Hsz : sizes <> []).
  { intros E. apply (f_equal (@List.length Z)) in E. unfold sizes in E.
    rewrite indexed_sizes_length in E by assumption.
    destruct dims; [congruence | discriminate]. }
  split; [reflexivity|]. split.
  - repeat split.
    + apply fill_length.
    + now apply fill_last.
    + intros i Hi. now apply fill_stride.
    + apply fill_cur_size.
  - intros [Hpos Hfit]. fold sizes in Hpos, Hfit. unfold Int64.max_value in Hfit.
    split.
    + intros i Hi. rewrite fill_stride by assumption. apply wrap_small.
      pose proof (list_product_skipn sizes (S i) Hpos). rewrite modulus_eq. lia.
    + rewrite fill_cur_size. apply wrap_small.
      pose proof (list_product_pos sizes Hpos). rewrite modulus_eq. lia.
Qed.

(** ** Name order *)

Lemma ltb_irrefl (s : string) : String.ltb s s = false.
Proof.
  unfold String.ltb. pose proof (String.compare_antisym s s) as H.
  destruct (String.compare s s) eqn:E; simpl in H; try reflexivity; discriminate.
Qed.

Lemma ltb_asym (s t : string) : String.ltb s t = true -> String.ltb t s = false.
Proof.
  unfold String.ltb. rewrite (String.compare_antisym t s).
  destruct (String.compare s t); simpl; congruence.
Qed.

Lemma ltb_total (s t : string) :
  String.ltb s t = false -> String.ltb t s = false -> s = t.
Proof.
  unfold String.ltb. intros H1 H2. apply String.compare_eq_iff.
  rewrite (String.compare_antisym t s) in H2.
  destruct (String.compare s t); simpl in *; congruence.
Qed.

Lemma ltb_neq (s t : string) : String.ltb s t = true -> s <> t.
Proof. intros H E. subst t. rewrite ltb_irrefl in H. discriminate. Qed.

Lemma eqb_false_of_lt (s t : string) :
  String.ltb s t = true -> String.eqb s t = false.
Proof. intros H. apply String.eqb_neq. now apply ltb_neq. Qed.

(** ** The merge pass *)

Section Merge.
Context {A B : Type}.
Variables (cmp_ab : A -> B -> bool) (cmp_ba : B -> A -> bool).

Lemma visit_ranges_nil_r (ra : list A) :
  visit_ranges cmp_ab cmp_ba ra [] = map visit_ranges_first ra.
Proof. destruct ra; reflexivity. Qed.

Lemma visit_ranges_cons (a : A) (ra : list A) (b : B) (rb : list B) :
  visit_ranges cmp_ab cmp_ba (a :: ra) (b :: rb)
  = if cmp_ab a b then
      visit_ranges_first a :: visit_ranges cmp_ab cmp_ba ra (b :: rb)
    else if cmp_ba b a then
      visit_ranges_second b :: visit_ranges cmp_ab cmp_ba (a :: ra) rb
    else
      visit_ranges_both a b :: visit_ranges cmp_ab cmp_ba ra rb.
Proof. reflexivity. Qed.
End Merge.

Lemma spec_lookup_nil (n : string) : spec_lookup n [] = None.
Proof. reflexivity. Qed.

Lemma spec_lookup_head (n : string) (m : MyLabel) (spec : Spec) :
  spec_lookup n ((n, m) :: spec) = Some m.
Proof. unfold spec_lookup. simpl. now rewrite String.eqb_refl. Qed.

Lemma spec_lookup_skip (n : string) (e : string * MyLabel) (spec : Spec) :
  fst e <> n -> spec_lookup n (e :: spec) = spec_lookup n spec.
Proof.
  intros H. unfold spec_lookup. simpl.
  apply String.eqb_neq in H. now rewrite H.
Qed.

Lemma spec_lookup_none (n : string) (spec : Spec) :
  (forall e, In e spec -> fst e <> n) -> spec_lookup n spec = None.
Proof.
  induction spec as [|e spec IH]; intros H; [reflexivity|].
  rewrite spec_lookup_skip by (apply H; now left).
  apply IH. intros e' He'. apply H. now right.
Qed.

Lemma spec_lookup_in (n : string) (m : MyLabel) (spec : Spec) :
  spec_lookup n spec = Some m -> In (n, m) spec.
Proof.
  induction spec as [|[n' m'] spec IH]; intros H; [discriminate|].
  destruct (String.eqb_spec n' n) as [E|E].
  - subst n'. rewrite spec_lookup_head in H. inversion H. now left.
  - rewrite spec_lookup_skip in H by exact E. right. now apply IH.
Qed.

Lemma spec_lookup_sorted (n : string) (m : MyLabel) (spec : Spec) :
  spec_sorted spec -> In (n, m) spec -> spec_lookup n spec = Some m.
Proof.
  induction 1 as [|[n' m'] spec Hs IH Hall]; intros Hin; [contradiction|].
  destruct Hin as [E|Hin].
  - inversion E. subst. apply spec_lookup_head.
  - rewrite spec_lookup_skip; [now apply IH|].
    rewrite Forall_forall in Hall. specialize (Hall _ Hin). simpl in *.
    now apply ltb_neq.
Qed.

Lemma pinned_specs_nil (indexed : bool) (dims : list Dimension.t) :
  pinned_specs indexed [] dims = [].
Proof.
  unfold pinned_specs. induction dims as [|d dims IH]; [reflexivity|].
  cbn [flat_map]. rewrite IH, spec_lookup_nil.
  now destruct (Bool.eqb (Dimension.is_indexed d) indexed).
Qed.

Lemma pinned_specs_skip (indexed : bool) (e : string * MyLabel) (spec : Spec)
  (dims : list Dimension.t) :
  (forall d, In d dims -> fst e <> Dimension.name d) ->
  pinned_specs indexed (e :: spec) dims = pinned_specs indexed spec dims.
Proof.
  unfold pinned_specs. induction dims as [|d dims IH]; intros H; [reflexivity|].
  cbn [flat_map]. rewrite IH by (intros d' Hd'; apply H; now right).
  rewrite spec_lookup_skip by (apply H; now left). reflexivity.
Qed.

(** ** The classifier *)

Lemma foldM_firsts (indexed : bool) (ra : list Dimension.t)
  (acc : ExtractedSpecs.t) :
  foldM (ExtractedSpecs.visitor indexed) (map visit_ranges_first ra) acc
  = Ok (ExtractedSpecs.mk
          (ExtractedSpecs.dimensions acc ++ dims_of_kind indexed ra)
          (ExtractedSpecs.specs acc)).
Proof.
  revert acc. induction ra as [|a ra IH]; intros [ds ss]; simpl.
  - now rewrite app_nil_r.
  - destruct (Bool.eqb (Dimension.is_indexed a) indexed); simpl; rewrite IH; simpl.
    + now rewrite <- app_assoc.
    + reflexivity.
Qed.

(** An entry naming no input dimension reaches the visitor's second case. *)
Lemma classifier_aborts (indexed : bool) (ra : list Dimension.t) :
  forall (rb : Spec) (acc : ExtractedSpecs.t),
    (exists e, In e rb /\ forall d, In d ra -> Dimension.name d <> fst e) ->
    foldM (ExtractedSpecs.visitor indexed)
      (visit_ranges ExtractedSpecs.MyComp_dim_spec ExtractedSpecs.MyComp_spec_dim
         ra rb) acc
    = Fatal Aborted.
Proof.
  induction ra as [|a ra IH]; intros rb acc (e & He & Habs).
  - destruct rb as [|b rb]; [contradiction | reflexivity].
  - destruct rb as [|b rb]; [contradiction|].
    rewrite visit_ranges_cons.
    unfold ExtractedSpecs.MyComp_dim_spec, ExtractedSpecs.MyComp_spec_dim.
    destruct (String.ltb (Dimension.name a) (fst b)) eqn:Hab.
    + cbn [foldM ExtractedSpecs.visitor].
      destruct (Bool.eqb (Dimension.is_indexed a) indexed); cbn [bind];
        apply IH; exists e; (split; [exact He | intros d Hd; apply Habs; now right]).
    + destruct (String.ltb (fst b) (Dimension.name a)) eqn:Hba; [reflexivity|].
      pose proof (ltb_total _ _ Hab Hba) as Heq.
      assert (Hrest : exists e, In e rb /\ forall d, In d ra -> Dimension.name d <> fst e).
      { exists e. split.
        - destruct He as [E|He]; [|exact He]. subst e.
          exfalso. apply (Habs a); [now left | exact Heq].
        - intros d Hd. apply Habs. now right. }
      cbn [foldM ExtractedSpecs.visitor].
      destruct (Bool.eqb (Dimension.is_indexed a) indexed); cbn [bind].
      * rewrite Heq, String.eqb_refl. cbn [assert bind]. now apply IH.
      * now apply IH.
Qed.

(** With sorted ranges and no unknown name the pass runs to its end: it keeps
    the dimensions of the requested kind and, of the specification, the
    entries that name one of them. *)
Lemma classifier_ok (indexed : bool) (ra : list Dimension.t) :
  forall (rb : Spec) (acc : ExtractedSpecs.t),
    dims_sorted ra -> spec_sorted rb ->
    (forall e, In e rb -> exists d, In d ra /\ Dimension.name d = fst e) ->
    foldM (ExtractedSpecs.visitor indexed)
      (visit_ranges ExtractedSpecs.MyComp_dim_spec ExtractedSpecs.MyComp_spec_dim
         ra rb) acc
    = Ok (ExtractedSpecs.mk
            (ExtractedSpecs.dimensions acc ++ dims_of_kind indexed ra)
            (ExtractedSpecs.specs acc ++ pinned_specs indexed rb ra)).
Proof.
  induction ra as [|a ra IH]; intros rb acc Hra Hrb Hsub.
  - destruct rb as [|b rb].
    + simpl. rewrite !app_nil_r. now destruct acc.
    + destruct (Hsub b (or_introl eq_refl)) as (d & [] & _).
  - destruct rb as [|b rb].
    + rewrite visit_ranges_nil_r, foldM_firsts, pinned_specs_nil, app_nil_r.
      reflexivity.
    + inversion Hra as [|? ? Hra' Ha]; subst.
      inversion Hrb as [|? ? Hrb' Hb]; subst.
      rewrite Forall_forall in Ha, Hb. unfold name_lt in Ha, Hb.
      rewrite visit_ranges_cons.
      unfold ExtractedSpecs.MyComp_dim_spec, ExtractedSpecs.MyComp_spec_dim.
      unfold pinned_specs, dims_of_kind. cbn [flat_map filter].
      fold (pinned_specs indexed (b :: rb) ra). fold (dims_of_kind indexed ra).
      destruct (String.ltb (Dimension.name a) (fst b)) eqn:Hab.
      * assert (Hnot : forall e, In e (b :: rb) -> fst e <> Dimension.name a).
        { intros e [E|He] Heq.
          - subst e. rewrite Heq, ltb_irrefl in Hab. discriminate.
          - specialize (Hb e He). rewrite Heq in Hb.
            apply ltb_asym in Hab. congruence. }
        assert (Hsub' : forall e, In e (b :: rb) ->
                   exists d, In d ra /\ Dimension.name d = fst e).
        { intros e He. destruct (Hsub e He) as (d & [E|Hd] & Hn); [|eauto].
          subst d. exfalso. apply (Hnot e He). now symmetry. }
        rewrite (spec_lookup_none _ _ Hnot).
        cbn [foldM ExtractedSpecs.visitor].
        destruct (Bool.eqb (Dimension.is_indexed a) indexed); cbn [bind];
          rewrite IH by assumption; cbn [ExtractedSpecs.dimensions
                                         ExtractedSpecs.specs app];
          rewrite <- ?app_assoc; reflexivity.
      * destruct (String.ltb (fst b) (Dimension.name a)) eqn:Hba.
        -- exfalso. destruct (Hsub b (or_introl eq_refl)) as (d & [E|Hd] & Hn).
           ++ subst d. rewrite Hn, ltb_irrefl in Hab, Hba. discriminate.
           ++ specialize (Ha d Hd). rewrite Hn in Ha. congruence.
        -- pose proof (ltb_total _ _ Hab Hba) as Heq.
           assert (Hsub' : forall e, In e rb ->
                     exists d, In d ra /\ Dimension.name d = fst e).
           { intros e He. destruct (Hsub e (or_intror He)) as (d & [E|Hd] & Hn);
               [|eauto].
             subst d. exfalso. specialize (Hb e He).
             rewrite <- Hn, Heq, ltb_irrefl in Hb. discriminate. }
           rewrite (pinned_specs_skip indexed b rb ra).
           2:{ intros d Hd. rewrite <- Heq. apply ltb_neq. now apply Ha. }
           destruct b as [n m]. simpl in Heq. subst n.
           rewrite spec_lookup_head.
           cbn [foldM ExtractedSpecs.visitor fst snd].
           destruct (Bool.eqb (Dimension.is_indexed a) indexed); cbn [bind].
           ++ rewrite String.eqb_refl. cbn [assert bind].
              rewrite IH by assumption.
              cbn [ExtractedSpecs.dimensions ExtractedSpecs.specs app].
              rewrite <- !app_assoc. reflexivity.
           ++ rewrite IH by assumption. reflexivity.
Qed.

Lemma ExtractedSpecs_ctor_ok (indexed : bool) (dims : list Dimension.t)
  (spec : Spec) :
  dims_sorted dims -> spec_sorted spec ->
  (forall e, In e spec -> exists d, In d dims /\ Dimension.name d = fst e) ->
  ExtractedSpecs.ctor indexed dims spec
  = Ok (ExtractedSpecs.mk (dims_of_kind indexed dims)
          (pinned_specs indexed spec dims)).
Proof.
  intros Hd Hs Hsub. unfold ExtractedSpecs.ctor.
  now rewrite classifier_ok by assumption.
Qed.

Lemma In_pinned_specs (indexed : bool) (spec : Spec) (dims : list Dimension.t)
  (ds : DimSpec.t) :
  In ds (pinned_specs indexed spec dims) <->
  exists d, In d dims /\ Dimension.is_indexed d = indexed
            /\ DimSpec.name ds = Dimension.name d
            /\ spec_lookup (Dimension.name d) spec = Some (DimSpec.child_or_label ds).
Proof.
  unfold pinned_specs. rewrite in_flat_map. split.
  - intros (d & Hd & Hin). exists d. split; [exact Hd|].
    destruct (Bool.eqb (Dimension.is_indexed d) indexed) eqn:Hk; [|contradiction].
    apply Bool.eqb_prop in Hk.
    destruct (spec_lookup (Dimension.name d) spec) as [m|]; [|contradiction].
    destruct Hin as [E|[]]. subst ds. simpl. auto.
  - intros (d & Hd & Hk & Hn & Hl). exists d. split; [exact Hd|].
    rewrite Hk, Bool.eqb_reflx, Hl. left.
    destruct ds as [n m]. simpl in *. now subst n.
Qed.

(** C5. A specification entry naming no dimension of the input makes the
    classifier's merge pass abort, in either pass, and with it the
    construction of the plans. When every entry names an input dimension
    (type and map in name order) the pass for one kind ends without error
    and keeps exactly the entries whose dimension is of that kind: entries
    of dimensions of the other kind are skipped. *)
Theorem classifier_unknown_dimension (indexed : bool)
  (dims : list Dimension.t) (spec : Spec) :
  ((exists e, In e spec /\ ~ In (fst e) (map Dimension.name dims)) ->
   ExtractedSpecs.ctor indexed dims spec = Fatal Aborted
   /\ DensePlan.ctor dims spec = Fatal Aborted
   /\ forall res_type,
        PeekParam.ctor (ValueType.mk dims) res_type spec = Fatal Aborted)
  /\
  (dims_sorted dims -> spec_sorted spec ->
   (forall e, In e spec -> In (fst e) (map Dimension.name dims)) ->
   exists mine,
     ExtractedSpecs.ctor indexed dims spec = Ok mine
     /\ ExtractedSpecs.dimensions mine = dims_of_kind indexed dims
     /\ forall n m,
          In (DimSpec.mk n m) (ExtractedSpecs.specs mine) <->
          In (n, m) spec
          /\ exists d, In d dims /\ Dimension.name d = n
                       /\ Dimension.is_indexed d = indexed).
Proof.
  split.
  - intros (e & He & Habs).
    assert (Hall : forall k,
               ExtractedSpecs.ctor k dims spec = Fatal Aborted).
    { intros k. unfold ExtractedSpecs.ctor. apply classifier_aborts.
      exists e. split; [exact He|]. intros d Hd Hn. apply Habs.
      rewrite <- Hn. now apply in_map. }
    split; [apply Hall|]. split.
    + unfold DensePlan.ctor. now rewrite Hall.
    + intros res_type. unfold PeekParam.ctor, DensePlan.ctor.
      cbn [ValueType.dimensions]. now rewrite Hall.
  - intros Hd Hs Hsub.
    assert (Hsub' : forall e, In e spec ->
               exists d, In d dims /\ Dimension.name d = fst e).
    { intros e He. specialize (Hsub e He). apply in_map_iff in Hsub.
      destruct Hsub as (d & Hn & Hin). eauto. }
    eexists. split; [now apply ExtractedSpecs_ctor_ok|].
    cbn [ExtractedSpecs.dimensions ExtractedSpecs.specs].
    split; [reflexivity|]. intros n m. rewrite In_pinned_specs. simpl. split.
    + intros (d & Hin & Hk & Hn & Hl). subst n. split.
      * now apply spec_lookup_in.
      * eauto.
    + intros (Hin & d & Hdin & Hn & Hk). exists d. subst n.
      repeat split; try assumption. now apply spec_lookup_sorted.
Qed.

(** ** The dense plan's invariants *)

Lemma classifier_dimensions (indexed : bool) (ra : list Dimension.t) :
  forall (rb : Spec) (acc r : ExtractedSpecs.t),
    foldM (ExtractedSpecs.visitor indexed)
      (visit_ranges ExtractedSpecs.MyComp_dim_spec ExtractedSpecs.MyComp_spec_dim
         ra rb) acc = Ok r ->
    ExtractedSpecs.dimensions r
    = ExtractedSpecs.dimensions acc ++ dims_of_kind indexed ra.
Proof.
  induction ra as [|a ra IH]; intros rb acc r H.
  - destruct rb as [|b rb]; simpl in H; [|discriminate].
    inversion H. simpl. now rewrite app_nil_r.
  - destruct rb as [|b rb].
    + rewrite visit_ranges_nil_r, foldM_firsts in H. now inversion H.
    + rewrite visit_ranges_cons in H.
      unfold dims_of_kind. cbn [filter]. fold (dims_of_kind indexed ra).
      destruct (ExtractedSpecs.MyComp_dim_spec a b).
      * cbn [foldM ExtractedSpecs.visitor] in H.
        destruct (Bool.eqb (Dimension.is_indexed a) indexed); cbn [bind] in H;
          apply IH in H; rewrite H; cbn [ExtractedSpecs.dimensions];
          rewrite <- ?app_assoc; reflexivity.
      * destruct (ExtractedSpecs.MyComp_spec_dim b a); [discriminate H|].
        cbn [foldM ExtractedSpecs.visitor] in H.
        destruct (Bool.eqb (Dimension.is_indexed a) indexed); cbn [bind] in H.
        -- assert_ok H as E. apply IH in H. rewrite H.
           cbn [ExtractedSpecs.dimensions]. now rewrite <- app_assoc.
        -- now apply IH in H.
Qed.

Lemma ExtractedSpecs_dimensions (indexed : bool) (dims : list Dimension.t)
  (spec : Spec) (mine : ExtractedSpecs.t) :
  ExtractedSpecs.ctor indexed dims spec = Ok mine ->
  ExtractedSpecs.dimensions mine = dims_of_kind indexed dims.
Proof. intros H. now apply classifier_dimensions in H. Qed.

Lemma dims_of_kind_indexed (dims : list Dimension.t) :
  Forall (fun d => Dimension.is_indexed d = true) (dims_of_kind true dims).
Proof.
  apply Forall_forall. intros d Hd. apply filter_In in Hd.
  destruct Hd as [_ Hd]. now apply Bool.eqb_prop in Hd.
Qed.

Lemma indexed_sizes_of_kind (dims : list Dimension.t) :
  ValueType.indexed_sizes (dims_of_kind true dims) = ValueType.indexed_sizes dims.
Proof.
  induction dims as [|d dims IH]; [reflexivity|].
  unfold dims_of_kind. cbn [filter]. fold (dims_of_kind true dims).
  unfold Dimension.is_indexed. cbn [ValueType.indexed_sizes flat_map].
  destruct (Dimension.kind d) eqn:K; cbn [Bool.eqb].
  - cbn [ValueType.indexed_sizes flat_map]. rewrite K. cbn [app]. f_equal. exact IH.
  - exact IH.
Qed.

Lemma fill_exact (sizes : list Z) :
  Forall (fun n => 1 <= n) sizes ->
  list_product sizes < SizeT.modulus ->
  DenseSizes.fill sizes = (exact_strides sizes, list_product sizes).
Proof.
  induction 1 as [|s rest Hs Hrest IH]; intros Hfit; [reflexivity|].
  pose proof (list_product_pos rest Hrest) as Hpos.
  simpl in Hfit. cbn [DenseSizes.fill exact_strides].
  rewrite IH by nia. unfold SizeT.mul. rewrite wrap_small.
  - f_equal. simpl. ring.
  - simpl in *. nia.
Qed.

Lemma reach_cons (c s : Z) (l : list (Z * Z)) :
  reach ((c, s) :: l) = (c - 1) * s + reach l.
Proof. reflexivity. Qed.

Lemma reach_app (l1 l2 : list (Z * Z)) : reach (l1 ++ l2) = reach l1 + reach l2.
Proof.
  induction l1 as [|[c s] l1 IH]; [reflexivity|].
  cbn [app]. rewrite !reach_cons, IH. ring.
Qed.

Lemma reach_nonneg (l : list (Z * Z)) : good_pairs l -> 0 <= reach l.
Proof.
  induction 1 as [|[c s] l [Hc Hs] _ IH]; [reflexivity|].
  rewrite reach_cons. simpl in *. nia.
Qed.

Lemma reach_exact (sizes : list Z) :
  Forall (fun n => 1 <= n) sizes ->
  reach (combine sizes (exact_strides sizes)) = list_product sizes - 1.
Proof.
  induction 1 as [|s rest Hs Hrest IH]; [reflexivity|].
  cbn [exact_strides combine]. rewrite reach_cons, IH. simpl. ring.
Qed.

Lemma good_exact (sizes : list Z) :
  Forall (fun n => 1 <= n) sizes ->
  good_pairs (combine sizes (exact_strides sizes)).
Proof.
  induction 1 as [|s rest Hs Hrest IH]; [constructor|].
  cbn [exact_strides combine]. constructor; [|exact IH].
  pose proof (list_product_pos rest Hrest). simpl. lia.
Qed.

Lemma combine_snoc {A B : Type} (l1 : list A) (l2 : list B) (a : A) (b : B) :
  List.length l1 = List.length l2 ->
  combine (l1 ++ [a]) (l2 ++ [b]) = combine l1 l2 ++ [(a, b)].
Proof.
  revert l2. induction l1 as [|x l1 IH]; intros [|y l2] H; simpl in *;
    try discriminate; [reflexivity|].
  f_equal. apply IH. now inversion H.
Qed.

Lemma good_snoc (l : list (Z * Z)) (c s : Z) :
  good_pairs l -> 1 <= c -> 0 <= s -> good_pairs (l ++ [(c, s)]).
Proof.
  intros Hl Hc Hs. apply Forall_app. split; [exact Hl|].
  constructor; [simpl; lia | constructor].
Qed.

Lemma classify_inv (dims : list (Dimension.t * (Z * Z))) :
  forall (pos : list DimSpec.t) (p p' : DensePlan.t),
    DensePlan.classify dims pos p = Ok p' ->
    good_pairs (map snd dims) -> plan_good p ->
    plan_reach p + reach (map snd dims) < SizeT.modulus ->
    plan_good p'
    /\ plan_reach p' <= plan_reach p + reach (map snd dims)
    /\ DensePlan.in_dense_size p' = DensePlan.in_dense_size p
    /\ (forall c, In c (DensePlan.children p') ->
          In c (DensePlan.children p)
          \/ In (DensePlan.limit c, DensePlan.stride c) (map snd dims)).
Proof.
  induction dims as [|[dim [size_i stride_i]] rest IH]; intros pos p p' Hc Hg Hp Hb.
  - cbn [DensePlan.classify] in Hc. assert_ok Hc as E. inversion Hc; subst p'.
    cbn [map]. change (reach []) with 0. repeat split; try apply Hp; try lia.
    intros c Hin. now left.
  - cbn [map snd] in Hg, Hb |- *. inversion Hg as [|? ? [Hs Ht] Hg']; subst.
    cbn [fst snd] in Hs, Ht. rewrite reach_cons in Hb |- *.
    pose proof (reach_nonneg _ Hg') as Hrest.
    destruct Hp as (Hv & Hch & Hfr & Hlen).
    pose proof (reach_nonneg _ Hch) as Hrc. pose proof (reach_nonneg _ Hfr) as Hrf.
    assert (Hfree : forall pos0,
               DensePlan.classify rest pos0
                 (DensePlan.mk (DensePlan.in_dense_size p)
                    (SizeT.mul (DensePlan.out_dense_size p) size_i)
                    (DensePlan.loop_cnt p ++ [size_i])
                    (DensePlan.in_stride p ++ [stride_i])
                    (DensePlan.verbatim_offset p) (DensePlan.children p)) = Ok p' ->
               plan_good p'
               /\ plan_reach p' <= plan_reach p + ((size_i - 1) * stride_i + reach (map snd rest))
               /\ DensePlan.in_dense_size p' = DensePlan.in_dense_size p
               /\ (forall c, In c (DensePlan.children p') ->
                     In c (DensePlan.children p)
                     \/ In (DensePlan.limit c, DensePlan.stride c)
                          ((size_i, stride_i) :: map snd rest))).
    { intros pos0 H0. apply IH in H0; [| exact Hg' | |].
      - destruct H0 as (G & R & I & C). split; [exact G|].
        unfold plan_reach, free_pairs, child_pairs in R |- *.
        cbn [DensePlan.loop_cnt DensePlan.in_stride DensePlan.verbatim_offset
             DensePlan.children DensePlan.in_dense_size] in R, I, C.
        rewrite combine_snoc, reach_app, reach_cons in R by exact Hlen.
        change (reach []) with 0 in R. repeat split; [lia | exact I |].
        intros c Hin. destruct (C c Hin) as [|]; [now left | right; now right].
      - unfold plan_good, free_pairs, child_pairs.
        cbn [DensePlan.loop_cnt DensePlan.in_stride DensePlan.verbatim_offset
             DensePlan.children].
        rewrite combine_snoc by exact Hlen. repeat split; try assumption.
        + now apply good_snoc.
        + rewrite !length_app. simpl. lia.
      - unfold plan_reach, free_pairs, child_pairs in Hb |- *.
        cbn [DensePlan.loop_cnt DensePlan.in_stride DensePlan.verbatim_offset
             DensePlan.children].
        rewrite combine_snoc, reach_app, reach_cons by exact Hlen.
        change (reach []) with 0. lia. }
    cbn [DensePlan.classify] in Hc.
    destruct pos as [|here pos']; [now apply Hfree in Hc|].
    destruct (String.ltb (Dimension.name dim) (DimSpec.name here));
      [now apply Hfree in Hc|].
    assert_ok Hc as E0. destruct (DimSpec.has_child here).
    + bind_ok Hc as E1. apply IH in Hc; [| exact Hg' | |].
      * destruct Hc as (G & R & I & C). split; [exact G|].
        unfold plan_reach, free_pairs, child_pairs in R |- *.
        cbn [DensePlan.loop_cnt DensePlan.in_stride DensePlan.verbatim_offset
             DensePlan.children DensePlan.in_dense_size] in R, I, C.
        rewrite map_app, reach_app in R. cbn [map] in R.
        cbn [DensePlan.limit DensePlan.stride] in R. rewrite reach_cons in R.
        change (reach []) with 0 in R. repeat split; [lia | exact I |].
        intros c Hin. destruct (C c Hin) as [Hc'|]; [| right; now right].
        apply in_app_or in Hc'. destruct Hc' as [|[E|[]]]; [now left|].
        subst c. right. now left.
      * unfold plan_good, free_pairs, child_pairs.
        cbn [DensePlan.loop_cnt DensePlan.in_stride DensePlan.verbatim_offset
             DensePlan.children].
        rewrite map_app. cbn [map DensePlan.limit DensePlan.stride].
        repeat split; try assumption. now apply good_snoc.
      * unfold plan_reach, free_pairs, child_pairs in Hb |- *.
        cbn [DensePlan.loop_cnt DensePlan.in_stride DensePlan.verbatim_offset
             DensePlan.children].
        rewrite map_app, reach_app. cbn [map DensePlan.limit DensePlan.stride].
        rewrite reach_cons. change (reach []) with 0. lia.
    + assert_ok Hc as E3. bind_ok Hc as E1. assert_ok Hc as E2.
      apply Z.ltb_lt in E2.
      assert (Ha : 0 <= a).
      { unfold DimSpec.get_label_index in E1.
        destruct (DimSpec.child_or_label here) as [|[|i]]; try discriminate.
        inversion E1. lia. }
      assert (Hprod : 0 <= a * stride_i <= (size_i - 1) * stride_i) by nia.
      assert (Hnew : SizeT.add (DensePlan.verbatim_offset p) (SizeT.mul a stride_i)
                     = DensePlan.verbatim_offset p + a * stride_i).
      { unfold plan_reach in Hb. unfold SizeT.add, SizeT.mul.
        rewrite (wrap_small (a * stride_i)) by lia. apply wrap_small. lia. }
      rewrite Hnew in Hc. apply IH in Hc; [| exact Hg' | |].
      * destruct Hc as (G & R & I & C). split; [exact G|].
        unfold plan_reach, free_pairs, child_pairs in R |- *.
        cbn [DensePlan.loop_cnt DensePlan.in_stride DensePlan.verbatim_offset
             DensePlan.children DensePlan.in_dense_size] in R, I, C.
        repeat split; [lia | exact I |].
        intros c Hin. destruct (C c Hin) as [|]; [now left | right; now right].
      * unfold plan_good, free_pairs, child_pairs.
        cbn [DensePlan.loop_cnt DensePlan.in_stride DensePlan.verbatim_offset
             DensePlan.children].
        repeat split; try assumption. lia.
      * unfold plan_reach, free_pairs, child_pairs in Hb |- *.
        cbn [DensePlan.loop_cnt DensePlan.in_stride DensePlan.verbatim_offset
             DensePlan.children]. lia.
Qed.

Lemma map_snd_combine_eq {A B : Type} (l1 : list A) (l2 : list B) :
  List.length l1 = List.length l2 -> map snd (combine l1 l2) = l2.
Proof.
  revert l2. induction l1 as [|x l1 IH]; intros [|y l2] H; simpl in *;
    try discriminate; [reflexivity|].
  f_equal. apply IH. now inversion H.
Qed.

Lemma exact_strides_length (sizes : list Z) :
  List.length (exact_strides sizes) = List.length sizes.
Proof. induction sizes as [|s rest IH]; simpl; [reflexivity | now rewrite IH]. Qed.

Lemma list_product_in (l : list Z) (x : Z) :
  Forall (fun n => 1 <= n) l -> In x l -> 1 <= x <= list_product l.
Proof.
  induction 1 as [|y l Hy Hl IH]; intros Hin; [contradiction|].
  pose proof (list_product_pos l Hl) as Hpos. simpl.
  destruct Hin as [E|Hin].
  - subst y. nia.
  - specialize (IH Hin). nia.
Qed.

(** What construction establishes for an addressable dense block: the
    plan's sizes are exact and every offset it can produce stays inside the
    block. *)
Lemma DensePlan_ctor_inv (dims : list Dimension.t) (spec : Spec)
  (p : DensePlan.t) :
  dense_addressable dims ->
  DensePlan.ctor dims spec = Ok p ->
  plan_good p
  /\ plan_reach p < DensePlan.in_dense_size p
  /\ DensePlan.in_dense_size p = list_product (ValueType.indexed_sizes dims)
  /\ (forall c, In c (DensePlan.children p) ->
        1 <= DensePlan.limit c <= DensePlan.in_dense_size p).
Proof.
  intros [Hpos Hfit] H. unfold Int64.max_value in Hfit.
  set (sizes := ValueType.indexed_sizes dims) in *.
  assert (Hmod : list_product sizes < SizeT.modulus) by (rewrite modulus_eq; lia).
  unfold DensePlan.ctor in H. bind_ok H as Em.
  apply ExtractedSpecs_dimensions in Em. rewrite Em in H.
  rewrite DenseSizes_ctor_indexed in H by apply dims_of_kind_indexed.
  rewrite indexed_sizes_of_kind in H. fold sizes in H.
  rewrite (fill_exact sizes Hpos Hmod) in H.
  cbn [bind fst snd DenseSizes.size DenseSizes.stride DenseSizes.cur_size] in H.
  assert (Hlen : List.length (dims_of_kind true dims)
                 = List.length (combine sizes (exact_strides sizes))).
  { rewrite length_combine, exact_strides_length, Nat.min_id.
    unfold sizes. rewrite <- indexed_sizes_of_kind.
    symmetry. apply indexed_sizes_length, dims_of_kind_indexed. }
  apply classify_inv in H.
  - rewrite (map_snd_combine_eq _ _ Hlen) in H.
    destruct H as (G & R & I & C).
    cbn [DensePlan.in_dense_size DensePlan.children] in I, C.
    rewrite reach_exact in R by exact Hpos.
    unfold plan_reach at 2 in R. cbn in R.
    rewrite I. repeat split; try apply G; try lia.
    + destruct (C c H) as [[]|Hin]. apply in_combine_l in Hin.
      apply (list_product_in sizes _ Hpos Hin).
    + destruct (C c H) as [[]|Hin]. apply in_combine_l in Hin.
      apply (list_product_in sizes _ Hpos Hin).
  - rewrite (map_snd_combine_eq _ _ Hlen). now apply good_exact.
  - repeat split; try constructor. reflexivity.
  - rewrite (map_snd_combine_eq _ _ Hlen), reach_exact by exact Hpos.
    unfold plan_reach. cbn. lia.
Qed.

(** ** Runtime offset resolution *)

Lemma to_size_t_in_range (v limit : Z) :
  Int64.in_range v -> limit <= 2 ^ 63 ->
  (Int64.to_size_t v <? limit) = true <-> 0 <= v < limit.
Proof.
  unfold Int64.in_range, Int64.min_value, Int64.max_value, Int64.to_size_t.
  intros Hv Hl. rewrite Z.ltb_lt. unfold SizeT.wrap. rewrite modulus_eq.
  destruct (Z_lt_dec v 0) as [Hneg|Hnn].
  - replace v with (v + 18446744073709551616 - 1 * 18446744073709551616) by ring.
    rewrite Zminus_mod, Z_mod_mult, Z.sub_0_r, Z.mod_mod by lia.
    rewrite Z.mod_small by lia. lia.
  - rewrite Z.mod_small by lia. lia.
Qed.

Lemma to_size_t_small (v : Z) :
  0 <= v < SizeT.modulus -> Int64.to_size_t v = v.
Proof. apply wrap_small. Qed.

Lemma child_sum_bounds (cs : list DensePlan.Child) (values : Z -> Z) :
  good_pairs (map (fun c => (DensePlan.limit c, DensePlan.stride c)) cs) ->
  Forall (child_in_range values) cs ->
  0 <= child_sum cs values
       <= reach (map (fun c => (DensePlan.limit c, DensePlan.stride c)) cs).
Proof.
  induction cs as [|c cs IH]; intros Hg Hin; [cbn; lia|].
  inversion Hg as [|? ? [Hl Hs] Hg']; subst.
  inversion Hin as [|? ? Hc Hin']; subst.
  specialize (IH Hg' Hin'). cbn [map child_sum fold_right] in *.
  rewrite reach_cons. unfold child_in_range in Hc. simpl in Hl, Hs.
  fold (child_sum cs values). nia.
Qed.

Lemma get_offset_from_in_range (values : Z -> Z) (cs : list DensePlan.Child) :
  forall offset,
    good_pairs (map (fun c => (DensePlan.limit c, DensePlan.stride c)) cs) ->
    Forall (child_in_range values) cs ->
    0 <= offset ->
    offset + reach (map (fun c => (DensePlan.limit c, DensePlan.stride c)) cs)
      < SizeT.modulus ->
    Forall (fun c => DensePlan.limit c <= SizeT.modulus) cs ->
    DensePlan.get_offset_from cs (source values) offset
    = Ok (offset + child_sum cs values).
Proof.
  induction cs as [|c cs IH]; intros offset Hg Hin Ho Hb Hlim.
  - cbn. f_equal. lia.
  - inversion Hg as [|? ? [Hl Hs] Hg']; subst.
    inversion Hin as [|? ? Hc Hin']; subst.
    inversion Hlim as [|? ? Hlc Hlim']; subst.
    pose proof (child_sum_bounds cs values Hg' Hin') as Hsum.
    pose proof (reach_nonneg _ Hg') as Hr.
    cbn [map] in Hb. rewrite reach_cons in Hb.
    unfold child_in_range in Hc. simpl in Hl, Hs.
    cbn [DensePlan.get_offset_from source bind].
    rewrite to_size_t_small by lia.
    destruct (Z.ltb_spec (values (DensePlan.idx c)) (DensePlan.limit c)); [|lia].
    assert (Hp : 0 <= values (DensePlan.idx c) * DensePlan.stride c
                 <= (DensePlan.limit c - 1) * DensePlan.stride c) by nia.
    unfold SizeT.add, SizeT.mul.
    rewrite (wrap_small (values (DensePlan.idx c) * DensePlan.stride c)) by lia.
    rewrite wrap_small by lia.
    rewrite IH; try assumption; try lia.
    f_equal. cbn [child_sum fold_right]. fold (child_sum cs values). ring.
Qed.

Lemma get_offset_from_out (values : Z -> Z) (cs : list DensePlan.Child) :
  int64_source values ->
  Forall (fun c => DensePlan.limit c <= 2 ^ 63) cs ->
  Exists (fun c => ~ child_in_range values c) cs ->
  forall offset,
    DensePlan.get_offset_from cs (source values) offset = Ok SizeT.npos.
Proof.
  intros Hsrc Hlim Hex.
  induction Hex as [c cs Hout | c cs Hex IH]; intros offset;
    inversion Hlim as [|? ? Hlc Hlim']; subst;
    cbn [DensePlan.get_offset_from source bind].
  - destruct (Int64.to_size_t (values (DensePlan.idx c)) <? DensePlan.limit c)
      eqn:E; [|reflexivity].
    apply to_size_t_in_range in E; [contradiction | apply Hsrc | exact Hlc].
  - destruct (Int64.to_size_t (values (DensePlan.idx c)) <? DensePlan.limit c);
      [now apply IH | reflexivity].
Qed.

(** In-range children of a constructed plan: the offset is the exact sum
    and lies inside the dense block, with room for the free dimensions. *)
Lemma get_offset_in_block (dims : list Dimension.t) (spec : Spec)
  (p : DensePlan.t) (values : Z -> Z) :
  dense_addressable dims ->
  DensePlan.ctor dims spec = Ok p ->
  Forall (child_in_range values) (DensePlan.children p) ->
  DensePlan.get_offset p (source values)
  = Ok (DensePlan.verbatim_offset p + child_sum (DensePlan.children p) values)
  /\ 0 <= DensePlan.verbatim_offset p + child_sum (DensePlan.children p) values
  /\ DensePlan.verbatim_offset p + child_sum (DensePlan.children p) values
     + reach (free_pairs p) < DensePlan.in_dense_size p.
Proof.
  intros Hadd Hctor Hin.
  destruct (DensePlan_ctor_inv dims spec p Hadd Hctor) as (G & R & I & C).
  destruct Hadd as [Hpos Hfit]. unfold Int64.max_value in Hfit.
  destruct G as (Hv & Hch & Hfr & Hlen).
  pose proof (child_sum_bounds _ values Hch Hin) as Hsum.
  pose proof (reach_nonneg _ Hfr) as Hrf.
  unfold plan_reach, child_pairs in R. rewrite I in R.
  split; [|lia].
  unfold DensePlan.get_offset. apply get_offset_from_in_range; try assumption.
  - rewrite modulus_eq. lia.
  - apply Forall_forall. intros c Hc. specialize (C c Hc).
    rewrite modulus_eq. lia.
Qed.


(** ** The nested loop stays inside the dense block *)

Lemma run_nested_loop_bounds (loop : list (Z * Z)) :
  forall idx i,
    good_pairs loop -> 0 <= idx -> idx + reach loop < SizeT.modulus ->
    In i (run_nested_loop idx loop) -> idx <= i <= idx + reach loop.
Proof.
  induction loop as [|[cnt stride] inner IH]; intros idx i Hg H0 Hb Hin.
  - destruct Hin as [E|[]]. subst i. change (reach []) with 0. lia.
  - inversion Hg as [|? ? [Hc Hs] Hg']; subst. simpl in Hc, Hs.
    rewrite reach_cons in Hb |- *.
    pose proof (reach_nonneg _ Hg') as Hr.
    cbn [run_nested_loop] in Hin. apply in_flat_map in Hin.
    destruct Hin as (k & Hk & Hin). apply in_seq in Hk.
    assert (Hkz : 0 <= Z.of_nat k <= cnt - 1) by lia.
    assert (Hp : 0 <= Z.of_nat k * stride <= (cnt - 1) * stride) by nia.
    unfold SizeT.add, SizeT.mul in Hin.
    rewrite (wrap_small (Z.of_nat k * stride)) in Hin by lia.
    rewrite wrap_small in Hin by lia.
    apply IH in Hin; try assumption; lia.
Qed.

Lemma run_nested_loop_length (loop : list (Z * Z)) :
  forall idx,
    Z.of_nat (List.length (run_nested_loop idx loop))
    = list_product (map (fun cs => Z.max 0 (fst cs)) loop).
Proof.
  induction loop as [|[cnt stride] inner IH]; intros idx; [reflexivity|].
  cbn [run_nested_loop map list_product fold_right fst].
  fold (list_product (map (fun cs => Z.max 0 (fst cs)) inner)).
  assert (H : forall (n start : nat),
             Z.of_nat (List.length
               (flat_map (fun i => run_nested_loop
                            (SizeT.add idx (SizeT.mul (Z.of_nat i) stride)) inner)
                  (seq start n)))
             = Z.of_nat n * list_product (map (fun cs => Z.max 0 (fst cs)) inner)).
  { induction n as [|n IHn]; intros start; [reflexivity|].
    cbn [seq flat_map]. rewrite length_app, Nat2Z.inj_add, IH, IHn. lia. }
  rewrite H. f_equal. lia.
Qed.

Lemma children_in_range_dec (values : Z -> Z) (cs : list DensePlan.Child) :
  Forall (child_in_range values) cs
  \/ Exists (fun c => ~ child_in_range values c) cs.
Proof.
  induction cs as [|c cs IH]; [left; constructor|].
  assert (D : child_in_range values c \/ ~ child_in_range values c)
    by (unfold child_in_range; lia).
  destruct D as [Hc|Hc]; [|right; now constructor].
  destruct IH as [IH|IH]; [left; now constructor | right; now constructor].
Qed.


(** ** Construction for well-typed inputs *)

Lemma sorted_filter {A : Type} (R : A -> A -> Prop) (f : A -> bool)
  (l : list A) :
  StronglySorted R l -> StronglySorted R (filter f l).
Proof.
  induction 1 as [|a l Hs IH Hall]; [constructor|].
  cbn [filter]. destruct (f a); [|exact IH].
  constructor; [exact IH|].
  apply Forall_forall. intros x Hx. apply filter_In in Hx.
  rewrite Forall_forall in Hall. now apply Hall.
Qed.

Lemma dims_sorted_of_kind (indexed : bool) (dims : list Dimension.t) :
  dims_sorted dims -> dims_sorted (dims_of_kind indexed dims).
Proof. apply sorted_filter. Qed.

Lemma dims_sorted_unique (dims : list Dimension.t) (d d' : Dimension.t) :
  dims_sorted dims -> In d dims -> In d' dims ->
  Dimension.name d = Dimension.name d' -> d = d'.
Proof.
  induction 1 as [|a l Hs IH Hall]; intros Hd Hd' Hn; [contradiction|].
  rewrite Forall_forall in Hall. unfold name_lt in Hall.
  destruct Hd as [E|Hd], Hd' as [E'|Hd']; subst.
  - reflexivity.
  - specialize (Hall d' Hd'). rewrite Hn, ltb_irrefl in Hall. discriminate.
  - specialize (Hall d Hd). rewrite Hn, ltb_irrefl in Hall. discriminate.
  - now apply IH.
Qed.

Lemma pinned_specs_of_kind (indexed : bool) (spec : Spec)
  (dims : list Dimension.t) :
  pinned_specs indexed spec (dims_of_kind indexed dims)
  = pinned_specs indexed spec dims.
Proof.
  unfold pinned_specs, dims_of_kind.
  induction dims as [|d dims IH]; [reflexivity|].
  cbn [filter flat_map].
  destruct (Bool.eqb (Dimension.is_indexed d) indexed) eqn:K.
  - cbn [flat_map]. rewrite K, IH. reflexivity.
  - exact IH.
Qed.

Lemma map_fst_combine_eq {A B : Type} (l1 : list A) (l2 : list B) :
  List.length l1 = List.length l2 -> map fst (combine l1 l2) = l1.
Proof.
  revert l2. induction l1 as [|x l1 IH]; intros [|y l2] H; simpl in *;
    try discriminate; [reflexivity|].
  f_equal. apply IH. now inversion H.
Qed.

Lemma pinned_specs_cons (indexed : bool) (spec : Spec) (d : Dimension.t)
  (dims : list Dimension.t) :
  pinned_specs indexed spec (d :: dims)
  = (if Bool.eqb (Dimension.is_indexed d) indexed then
       match spec_lookup (Dimension.name d) spec with
       | Some m => [DimSpec.mk (Dimension.name d) m]
       | None => []
       end
     else []) ++ pinned_specs indexed spec dims.
Proof. reflexivity. Qed.

Lemma pinned_specs_after (indexed : bool) (spec : Spec) (d : Dimension.t)
  (dims : list Dimension.t) (here : DimSpec.t) :
  dims_sorted (d :: dims) ->
  In here (pinned_specs indexed spec dims) ->
  String.ltb (Dimension.name d) (DimSpec.name here) = true.
Proof.
  intros Hs Hin. apply In_pinned_specs in Hin.
  destruct Hin as (d' & Hd' & _ & Hn & _). rewrite Hn.
  inversion Hs as [|? ? _ Hall]; subst. rewrite Forall_forall in Hall.
  now apply Hall.
Qed.

(** The dense loop, in step with the specification. *)
Lemma classify_lookup (spec : Spec) (zdims : list (Dimension.t * (Z * Z))) :
  forall p,
    dims_sorted (map fst zdims) ->
    Forall (fun d => Dimension.is_indexed d = true) (map fst zdims) ->
    Forall (dense_entry_ok spec) zdims ->
    DensePlan.classify zdims (pinned_specs true spec (map fst zdims)) p
    = Ok (dense_roles spec zdims p).
Proof.
  induction zdims as [|[d [size_i stride_i]] rest IH]; intros p Hs Hk Hok.
  - reflexivity.
  - cbn [map fst] in Hs, Hk |- *.
    inversion Hk as [|? ? Hd Hk']; subst.
    inversion Hok as [|? ? Hz Hok']; subst.
    assert (Hs' : dims_sorted (map fst rest)) by now inversion Hs.
    rewrite pinned_specs_cons, Hd. cbn [Bool.eqb].
    change (dense_roles spec ((d, (size_i, stride_i)) :: rest) p)
      with (dense_roles spec rest (dense_step spec p (d, (size_i, stride_i)))).
    unfold dense_entry_ok in Hz. unfold dense_step. cbn [fst snd] in Hz |- *.
    destruct (spec_lookup (Dimension.name d) spec) as [m|] eqn:L.
    + cbn [app DensePlan.classify DimSpec.name].
      rewrite ltb_irrefl, String.eqb_refl. cbn [assert bind].
      unfold DimSpec.has_child, DimSpec.has_label, DimSpec.get_child_idx,
        DimSpec.get_label_index. cbn [DimSpec.child_or_label].
      destruct m as [c|[n|i]]; cbn [holds_child negb assert bind].
      * now apply IH.
      * contradiction.
      * apply Z.ltb_lt in Hz. rewrite Hz. cbn [assert bind]. now apply IH.
    + cbn [app DensePlan.classify].
      destruct (pinned_specs true spec (map fst rest)) as [|here pos'] eqn:P.
      * now apply IH.
      * rewrite (pinned_specs_after true spec d (map fst rest) here Hs)
          by (rewrite P; now left).
        now apply IH.
Qed.

Lemma dense_roles_app (spec : Spec) (z1 z2 : list (Dimension.t * (Z * Z)))
  (p : DensePlan.t) :
  dense_roles spec (z1 ++ z2) p = dense_roles spec z2 (dense_roles spec z1 p).
Proof. apply fold_left_app. Qed.

(** The sparse loop, in step with the specification. *)
Lemma sparse_classify_lookup (spec : Spec) (dims : list Dimension.t) :
  forall dim_idx out view,
    dims_sorted dims ->
    Forall (fun d => Dimension.is_indexed d = false) dims ->
    SparsePlan.classify dims dim_idx (pinned_specs false spec dims) out view
    = Ok (snd (sparse_roles spec dims (dim_idx, (out, view)))).
Proof.
  induction dims as [|d rest IH]; intros dim_idx out view Hs Hk.
  - reflexivity.
  - inversion Hk as [|? ? Hd Hk']; subst.
    assert (Hs' : dims_sorted rest) by now inversion Hs.
    rewrite pinned_specs_cons, Hd. cbn [Bool.eqb].
    change (sparse_roles spec (d :: rest) (dim_idx, (out, view)))
      with (sparse_roles spec rest (sparse_step spec (dim_idx, (out, view)) d)).
    unfold sparse_step, pinned_by. cbn [fst snd].
    destruct (spec_lookup (Dimension.name d) spec) as [m|] eqn:L.
    + cbn [app SparsePlan.classify DimSpec.name].
      rewrite ltb_irrefl, String.eqb_refl. cbn [assert bind]. now apply IH.
    + cbn [app SparsePlan.classify].
      destruct (pinned_specs false spec rest) as [|here pos'] eqn:P.
      * now apply IH.
      * rewrite (pinned_specs_after false spec d rest here Hs)
          by (rewrite P; now left).
        now apply IH.
Qed.

Lemma dims_of_kind_mapped (dims : list Dimension.t) :
  Forall (fun d => Dimension.is_indexed d = false) (dims_of_kind false dims).
Proof.
  apply Forall_forall. intros d Hd. apply filter_In in Hd.
  destruct Hd as [_ Hd]. now apply Bool.eqb_prop in Hd.
Qed.

Lemma spec_fits_names (dims : list Dimension.t) (spec : Spec) :
  spec_fits dims spec ->
  forall e, In e spec -> exists d, In d dims /\ Dimension.name d = fst e.
Proof.
  intros Hf e He. destruct (Hf e He) as (d & Hd & Hn & _). eauto.
Qed.

Lemma SparsePlan_ctor_sorted (dims : list Dimension.t) (spec : Spec) :
  dims_sorted dims -> spec_sorted spec -> spec_fits dims spec ->
  SparsePlan.ctor dims spec
  = Ok (SparsePlan.mk
          (fst (snd (sparse_roles spec (dims_of_kind false dims) (0, (0, [])))))
          (pinned_specs false spec dims)
          (snd (snd (sparse_roles spec (dims_of_kind false dims) (0, (0, [])))))).
Proof.
  intros Hd Hs Hf. unfold SparsePlan.ctor.
  rewrite ExtractedSpecs_ctor_ok by (try assumption; now apply spec_fits_names).
  cbn [bind ExtractedSpecs.dimensions ExtractedSpecs.specs].
  rewrite <- (pinned_specs_of_kind false spec dims) at 1.
  rewrite sparse_classify_lookup
    by (try apply dims_of_kind_mapped; now apply dims_sorted_of_kind).
  reflexivity.
Qed.

Lemma zip_kind (idims : list Dimension.t) :
  forall (strides : list Z) d size_i stride_i,
    Forall (fun d => Dimension.is_indexed d = true) idims ->
    In (d, (size_i, stride_i))
       (combine idims (combine (ValueType.indexed_sizes idims) strides)) ->
    Dimension.kind d = Dimension.Indexed size_i.
Proof.
  induction idims as [|d0 rest IH]; intros strides d size_i stride_i Hk Hin;
    [contradiction|].
  inversion Hk as [|? ? Hd Hk']; subst. unfold Dimension.is_indexed in Hd.
  cbn [ValueType.indexed_sizes flat_map] in Hin.
  destruct (Dimension.kind d0) as [n|] eqn:K; [|discriminate].
  cbn [app] in Hin. destruct strides as [|s ss]; [contradiction|].
  cbn [combine] in Hin. destruct Hin as [E|Hin].
  - inversion E; subst. exact K.
  - now apply (IH ss d size_i stride_i).
Qed.

Lemma dense_zip_fst (dims : list Dimension.t) :
  map fst (dense_zip dims) = dims_of_kind true dims.
Proof.
  unfold dense_zip. apply map_fst_combine_eq.
  rewrite length_combine, fill_length, Nat.min_id.
  rewrite <- indexed_sizes_of_kind.
  symmetry. apply indexed_sizes_length, dims_of_kind_indexed.
Qed.

Lemma dense_zip_ok (dims : list Dimension.t) (spec : Spec) :
  dims_sorted dims -> spec_fits dims spec ->
  Forall (dense_entry_ok spec) (dense_zip dims).
Proof.
  intros Hs Hf. apply Forall_forall. intros [d [size_i stride_i]] Hin.
  assert (Hd : In d dims).
  { apply in_combine_l in Hin. apply filter_In in Hin. apply Hin. }
  unfold dense_zip in Hin. rewrite <- indexed_sizes_of_kind in Hin.
  apply zip_kind in Hin; [|apply dims_of_kind_indexed].
  unfold dense_entry_ok. cbn [fst snd].
  destruct (spec_lookup (Dimension.name d) spec) as [m|] eqn:L; [|exact I].
  apply spec_lookup_in in L. destruct (Hf _ L) as (d' & Hd' & Hn & Hfit).
  cbn [fst snd] in Hn, Hfit.
  assert (d' = d) by (now apply (dims_sorted_unique dims)). subst d'.
  unfold entry_fits in Hfit. rewrite Hin in Hfit.
  destruct m as [c|[n|i]]; auto.
Qed.

Lemma DensePlan_ctor_sorted (dims : list Dimension.t) (spec : Spec) :
  dims_sorted dims -> spec_sorted spec -> spec_fits dims spec ->
  DensePlan.ctor dims spec
  = Ok (dense_roles spec (dense_zip dims) (dense_init dims)).
Proof.
  intros Hd Hs Hf. unfold DensePlan.ctor.
  rewrite ExtractedSpecs_ctor_ok by (try assumption; now apply spec_fits_names).
  cbn [bind ExtractedSpecs.dimensions ExtractedSpecs.specs].
  rewrite DenseSizes_ctor_indexed by apply dims_of_kind_indexed.
  rewrite indexed_sizes_of_kind.
  cbn [bind DenseSizes.size DenseSizes.stride DenseSizes.cur_size].
  fold (dense_zip dims). fold (dense_init dims).
  rewrite <- (pinned_specs_of_kind true spec dims), <- dense_zip_fst.
  apply classify_lookup.
  - rewrite dense_zip_fst. now apply dims_sorted_of_kind.
  - rewrite dense_zip_fst. apply dims_of_kind_indexed.
  - now apply dense_zip_ok.
Qed.

Lemma dense_roles_cons (spec : Spec) (z : Dimension.t * (Z * Z))
  (rest : list (Dimension.t * (Z * Z))) (p : DensePlan.t) :
  dense_roles spec (z :: rest) p = dense_roles spec rest (dense_step spec p z).
Proof. reflexivity. Qed.

Lemma dense_roles_in_dense_size (spec : Spec)
  (zdims : list (Dimension.t * (Z * Z))) :
  forall p, DensePlan.in_dense_size (dense_roles spec zdims p)
            = DensePlan.in_dense_size p.
Proof.
  induction zdims as [|z rest IH]; intros p; [reflexivity|].
  rewrite dense_roles_cons, IH. unfold dense_step.
  destruct (spec_lookup (Dimension.name (fst z)) spec) as [[c|[n|i]]|];
    reflexivity.
Qed.

Lemma dense_roles_free (spec : Spec) (zdims : list (Dimension.t * (Z * Z))) :
  forall p,
    DensePlan.loop_cnt (dense_roles spec zdims p)
    = DensePlan.loop_cnt p ++ free_sizes spec zdims
    /\ DensePlan.out_dense_size (dense_roles spec zdims p)
       = fold_left SizeT.mul (free_sizes spec zdims) (DensePlan.out_dense_size p).
Proof.
  unfold free_sizes.
  induction zdims as [|z rest IH]; intros p.
  - cbn. now rewrite app_nil_r.
  - rewrite dense_roles_cons. destruct (IH (dense_step spec p z)) as [IH1 IH2].
    rewrite IH1, IH2. cbn [filter]. unfold unpinned, pinned_by, dense_step.
    destruct (spec_lookup (Dimension.name (fst z)) spec) as [[c|[n|i]]|];
      cbn [negb map fold_left DensePlan.loop_cnt DensePlan.out_dense_size];
      try (split; reflexivity).
    split; [now rewrite <- app_assoc | reflexivity].
Qed.

Lemma zip_free_sizes (spec : Spec) (idims : list Dimension.t) :
  forall strides,
    Forall (fun d => Dimension.is_indexed d = true) idims ->
    List.length strides = List.length idims ->
    free_sizes spec (combine idims (combine (ValueType.indexed_sizes idims) strides))
    = ValueType.indexed_sizes (filter (unpinned spec) idims).
Proof.
  unfold free_sizes.
  induction idims as [|d rest IH]; intros strides Hk Hl; [reflexivity|].
  inversion Hk as [|? ? Hd Hk']; subst. unfold Dimension.is_indexed in Hd.
  destruct strides as [|s ss]; [discriminate|].
  cbn [ValueType.indexed_sizes flat_map].
  destruct (Dimension.kind d) as [n|] eqn:K; [|discriminate].
  cbn [app combine filter fst]. fold (ValueType.indexed_sizes rest).
  destruct (unpinned spec d).
  - cbn [map fst snd ValueType.indexed_sizes flat_map]. rewrite K. cbn [app].
    f_equal. apply IH; [exact Hk' | now inversion Hl].
  - apply IH; [exact Hk' | now inversion Hl].
Qed.

Lemma indexed_sizes_filter_of_kind (f : Dimension.t -> bool)
  (dims : list Dimension.t) :
  ValueType.indexed_sizes (filter f (dims_of_kind true dims))
  = ValueType.indexed_sizes (filter f dims).
Proof.
  unfold dims_of_kind. induction dims as [|d dims IH]; [reflexivity|].
  cbn [filter]. unfold Dimension.is_indexed at 1.
  destruct (Dimension.kind d) eqn:K; cbn [Bool.eqb].
  - cbn [filter]. destruct (f d); [|exact IH].
    cbn [ValueType.indexed_sizes flat_map]. rewrite K. cbn [app]. f_equal. exact IH.
  - destruct (f d); [|exact IH].
    cbn [ValueType.indexed_sizes flat_map]. rewrite K. exact IH.
Qed.

Lemma dense_zip_free_sizes (spec : Spec) (dims : list Dimension.t) :
  free_sizes spec (dense_zip dims)
  = ValueType.indexed_sizes (peek_result_dims dims spec).
Proof.
  unfold dense_zip. rewrite <- (indexed_sizes_of_kind dims) at 1.
  rewrite zip_free_sizes.
  - apply indexed_sizes_filter_of_kind.
  - apply dims_of_kind_indexed.
  - rewrite fill_length, <- indexed_sizes_of_kind.
    apply indexed_sizes_length, dims_of_kind_indexed.
Qed.

Lemma indexed_sizes_filter_bounds (f : Dimension.t -> bool)
  (dims : list Dimension.t) :
  Forall (fun n => 1 <= n) (ValueType.indexed_sizes dims) ->
  Forall (fun n => 1 <= n) (ValueType.indexed_sizes (filter f dims))
  /\ 1 <= list_product (ValueType.indexed_sizes (filter f dims))
       <= list_product (ValueType.indexed_sizes dims).
Proof.
  induction dims as [|d dims IH]; intros H; [cbn; split; [constructor | lia]|].
  cbn [ValueType.indexed_sizes flat_map] in H |- *.
  fold (ValueType.indexed_sizes dims) in H |- *.
  apply Forall_app in H. destruct H as [Hd H]. destruct (IH H) as [IH1 IH2].
  rewrite list_product_app. cbn [filter].
  destruct (f d).
  - cbn [ValueType.indexed_sizes flat_map].
    fold (ValueType.indexed_sizes (filter f dims)).
    rewrite list_product_app. pose proof (list_product_pos _ Hd).
    split; [apply Forall_app; now split | nia].
  - pose proof (list_product_pos _ Hd). split; [exact IH1 | nia].
Qed.

(** C3. For a well-typed triple the constructors run to their end; the free
    dimensions' loop counts are the sizes of the result's indexed
    dimensions, the plan's output dense size is their product and equals the
    result type's dense subspace size. The products are those of [size_t];
    for an addressable dense block they are the exact products. *)
Theorem out_dense_size_well_typed (input_type res_type : ValueType.t)
  (spec : Spec) :
  well_typed input_type res_type spec ->
  exists param,
    PeekParam.ctor input_type res_type spec = Ok param
    /\ DensePlan.loop_cnt (PeekParam.dense_plan param)
       = ValueType.indexed_sizes (ValueType.dimensions res_type)
    /\ DensePlan.out_dense_size (PeekParam.dense_plan param)
       = SizeT.product (DensePlan.loop_cnt (PeekParam.dense_plan param))
    /\ DensePlan.out_dense_size (PeekParam.dense_plan param)
       = ValueType.dense_subspace_size res_type
    /\ (dense_addressable (ValueType.dimensions input_type) ->
        DensePlan.out_dense_size (PeekParam.dense_plan param)
        = list_product (DensePlan.loop_cnt (PeekParam.dense_plan param))).
Proof.
  intros [Hd Hs Hf Hres Hcnt].
  set (dims := ValueType.dimensions input_type) in *.
  destruct (dense_roles_free spec (dense_zip dims) (dense_init dims))
    as [Hloop Hout].
  rewrite dense_zip_free_sizes, <- Hres in Hloop, Hout.
  cbn [dense_init DensePlan.loop_cnt DensePlan.out_dense_size app] in Hloop, Hout.
  fold (SizeT.product (ValueType.indexed_sizes (ValueType.dimensions res_type)))
    in Hout.
  eexists. split.
  - unfold PeekParam.ctor. fold dims.
    rewrite DensePlan_ctor_sorted, SparsePlan_ctor_sorted by assumption.
    cbn [bind]. rewrite dense_roles_in_dense_size, Hout.
    unfold dense_init at 1. cbn [DensePlan.in_dense_size].
    rewrite fill_cur_size. unfold ValueType.dense_subspace_size. fold dims.
    rewrite <- product_wrap, !Z.eqb_refl. cbn [assert bind]. reflexivity.
  - cbn [PeekParam.dense_plan]. rewrite Hloop, Hout.
    repeat split; try reflexivity.
    intros [Hpos Hfit]. fold dims in Hpos, Hfit. unfold Int64.max_value in Hfit.
    rewrite product_wrap. apply wrap_small. rewrite Hres, modulus_eq.
    pose proof (indexed_sizes_filter_bounds
                  (fun d => negb (pinned_by spec d)) dims Hpos) as [_ Hb].
    unfold peek_result_dims. lia.
Qed.

(** ** Lookup keys *)

Lemma make_string_parse (v : Z) :
  option_map Z.of_int (NilZero.int_of_string (make_string_PRId64 v)) = Some v.
Proof.
  unfold make_string_PRId64. rewrite NilZero.isi.
  - cbn [option_map]. now rewrite DecimalZ.of_to.
  - destruct v; cbn; try discriminate.
    intros H. inversion H as [H']. now apply DecimalPos.Unsigned.to_uint_nonnil in H'.
  - destruct v; cbn; try discriminate.
    intros H. inversion H as [H']. now apply DecimalPos.Unsigned.to_uint_nonnil in H'.
Qed.

Lemma make_string_negative (v : Z) :
  v < 0 -> make_string_PRId64 v = String "-" (make_string_PRId64 (- v)).
Proof. destruct v; try lia. intros _. reflexivity. Qed.

Lemma pinned_specs_names (indexed : bool) (spec : Spec)
  (dims : list Dimension.t) :
  map DimSpec.name (pinned_specs indexed spec dims)
  = map Dimension.name
      (filter (fun d => Bool.eqb (Dimension.is_indexed d) indexed
                        && pinned_by spec d) dims).
Proof.
  induction dims as [|d dims IH]; [reflexivity|].
  rewrite pinned_specs_cons, map_app, IH. cbn [filter]. unfold pinned_by at 2.
  destruct (Bool.eqb (Dimension.is_indexed d) indexed); [|reflexivity].
  destruct (spec_lookup (Dimension.name d) spec); reflexivity.
Qed.

Lemma sorted_names (dims : list Dimension.t) :
  dims_sorted dims -> StronglySorted name_lt (map Dimension.name dims).
Proof.
  induction 1 as [|a l Hs IH Hall]; [constructor|].
  cbn [map]. constructor; [exact IH|].
  apply Forall_forall. intros n Hn. apply in_map_iff in Hn.
  destruct Hn as (d & E & Hd). subst n.
  rewrite Forall_forall in Hall. now apply Hall.
Qed.

Lemma pinned_specs_key_pin (spec : Spec) (dims : list Dimension.t)
  (ds : DimSpec.t) :
  dims_sorted dims -> spec_fits dims spec ->
  In ds (pinned_specs false spec dims) ->
  key_pin (DimSpec.child_or_label ds).
Proof.
  intros Hs Hf Hin. apply In_pinned_specs in Hin.
  destruct Hin as (d & Hd & Hk & Hn & L).
  apply spec_lookup_in in L. destruct (Hf _ L) as (d' & Hd' & Hn' & Hfit).
  cbn [fst snd] in Hn', Hfit.
  assert (d' = d) by (now apply (dims_sorted_unique dims)). subst d'.
  unfold entry_fits in Hfit. unfold Dimension.is_indexed in Hk.
  destruct (Dimension.kind d); [discriminate|].
  unfold key_pin. now destruct (DimSpec.child_or_label ds) as [c|[n|i]].
Qed.

Lemma mapM_key_of (values : Z -> Z) (l : list DimSpec.t) :
  (forall ds, In ds l -> key_pin (DimSpec.child_or_label ds)) ->
  mapM (SparsePlan.key_of (source values)) l
  = Ok (map (fun ds => resolved_key values (DimSpec.child_or_label ds)) l).
Proof.
  induction l as [|ds l IH]; intros H; [reflexivity|].
  cbn [mapM map]. rewrite IH by (intros ds' Hds'; apply H; now right).
  specialize (H ds (or_introl eq_refl)).
  unfold SparsePlan.key_of, DimSpec.has_child, DimSpec.get_child_idx,
    DimSpec.get_label_name, key_pin in *.
  destruct (DimSpec.child_or_label ds) as [c|[n|i]]; try contradiction;
    reflexivity.
Qed.

Lemma sparse_roles_cons (spec : Spec) (d : Dimension.t)
  (rest : list Dimension.t) (st : Z * (Z * list Z)) :
  sparse_roles spec (d :: rest) st
  = sparse_roles spec rest (sparse_step spec st d).
Proof. reflexivity. Qed.

Lemma sparse_roles_view_length (spec : Spec) (dims : list Dimension.t) :
  forall st,
    List.length (snd (snd (sparse_roles spec dims st)))
    = (List.length (snd (snd st))
       + List.length (filter (pinned_by spec) dims))%nat.
Proof.
  induction dims as [|d rest IH]; intros st; [cbn; lia|].
  rewrite sparse_roles_cons, IH. unfold sparse_step. cbn [filter].
  destruct (pinned_by spec d); cbn [fst snd List.length].
  - rewrite length_app. cbn [List.length]. lia.
  - lia.
Qed.

Lemma pinned_specs_length (indexed : bool) (spec : Spec)
  (dims : list Dimension.t) :
  List.length (pinned_specs indexed spec dims)
  = List.length (filter (pinned_by spec) (dims_of_kind indexed dims)).
Proof.
  unfold dims_of_kind.
  induction dims as [|d dims IH]; [reflexivity|].
  rewrite pinned_specs_cons, length_app, IH. cbn [filter].
  destruct (Bool.eqb (Dimension.is_indexed d) indexed); [|reflexivity].
  cbn [filter]. unfold pinned_by at 2.
  destruct (spec_lookup (Dimension.name d) spec); reflexivity.
Qed.

(** The state built for a well-typed triple: the keys, in the order of the
    lookup specs. *)
Lemma make_state_sorted (dims : list Dimension.t) (spec : Spec)
  (values : Z -> Z) (plan : SparsePlan.t) :
  dims_sorted dims -> spec_sorted spec -> spec_fits dims spec ->
  SparsePlan.ctor dims spec = Ok plan ->
  SparsePlan.lookup_specs plan = pinned_specs false spec dims
  /\ SparsePlan.make_state plan (source values)
     = Ok (SparseState.ctor
             (map (fun ds => resolved_key values (DimSpec.child_or_label ds))
                (SparsePlan.lookup_specs plan))
             (SparsePlan.out_mapped_dims plan)).
Proof.
  intros Hd Hs Hf Hctor.
  rewrite SparsePlan_ctor_sorted in Hctor by assumption.
  inversion Hctor as [Hp]. clear Hctor.
  cbn [SparsePlan.lookup_specs SparsePlan.out_mapped_dims]. split; [reflexivity|].
  unfold SparsePlan.make_state.
  cbn [SparsePlan.lookup_specs SparsePlan.view_dims SparsePlan.out_mapped_dims].
  rewrite mapM_key_of
    by (intros ds Hds; now apply (pinned_specs_key_pin spec dims)).
  cbn [bind]. rewrite length_map, sparse_roles_view_length, pinned_specs_length.
  cbn [fst snd List.length]. rewrite Nat.eqb_refl. reflexivity.
Qed.

(** C6. For a well-typed type and specification the sparse plan is built and
    the state made from it holds one key per pinned mapped dimension, in the
    ascending name order of the dimensions: the literal name where the pin
    is a literal, and the decimal numeral of the child's value where it is a
    child reference (a numeral that reads back as that value). *)
Theorem lookup_keys_in_name_order (dims : list Dimension.t) (spec : Spec)
  (values : Z -> Z) :
  dims_sorted dims -> spec_sorted spec -> spec_fits dims spec ->
  exists plan state,
    SparsePlan.ctor dims spec = Ok plan
    /\ SparsePlan.make_state plan (source values) = Ok state
    /\ map DimSpec.name (SparsePlan.lookup_specs plan)
       = map Dimension.name (filter (pinned_mapped spec) dims)
    /\ StronglySorted name_lt (map DimSpec.name (SparsePlan.lookup_specs plan))
    /\ SparseState.lookup_refs state
       = map (fun ds => resolved_key values (DimSpec.child_or_label ds))
           (SparsePlan.lookup_specs plan)
    /\ (forall ds, In ds (SparsePlan.lookup_specs plan) ->
          spec_lookup (DimSpec.name ds) spec = Some (DimSpec.child_or_label ds)
          /\ key_pin (DimSpec.child_or_label ds))
    /\ (forall i, option_map Z.of_int
                    (NilZero.int_of_string (resolved_key values (child i)))
                  = Some (values i)).
Proof.
  intros Hd Hs Hf.
  pose proof (SparsePlan_ctor_sorted dims spec Hd Hs Hf) as Hctor.
  destruct (make_state_sorted dims spec values _ Hd Hs Hf Hctor) as [Hl Hst].
  eexists. eexists. split; [exact Hctor|]. split; [exact Hst|].
  rewrite Hl. split; [apply pinned_specs_names|]. split.
  - rewrite pinned_specs_names. apply sorted_names. now apply sorted_filter.
  - split; [reflexivity|]. split.
    + intros ds Hds. split.
      * apply In_pinned_specs in Hds. destruct Hds as (d & _ & _ & Hn & L).
        now rewrite Hn.
      * now apply (pinned_specs_key_pin spec dims).
    + intros i. apply make_string_parse.
Qed.

(** ** The parameters of a well-typed operation *)

Lemma PeekParam_ctor_sorted (input_type res_type : ValueType.t) (spec : Spec) :
  well_typed input_type res_type spec ->
  PeekParam.ctor input_type res_type spec
  = Ok (peek_param input_type res_type spec)
  /\ DensePlan.out_dense_size
       (PeekParam.dense_plan (peek_param input_type res_type spec))
     = ValueType.dense_subspace_size res_type.
Proof.
  intros [Hd Hs Hf Hres Hcnt].
  set (dims := ValueType.dimensions input_type) in *.
  destruct (dense_roles_free spec (dense_zip dims) (dense_init dims))
    as [_ Hout].
  rewrite dense_zip_free_sizes, <- Hres in Hout.
  cbn [dense_init DensePlan.out_dense_size] in Hout.
  fold (SizeT.product (ValueType.indexed_sizes (ValueType.dimensions res_type)))
    in Hout.
  split; [|exact Hout].
  unfold PeekParam.ctor, peek_param. fold dims.
  rewrite DensePlan_ctor_sorted, SparsePlan_ctor_sorted by assumption.
  cbn [bind]. rewrite dense_roles_in_dense_size, Hout.
  unfold dense_init at 1. cbn [DensePlan.in_dense_size].
  rewrite fill_cur_size. unfold ValueType.dense_subspace_size. fold dims.
  rewrite <- product_wrap, !Z.eqb_refl. reflexivity.
Qed.

Lemma sparse_roles_out (spec : Spec) (dims : list Dimension.t) :
  forall st,
    0 <= fst (snd st) ->
    fst (snd st) + Z.of_nat (List.length dims) < SizeT.modulus ->
    fst (snd (sparse_roles spec dims st))
    = fst (snd st) + Z.of_nat (List.length (filter (unpinned spec) dims)).
Proof.
  induction dims as [|d rest IH]; intros st H0 Hb; [cbn; lia|].
  cbn [List.length] in Hb. rewrite sparse_roles_cons. cbn [filter].
  unfold unpinned at 1, sparse_step.
  destruct (pinned_by spec d); cbn [negb].
  - rewrite IH; cbn [fst snd]; lia.
  - rewrite IH; cbn [fst snd]; unfold SizeT.add.
    + rewrite wrap_small by lia. cbn [List.length]. lia.
    + rewrite wrap_small by lia. lia.
    + rewrite wrap_small by lia. lia.
Qed.

Lemma count_mapped_result (dims : list Dimension.t) (spec : Spec) :
  List.length (filter Dimension.is_mapped (peek_result_dims dims spec))
  = List.length (filter (unpinned spec) (dims_of_kind false dims)).
Proof.
  unfold peek_result_dims, dims_of_kind, unpinned, Dimension.is_mapped.
  induction dims as [|d dims IH]; [reflexivity|].
  cbn [filter].
  destruct (pinned_by spec d) eqn:P, (Dimension.is_indexed d) eqn:K;
    cbn [negb Bool.eqb filter]; rewrite ?P, ?K; cbn [negb List.length];
    rewrite ?IH; reflexivity.
Qed.

Lemma out_mapped_dims_result (input_type res_type : ValueType.t) (spec : Spec) :
  well_typed input_type res_type spec ->
  SparsePlan.out_mapped_dims
    (PeekParam.sparse_plan (peek_param input_type res_type spec))
  = ValueType.count_mapped_dimensions res_type.
Proof.
  intros [Hd Hs Hf Hres Hcnt].
  unfold peek_param. cbn [PeekParam.sparse_plan SparsePlan.out_mapped_dims].
  pose proof (filter_length_le (fun d => Bool.eqb (Dimension.is_indexed d) false)
                (ValueType.dimensions input_type)) as Hle.
  rewrite sparse_roles_out; cbn [fst snd]; try lia.
  - unfold ValueType.count_mapped_dimensions. rewrite Hres, count_mapped_result.
    reflexivity.
  - unfold dims_of_kind. lia.
Qed.

(** ** The degenerate result *)

Section DegenerateResult.
Context {ICT OCT : Type}.
Variable convert : ICT -> OCT.
Variable zero : OCT.

Lemma peek_nothing_filled (input_value : Value.t ICT)
  (sparse_plan : SparsePlan.t) (dense_plan : DensePlan.t)
  (get_child_value : Getter) :
  nothing_filled input_value sparse_plan dense_plan get_child_value ->
  generic_mixed_peek convert zero input_value sparse_plan dense_plan
    get_child_value
  = Ok (if SparsePlan.out_mapped_dims sparse_plan =? 0
        then [([], repeat zero
                     (Z.to_nat (DensePlan.out_dense_size dense_plan)))]
        else []).
Proof.
  unfold generic_mixed_peek.
  intros [Hnpos | (dense_offset & state & Hoff & Hne & Hst & Hlook)].
  - rewrite Hnpos. cbn [bind]. rewrite Z.eqb_refl. cbn [negb bind List.length].
    now destruct (SparsePlan.out_mapped_dims sparse_plan =? 0).
  - rewrite Hoff. cbn [bind]. apply Z.eqb_neq in Hne. rewrite Hne.
    cbn [negb]. rewrite Hst. cbn [bind]. rewrite Hlook.
    cbn [mapM bind List.length].
    now destruct (SparsePlan.out_mapped_dims sparse_plan =? 0).
Qed.

(** C2. For a well-typed operation and an invocation in which no subspace
    is filled from the input (the dense offset is [npos], or the lookup
    reports nothing): when the result type has no mapped dimension the
    built value is exactly one subspace, at the empty address, of
    [dense_subspace_size] cells all equal to the output cell type's
    default; when the result type has a mapped dimension the built value
    has no subspace. *)
Theorem default_subspace_policy (input_type res_type : ValueType.t)
  (spec : Spec) (param : PeekParam.t) (input_value : Value.t ICT)
  (get_child_value : Getter) :
  well_typed input_type res_type spec ->
  PeekParam.ctor input_type res_type spec = Ok param ->
  nothing_filled input_value (PeekParam.sparse_plan param)
    (PeekParam.dense_plan param) get_child_value ->
  generic_mixed_peek convert zero input_value (PeekParam.sparse_plan param)
    (PeekParam.dense_plan param) get_child_value
  = Ok (if ValueType.count_mapped_dimensions res_type =? 0
        then [([], repeat zero
                     (Z.to_nat (ValueType.dense_subspace_size res_type)))]
        else []).
Proof.
  intros Hwt Hctor Hnone.
  destruct (PeekParam_ctor_sorted _ _ _ Hwt) as [Hparam Hout].
  rewrite Hparam in Hctor. inversion Hctor. subst param.
  rewrite (peek_nothing_filled _ _ _ _ Hnone).
  now rewrite Hout, (out_mapped_dims_result _ _ _ Hwt).
Qed.
End DegenerateResult.

(** ** Negative child values *)

Lemma In_combine_seq {A : Type} (l : list A) :
  forall (k start : nat) (a : A),
    nth_error l k = Some a ->
    In ((start + k)%nat, a) (combine (seq start (List.length l)) l).
Proof.
  induction l as [|x l IH]; intros k start a H; [now destruct k|].
  cbn [List.length seq combine]. destruct k as [|k]; cbn in H.
  - inversion H. left. f_equal. lia.
  - right. replace (start + S k)%nat with (S start + k)%nat by lia.
    now apply IH.
Qed.

Lemma lookup_finds (index : list (list string)) (view_dims : list Z)
  (keys addr : list string) (k : nat) :
  nth_error index k = Some addr ->
  Value.matches view_dims keys addr = true ->
  In (Value.rest_of view_dims addr, Z.of_nat k)
     (Value.lookup index view_dims keys).
Proof.
  intros Hk Hm. unfold Value.lookup. apply in_flat_map.
  exists (k, addr). split.
  - apply (In_combine_seq index k 0 addr Hk).
  - cbn [fst snd]. rewrite Hm. now left.
Qed.

(** ** The stack glue *)

Section GlueFacts.
Context {ICT OCT V D : Type}.
Variable convert : ICT -> OCT.
Variable zero : OCT.
Variable as_double : V -> D.
Variable int64_of_double : D -> Z.
Variable as_tensor : V -> Value.t ICT.
Variable stash_create : Value.built OCT -> V.

Lemma peek_app_r (operands rest : list V) (v : V) :
  peek (operands ++ v :: rest) (Z.of_nat (List.length operands)) = Ok v.
Proof.
  unfold peek. rewrite Nat2Z.id, nth_error_app2 by lia.
  now rewrite Nat.sub_diag.
Qed.

(** C8. With the input value lying below [num_children] child operands:
    child [i] is read, through [as_double] and the cast, from the operand
    [num_children - 1 - i] places below the top, so that the operand
    pushed last is the child of highest index; the operation runs the
    engine on the input value and replaces those [num_children + 1] values
    by the one result. *)
Theorem stack_effect (operands rest : list V) (input_value : V)
  (param : PeekParam.t) :
  Z.of_nat (List.length operands) = PeekParam.num_children param ->
  PeekParam.num_children param + 1 < SizeT.modulus ->
  (forall (i : nat) (v : V),
      nth_error operands (List.length operands - 1 - i) = Some v ->
      (i < List.length operands)%nat ->
      get_child_value as_double int64_of_double
        (operands ++ input_value :: rest)
        (SizeT.sub (PeekParam.num_children param) 1) (Z.of_nat i)
      = Ok (int64_of_double (as_double v)))
  /\ my_generic_peek_op convert zero as_double int64_of_double as_tensor
       stash_create (operands ++ input_value :: rest) param
     = (up <- generic_mixed_peek convert zero (as_tensor input_value)
                (PeekParam.sparse_plan param) (PeekParam.dense_plan param)
                (get_child_value as_double int64_of_double
                   (operands ++ input_value :: rest)
                   (SizeT.sub (PeekParam.num_children param) 1)) ;;
        Ok (stash_create up :: rest))
  /\ (forall stack',
        my_generic_peek_op convert zero as_double int64_of_double as_tensor
          stash_create (operands ++ input_value :: rest) param = Ok stack' ->
        Z.of_nat (List.length stack')
        = Z.of_nat (List.length (operands ++ input_value :: rest))
          - (PeekParam.num_children param + 1) + 1).
Proof.
  intros Hn Hfit.
  assert (Hop : my_generic_peek_op convert zero as_double int64_of_double
                  as_tensor stash_create (operands ++ input_value :: rest) param
                = (up <- generic_mixed_peek convert zero (as_tensor input_value)
                           (PeekParam.sparse_plan param)
                           (PeekParam.dense_plan param)
                           (get_child_value as_double int64_of_double
                              (operands ++ input_value :: rest)
                              (SizeT.sub (PeekParam.num_children param) 1)) ;;
                   Ok (stash_create up :: rest))).
  { unfold my_generic_peek_op. rewrite <- Hn, peek_app_r. cbn [bind].
    destruct (generic_mixed_peek _ _ _ _ _ _); [|reflexivity]. cbn [bind].
    unfold pop_n_push, SizeT.add. rewrite wrap_small by lia.
    replace (Z.to_nat (Z.of_nat (List.length operands) + 1))
      with (List.length operands + 1)%nat by lia.
    rewrite skipn_app, skipn_all2 by lia.
    replace (List.length operands + 1 - List.length operands)%nat
      with 1%nat by lia.
    reflexivity. }
  split; [|split; [exact Hop|]].
  - intros i v Hv Hi. unfold get_child_value, SizeT.sub.
    rewrite <- Hn. rewrite (wrap_small (Z.of_nat (List.length operands) - 1))
      by lia.
    rewrite wrap_small by lia.
    unfold peek.
    replace (Z.to_nat (Z.of_nat (List.length operands) - 1 - Z.of_nat i))
      with (List.length operands - 1 - i)%nat by lia.
    rewrite nth_error_app1 by lia. rewrite Hv. reflexivity.
  - intros stack' H. rewrite Hop in H.
    destruct (generic_mixed_peek _ _ _ _ _ _); [|discriminate].
    cbn [bind] in H. inversion H. subst stack'.
    rewrite length_app. cbn [List.length]. lia.
Qed.
End GlueFacts.

(** ** Peeking one cell *)

Lemma literal_sum_cons (spec : Spec) (z : Dimension.t * (Z * Z))
  (rest : list (Dimension.t * (Z * Z))) :
  literal_sum spec (z :: rest)
  = label_index spec (fst z) * snd (snd z) + literal_sum spec rest.
Proof. reflexivity. Qed.

Lemma dense_roles_literal (spec : Spec) (zdims : list (Dimension.t * (Z * Z))) :
  forall p,
    good_pairs (map snd zdims) ->
    (forall z, In z zdims ->
       exists i, spec_lookup (Dimension.name (fst z)) spec
                 = Some (label (Label.Index i))
                 /\ Z.of_N i < fst (snd z)) ->
    0 <= DensePlan.verbatim_offset p ->
    DensePlan.verbatim_offset p + reach (map snd zdims) < SizeT.modulus ->
    dense_roles spec zdims p
    = DensePlan.mk (DensePlan.in_dense_size p) (DensePlan.out_dense_size p)
        (DensePlan.loop_cnt p) (DensePlan.in_stride p)
        (DensePlan.verbatim_offset p + literal_sum spec zdims)
        (DensePlan.children p)
    /\ 0 <= literal_sum spec zdims <= reach (map snd zdims).
Proof.
  induction zdims as [|[d [size_i stride_i]] rest IH]; intros p Hg Hlit Hv Hb.
  - cbn. rewrite Z.add_0_r. split; [now destruct p | lia].
  - cbn [map snd] in Hg, Hb |- *. inversion Hg as [|? ? [Hs Ht] Hg']; subst.
    cbn [fst snd] in Hs, Ht. rewrite reach_cons in Hb |- *.
    pose proof (reach_nonneg _ Hg') as Hr.
    destruct (Hlit _ (or_introl eq_refl)) as (i & L & Hi). cbn [fst snd] in L, Hi.
    assert (Hp : 0 <= Z.of_N i * stride_i <= (size_i - 1) * stride_i) by nia.
    rewrite dense_roles_cons, literal_sum_cons. unfold dense_step, label_index.
    cbn [fst snd]. rewrite L.
    destruct (IH (DensePlan.mk (DensePlan.in_dense_size p)
                    (DensePlan.out_dense_size p) (DensePlan.loop_cnt p)
                    (DensePlan.in_stride p)
                    (SizeT.add (DensePlan.verbatim_offset p)
                       (SizeT.mul (Z.of_N i) stride_i))
                    (DensePlan.children p))) as [IH1 IH2].
    + exact Hg'.
    + intros z Hz. apply Hlit. now right.
    + cbn. apply wrap_range.
    + cbn [DensePlan.verbatim_offset]. unfold SizeT.add, SizeT.mul.
      rewrite (wrap_small (Z.of_N i * stride_i)) by lia.
      rewrite wrap_small by lia. lia.
    + rewrite IH1. cbn [DensePlan.in_dense_size DensePlan.out_dense_size
                       DensePlan.loop_cnt DensePlan.in_stride
                       DensePlan.verbatim_offset DensePlan.children].
      unfold SizeT.add, SizeT.mul.
      rewrite (wrap_small (Z.of_N i * stride_i)) by lia.
      rewrite wrap_small by lia. split; [f_equal; ring | lia].
Qed.

Lemma literal_sum_zip (spec : Spec) (idims : list Dimension.t) :
  Forall (fun d => Dimension.is_indexed d = true) idims ->
  literal_sum spec
    (combine idims (combine (ValueType.indexed_sizes idims)
                      (exact_strides (ValueType.indexed_sizes idims))))
  = pinned_cell spec idims.
Proof.
  induction 1 as [|d rest Hd _ IH]; [reflexivity|].
  unfold Dimension.is_indexed in Hd.
  cbn [ValueType.indexed_sizes flat_map pinned_cell].
  fold (ValueType.indexed_sizes rest).
  destruct (Dimension.kind d) as [n|]; [|discriminate].
  cbn [app exact_strides combine]. rewrite literal_sum_cons, IH. reflexivity.
Qed.

Lemma sparse_roles_all_pinned (spec : Spec) (dims : list Dimension.t) :
  forall st,
    (forall d, In d dims -> pinned_by spec d = true) ->
    0 <= fst st ->
    fst st + Z.of_nat (List.length dims) < SizeT.modulus ->
    snd (sparse_roles spec dims st)
    = (fst (snd st),
       snd (snd st)
       ++ map (fun i => fst st + Z.of_nat i) (seq 0 (List.length dims))).
Proof.
  induction dims as [|d rest IH]; intros [idx [out view]] Hp H0 Hb.
  - cbn. now rewrite app_nil_r.
  - cbn [List.length] in Hb. cbn [fst snd] in *.
    rewrite sparse_roles_cons. unfold sparse_step.
    rewrite (Hp d (or_introl eq_refl)). cbn [fst snd].
    unfold SizeT.add. rewrite wrap_small by lia.
    rewrite IH; cbn [fst snd]; try lia.
    + cbn [List.length seq map]. rewrite <- app_assoc. cbn [app].
      rewrite Z.add_0_r. do 3 f_equal.
      rewrite <- seq_shift, map_map. apply map_ext. intros i. lia.
    + intros d' Hd'. apply Hp. now right.
Qed.

Lemma resolved_literal_keys (spec : Spec) (values : Z -> Z)
  (dims : list Dimension.t) :
  all_literal spec dims ->
  map (fun ds => resolved_key values (DimSpec.child_or_label ds))
    (pinned_specs false spec dims)
  = pinned_address spec dims.
Proof.
  unfold pinned_address, dims_of_kind.
  induction dims as [|d dims IH]; intros Hlit; [reflexivity|].
  rewrite pinned_specs_cons, map_app.
  rewrite IH by (intros d' Hd'; apply Hlit; now right).
  cbn [filter]. destruct (Bool.eqb (Dimension.is_indexed d) false); [|reflexivity].
  destruct (Hlit d (or_introl eq_refl)) as (l & L).
  cbn [map]. unfold label_name. rewrite L. cbn [map DimSpec.child_or_label app].
  now destruct l.
Qed.

Lemma matches_all_positions (keys : list string) :
  forall (start : nat) (addr : list string),
    List.length addr = (start + List.length keys)%nat ->
    Value.matches (map Z.of_nat (seq start (List.length keys))) keys addr = true
    <-> skipn start addr = keys.
Proof.
  unfold Value.matches.
  induction keys as [|key keys IH]; intros start addr Hl.
  - cbn. split; [|reflexivity]. intros _. apply skipn_all2.
    cbn in Hl. lia.
  - cbn [List.length seq map combine forallb fst snd] in *.
    rewrite Nat2Z.id.
    destruct (nth_error addr start) as [a|] eqn:E.
    2:{ apply nth_error_None in E. lia. }
    assert (Hsk : skipn start addr = a :: skipn (S start) addr).
    { clear - E. revert addr E. induction start as [|s IHs]; intros [|x addr] E;
        try discriminate.
      - cbn in E. inversion E. reflexivity.
      - cbn in E. cbn [skipn]. now apply IHs. }
    rewrite Hsk, Bool.andb_true_iff, (IH (S start) addr) by lia.
    rewrite String.eqb_eq. split.
    + intros [E1 E2]. now subst.
    + intros H. inversion H. now split.
Qed.

Lemma rest_of_all_positions (addr : list string) :
  Value.rest_of (map Z.of_nat (seq 0 (List.length addr))) addr = [].
Proof.
  unfold Value.rest_of.
  assert (H : forall l : list (nat * string),
             (forall il, In il l -> (fst il < List.length addr)%nat) ->
             filter (fun il => negb (existsb (Z.eqb (Z.of_nat (fst il)))
                                       (map Z.of_nat (seq 0 (List.length addr)))))
               l = []).
  { induction l as [|il l IHl]; intros Hl; [reflexivity|].
    cbn [filter].
    assert (E : existsb (Z.eqb (Z.of_nat (fst il)))
                  (map Z.of_nat (seq 0 (List.length addr))) = true).
    { apply existsb_exists. exists (Z.of_nat (fst il)). split.
      - apply in_map, in_seq. specialize (Hl il (or_introl eq_refl)). lia.
      - apply Z.eqb_refl. }
    rewrite E. cbn [negb]. apply IHl. intros il' Hil'. apply Hl. now right. }
  rewrite H; [reflexivity|].
  intros [i a] Hin. apply in_combine_l in Hin. apply in_seq in Hin.
  cbn [fst]. lia.
Qed.

Lemma lookup_unique (index : list (list string)) (view_dims : list Z)
  (keys : list string) :
  forall (k : nat),
    NoDup index ->
    nth_error index k = Some keys ->
    (forall addr, In addr index ->
       Value.matches view_dims keys addr = true <-> addr = keys) ->
    Value.lookup index view_dims keys
    = [(Value.rest_of view_dims keys, Z.of_nat k)].
Proof.
  unfold Value.lookup.
  assert (Hnone : forall (l : list (list string)) (start : nat),
             ~ In keys l ->
             (forall addr, In addr l ->
                Value.matches view_dims keys addr = true <-> addr = keys) ->
             flat_map
               (fun oa => if Value.matches view_dims keys (snd oa)
                          then [(Value.rest_of view_dims (snd oa), Z.of_nat (fst oa))]
                          else [])
               (combine (seq start (List.length l)) l) = []).
  { induction l as [|a l IHl]; intros start Hnin Hm; [reflexivity|].
    cbn [List.length seq combine flat_map fst snd].
    destruct (Value.matches view_dims keys a) eqn:E.
    - apply Hm in E; [|now left]. subst a. exfalso. apply Hnin. now left.
    - cbn [app]. apply IHl.
      + intros Hin. apply Hnin. now right.
      + intros addr Haddr. apply Hm. now right. }
  assert (Hgen : forall (l : list (list string)) (start k : nat),
             NoDup l -> nth_error l k = Some keys ->
             (forall addr, In addr l ->
                Value.matches view_dims keys addr = true <-> addr = keys) ->
             flat_map
               (fun oa => if Value.matches view_dims keys (snd oa)
                          then [(Value.rest_of view_dims (snd oa), Z.of_nat (fst oa))]
                          else [])
               (combine (seq start (List.length l)) l)
             = [(Value.rest_of view_dims keys, Z.of_nat (start + k))]).
  { induction l as [|a l IH]; intros start k Hnd Hk Hm; [now destruct k|].
    inversion Hnd as [|? ? Hnin Hnd']; subst.
    cbn [List.length seq combine flat_map fst snd].
    destruct k as [|k]; cbn in Hk.
    - inversion Hk. subst a.
      rewrite (proj2 (Hm keys (or_introl eq_refl)) eq_refl).
      rewrite Hnone; [| exact Hnin | intros addr Haddr; apply Hm; now right].
      cbn [app]. now rewrite Nat.add_0_r.
    - assert (Hneq : a <> keys).
      { intros E. subst a. apply Hnin. eapply nth_error_In. exact Hk. }
      destruct (Value.matches view_dims keys a) eqn:E.
      + apply Hm in E; [contradiction | now left].
      + cbn [app]. rewrite (IH (S start) k Hnd' Hk).
        * do 3 f_equal. lia.
        * intros addr Haddr. apply Hm. now right. }
  intros k Hnd Hk Hm. now rewrite (Hgen index 0%nat k Hnd Hk Hm).
Qed.

Lemma all_literal_pinned (spec : Spec) (dims : list Dimension.t) (d : Dimension.t) :
  all_literal spec dims -> In d dims -> pinned_by spec d = true.
Proof.
  intros Hlit Hd. destruct (Hlit d Hd) as (l & L). unfold pinned_by. now rewrite L.
Qed.

Lemma all_literal_result (spec : Spec) (dims : list Dimension.t) :
  all_literal spec dims -> peek_result_dims dims spec = [].
Proof.
  intros Hlit. unfold peek_result_dims.
  induction dims as [|d dims IH]; [reflexivity|].
  cbn [filter]. rewrite (all_literal_pinned spec (d :: dims) d Hlit) by now left.
  cbn [negb]. apply IH. intros d' Hd'. apply Hlit. now right.
Qed.

(** The dense plan when every indexed dimension is pinned by a literal: no
    loop, no child, and the literal offset is the pinned cell's position. *)
Lemma dense_plan_literal (dims : list Dimension.t) (spec : Spec) :
  dims_sorted dims -> spec_fits dims spec ->
  dense_addressable dims -> all_literal spec dims ->
  dense_roles spec (dense_zip dims) (dense_init dims)
  = DensePlan.mk (list_product (ValueType.indexed_sizes dims)) 1 [] []
      (pinned_cell spec (dims_of_kind true dims)) []
  /\ 0 <= pinned_cell spec (dims_of_kind true dims)
       < list_product (ValueType.indexed_sizes dims).
Proof.
  intros Hd Hf [Hpos Hfit] Hlit. unfold Int64.max_value in Hfit.
  set (sizes := ValueType.indexed_sizes dims) in *.
  assert (Hmod : list_product sizes < SizeT.modulus) by (rewrite modulus_eq; lia).
  pose proof (dense_zip_ok dims spec Hd Hf) as Hok.
  unfold dense_zip, dense_init in *. fold sizes in Hok |- *.
  rewrite (fill_exact sizes Hpos Hmod) in Hok |- *. cbn [fst snd] in Hok |- *.
  assert (Hlen : List.length (dims_of_kind true dims)
                 = List.length (combine sizes (exact_strides sizes))).
  { rewrite length_combine, exact_strides_length, Nat.min_id.
    unfold sizes. rewrite <- indexed_sizes_of_kind.
    symmetry. apply indexed_sizes_length, dims_of_kind_indexed. }
  destruct (dense_roles_literal spec
              (combine (dims_of_kind true dims)
                 (combine sizes (exact_strides sizes)))
              (DensePlan.mk (list_product sizes) 1 [] [] 0 [])) as [Hform Hsum].
  - rewrite (map_snd_combine_eq _ _ Hlen). now apply good_exact.
  - intros z Hz. rewrite Forall_forall in Hok. specialize (Hok z Hz).
    assert (Hin : In (fst z) dims).
    { destruct z as [d zs]. apply in_combine_l in Hz. apply filter_In in Hz.
      apply Hz. }
    destruct (Hlit _ Hin) as (l & L). unfold dense_entry_ok in Hok.
    rewrite L in Hok. destruct l as [n|i]; [contradiction|]. eauto.
  - cbn. lia.
  - cbn [DensePlan.verbatim_offset].
    rewrite (map_snd_combine_eq _ _ Hlen), reach_exact by exact Hpos. lia.
  - rewrite (map_snd_combine_eq _ _ Hlen), reach_exact in Hsum by exact Hpos.
    pose proof (literal_sum_zip spec (dims_of_kind true dims)
                  (dims_of_kind_indexed dims)) as Hzip.
    rewrite indexed_sizes_of_kind in Hzip. fold sizes in Hzip.
    rewrite Hzip in Hsum, Hform.
    rewrite Hform. cbn. split; [reflexivity | lia].
Qed.

Lemma mapM_key_of_literal (get_child_value : Getter) (values : Z -> Z)
  (l : list DimSpec.t) :
  (forall ds, In ds l ->
     exists n, DimSpec.child_or_label ds = label (Label.Name n)) ->
  mapM (SparsePlan.key_of get_child_value) l
  = Ok (map (fun ds => resolved_key values (DimSpec.child_or_label ds)) l).
Proof.
  induction l as [|ds l IH]; intros H; [reflexivity|].
  cbn [mapM map]. rewrite IH by (intros ds' Hds'; apply H; now right).
  destruct (H ds (or_introl eq_refl)) as (n & E).
  unfold SparsePlan.key_of, DimSpec.has_child, DimSpec.get_label_name.
  rewrite E. reflexivity.
Qed.

Section SingleCell.
Context {ICT OCT : Type}.
Variable convert : ICT -> OCT.
Variable zero : OCT.

(** C4. When a well-typed specification pins every dimension of the input
    with a literal and the input holds the pinned address, the result is a
    scalar: one subspace, at the empty address, whose one cell is the
    input cell at the pinned coordinate (converted to the output cell
    type), whatever the child-value source. *)
Theorem peek_pinned_cell (input_type res_type : ValueType.t) (spec : Spec)
  (input_value : Value.t ICT) (k : nat) :
  well_typed input_type res_type spec ->
  dense_addressable (ValueType.dimensions input_type) ->
  all_literal spec (ValueType.dimensions input_type) ->
  value_of_type (ValueType.dimensions input_type) input_value ->
  nth_error (Value.index input_value) k
  = Some (pinned_address spec (ValueType.dimensions input_type)) ->
  ValueType.dimensions res_type = []
  /\ exists param cell,
       PeekParam.ctor input_type res_type spec = Ok param
       /\ nth_error (Value.cells input_value)
            (Z.to_nat
               (Z.of_nat k
                * list_product
                    (ValueType.indexed_sizes (ValueType.dimensions input_type))
                + pinned_cell spec
                    (dims_of_kind true (ValueType.dimensions input_type))))
          = Some cell
       /\ forall get_child_value,
            generic_mixed_peek convert zero input_value
              (PeekParam.sparse_plan param) (PeekParam.dense_plan param)
              get_child_value
            = Ok [([], [convert cell])].
Proof.
  intros Hwt Hadd Hlit Hval Hk.
  destruct (PeekParam_ctor_sorted _ _ _ Hwt) as [Hparam _].
  destruct Hwt as [Hd Hs Hf Hres Hcnt].
  destruct Hval as [Hnd Hfull Hcells Hcfit].
  set (dims := ValueType.dimensions input_type) in *.
  set (D := list_product (ValueType.indexed_sizes dims)) in *.
  set (off := pinned_cell spec (dims_of_kind true dims)).
  destruct (dense_plan_literal dims spec Hd Hf Hadd Hlit) as [Hdense Hoff].
  fold D off in Hdense, Hoff.
  split; [rewrite Hres; now apply all_literal_result|].
  (* the cell *)
  assert (Hklt : (k < List.length (Value.index input_value))%nat).
  { apply nth_error_Some. now rewrite Hk. }
  assert (Hidx : 0 <= Z.of_nat k * D + off
                 < Z.of_nat (List.length (Value.cells input_value))) by nia.
  destruct (nth_error (Value.cells input_value) (Z.to_nat (Z.of_nat k * D + off)))
    as [cell|] eqn:Hcell.
  2:{ apply nth_error_None in Hcell. lia. }
  exists (peek_param input_type res_type spec), cell.
  split; [exact Hparam|]. split; [reflexivity|].
  intros get_child_value.
  unfold peek_param. fold dims. cbn [PeekParam.sparse_plan PeekParam.dense_plan].
  rewrite Hdense.
  (* the sparse plan *)
  set (m := List.length (dims_of_kind false dims)).
  assert (Hm : Z.of_nat m < SizeT.modulus).
  { pose proof (filter_length_le
                  (fun d => Bool.eqb (Dimension.is_indexed d) false) dims).
    unfold m, dims_of_kind. lia. }
  rewrite (sparse_roles_all_pinned spec (dims_of_kind false dims) (0, (0, [])));
    cbn [fst snd]; try lia.
  2:{ intros d Hin. apply (all_literal_pinned spec dims); [exact Hlit|].
      apply filter_In in Hin. apply Hin. }
  fold m. cbn [app].
  replace (map (fun i => 0 + Z.of_nat i) (seq 0 m))
    with (map Z.of_nat (seq 0 m)) by (apply map_ext; intros; lia).
  (* running the engine *)
  unfold generic_mixed_peek, DensePlan.get_offset.
  cbn [DensePlan.children DensePlan.verbatim_offset DensePlan.get_offset_from
       bind].
  assert (Hnpos : (off =? SizeT.npos) = false).
  { apply Z.eqb_neq. rewrite npos_eq. destruct Hadd as [_ Hfit].
    unfold Int64.max_value in Hfit. fold dims D in Hfit. lia. }
  rewrite Hnpos. cbn [negb].
  unfold SparsePlan.make_state.
  cbn [SparsePlan.lookup_specs SparsePlan.view_dims SparsePlan.out_mapped_dims].
  rewrite (mapM_key_of_literal get_child_value (fun _ => 0)).
  2:{ intros ds Hds. pose proof (pinned_specs_key_pin spec dims ds Hd Hf Hds) as Hkp.
      apply In_pinned_specs in Hds. destruct Hds as (d & Hin & _ & _ & L).
      destruct (Hlit d Hin) as (l & L'). rewrite L' in L. injection L as E.
      rewrite <- E in Hkp |- *. destruct l as [n|i]; [eauto | contradiction]. }
  rewrite (resolved_literal_keys spec (fun _ => 0) dims Hlit).
  cbn [bind]. unfold pinned_address at 1. rewrite length_map, length_map, length_seq.
  fold m. rewrite Nat.eqb_refl. cbn [assert bind].
  unfold SparseState.ctor, SparseState.lookup_refs. cbn [SparseState.view_addr].
  assert (Hkeys : List.length (pinned_address spec dims) = m)
    by (unfold pinned_address; now rewrite length_map).
  rewrite (lookup_unique (Value.index input_value) _ _ k Hnd Hk).
  2:{ intros addr Haddr. rewrite <- Hkeys.
      rewrite (matches_all_positions (pinned_address spec dims) 0 addr).
      - reflexivity.
      - rewrite Hkeys. now apply Hfull. }
  rewrite <- Hkeys at 1. rewrite rest_of_all_positions.
  cbn [mapM]. unfold copy_subspace, DensePlan.execute.
  cbn [fst snd DensePlan.in_dense_size DensePlan.loop_cnt DensePlan.in_stride
       combine run_nested_loop mapM].
  unfold SizeT.add, SizeT.mul.
  rewrite (wrap_small (Z.of_nat k * D)) by nia.
  rewrite wrap_small by lia.
  unfold Value.read. rewrite (Z.add_comm off), Hcell.
  cbn [bind List.length Z.of_nat]. rewrite Z.eqb_refl. cbn [andb].
  reflexivity.
Qed.
End SingleCell.

(** * Worked instances *)

Lemma sample_dims_sorted : dims_sorted [Sample.x; Sample.y].
Proof. repeat constructor. Defined.

Lemma sample_well_typed (res_type : ValueType.t) (spec : Spec) :
  spec_sorted spec ->
  spec_fits [Sample.x; Sample.y] spec ->
  ValueType.dimensions res_type = peek_result_dims [Sample.x; Sample.y] spec ->
  well_typed Sample.input_type res_type spec.
Proof.
  intros Hs Hf Hr. constructor; try assumption.
  - exact sample_dims_sorted.
  - reflexivity.
Defined.

Lemma sample_addressable : dense_addressable [Sample.x; Sample.y].
Proof. split; [repeat constructor; discriminate | discriminate]. Defined.

Lemma cube_addressable : dense_addressable Sample.cube.
Proof. split; [repeat constructor; discriminate | discriminate]. Defined.

Lemma constant_source (v : Z) : Int64.in_range v -> int64_source (fun _ => v).
Proof. intros H i. exact H. Defined.

Lemma cube_sorted : dims_sorted Sample.cube.
Proof. repeat constructor. Defined.

Lemma cube_spec_fits : spec_fits Sample.cube Sample.cube_spec.
Proof.
  intros e [E|[]]. subst e.
  exists (Dimension.mk "b" (Dimension.Indexed 3)).
  split; [right; now left|]. split; [reflexivity | exact I].
Defined.

Lemma cube_well_typed :
  well_typed Shapes.cube_type Shapes.cube_result Sample.cube_spec.
Proof.
  constructor.
  - exact cube_sorted.
  - repeat constructor.
  - exact cube_spec_fits.
  - reflexivity.
  - reflexivity.
Defined.


Lemma wide_sorted : dims_sorted Shapes.wide.
Proof. repeat constructor. Defined.

Lemma wide_spec_sorted : spec_sorted Shapes.wide_spec.
Proof. repeat constructor. Defined.

Lemma wide_spec_fits : spec_fits Shapes.wide Shapes.wide_spec.
Proof.
  intros e [E|[E|[E|[E|[]]]]]; subst e;
    [exists (Dimension.mk "a" (Dimension.Indexed 65536))
    |exists (Dimension.mk "b" (Dimension.Indexed 65536))
    |exists (Dimension.mk "c" (Dimension.Indexed 65536))
    |exists (Dimension.mk "d" (Dimension.Indexed 65536))];
    (split; [cbn; tauto|]); (split; [reflexivity | exact I]).
Defined.

Lemma keyed_sorted : dims_sorted Shapes.keyed.
Proof. repeat constructor. Defined.

Lemma name_and_child_fits : spec_fits Shapes.keyed Shapes.name_and_child.
Proof.
  intros e [E|[E|[]]]; subst e; [exists Shapes.k | exists Shapes.m];
    (split; [cbn; tauto|]); (split; [reflexivity | exact I]).
Defined.

Lemma second_by_child_fits : spec_fits Shapes.keyed Shapes.second_by_child.
Proof.
  intros e [E|[]]. subst e. exists Shapes.m.
  split; [cbn; tauto|]. split; [reflexivity | exact I].
Defined.

Lemma DenseSizes_row_major_witness :
  Sample.cube <> []
  /\ Forall (fun d => Dimension.is_indexed d = true) Sample.cube
  /\ exists sz,
       DenseSizes.ctor Sample.cube = Ok sz
       /\ DenseSizes.size sz = [2; 3; 4]
       /\ row_major sz
       /\ (dense_addressable Sample.cube -> row_major_exact sz).
Proof.
  split; [discriminate|]. split; [repeat constructor|].
  apply (DenseSizes_row_major Sample.cube); [discriminate | repeat constructor].
Defined.

Lemma classifier_unknown_dimension_witness :
  (exists e, In e Sample.unknown
             /\ ~ In (fst e) (map Dimension.name [Sample.x; Sample.y]))
  /\ ExtractedSpecs.ctor true [Sample.x; Sample.y] Sample.unknown = Fatal Aborted
  /\ dims_sorted [Sample.x; Sample.y]
  /\ spec_sorted Sample.child_and_name
  /\ exists mine,
       ExtractedSpecs.ctor true [Sample.x; Sample.y] Sample.child_and_name
       = Ok mine
       /\ ExtractedSpecs.dimensions mine = [Sample.x].
Proof.
  assert (H : exists e, In e Sample.unknown
                /\ ~ In (fst e) (map Dimension.name [Sample.x; Sample.y])).
  { exists ("w"%string, child 0). split; [now left|].
    intros [E|[E|[]]]; discriminate E. }
  assert (Hs : spec_sorted Sample.child_and_name) by (repeat constructor).
  split; [exact H|]. split.
  - apply (proj1 (classifier_unknown_dimension true _ _) H).
  - split; [exact sample_dims_sorted|]. split; [exact Hs|].
    destruct (proj2 (classifier_unknown_dimension true [Sample.x; Sample.y]
                       Sample.child_and_name) sample_dims_sorted Hs)
      as (mine & Hm & Hd & _).
    + intros e [E|[E|[]]]; subst e; cbn; auto.
    + exists mine. split; [exact Hm | exact Hd].
Defined.





Lemma by_child_well_typed :
  well_typed Sample.input_type Sample.by_child_type Sample.by_child.
Proof.
  apply sample_well_typed; [repeat constructor | | reflexivity].
  intros e [E|[]]. subst e. exists Sample.x. cbn. auto.
Defined.

Lemma out_dense_size_well_typed_witness :
  well_typed Shapes.cube_type Shapes.cube_result Sample.cube_spec
  /\ exists param,
       PeekParam.ctor Shapes.cube_type Shapes.cube_result Sample.cube_spec
       = Ok param
       /\ DensePlan.loop_cnt (PeekParam.dense_plan param) = [2; 4]
       /\ DensePlan.out_dense_size (PeekParam.dense_plan param)
          = SizeT.product (DensePlan.loop_cnt (PeekParam.dense_plan param))
       /\ DensePlan.out_dense_size (PeekParam.dense_plan param) = 8
       /\ (dense_addressable (ValueType.dimensions Shapes.cube_type) ->
           DensePlan.out_dense_size (PeekParam.dense_plan param)
           = list_product (DensePlan.loop_cnt (PeekParam.dense_plan param))).
Proof.
  split; [exact cube_well_typed|].
  exact (out_dense_size_well_typed Shapes.cube_type Shapes.cube_result
           Sample.cube_spec cube_well_typed).
Defined.

Lemma mapped_child_fits : spec_fits [Sample.x; Sample.y] Sample.mapped_child.
Proof.
  intros e [E|[]]. subst e. exists Sample.y. cbn. auto.
Defined.

Lemma lookup_keys_in_name_order_witness :
  dims_sorted Shapes.keyed
  /\ spec_sorted Shapes.name_and_child
  /\ spec_fits Shapes.keyed Shapes.name_and_child
  /\ exists plan state,
       SparsePlan.ctor Shapes.keyed Shapes.name_and_child = Ok plan
       /\ SparsePlan.make_state plan (source (fun _ => 7)) = Ok state
       /\ map DimSpec.name (SparsePlan.lookup_specs plan)
          = ["k"%string; "m"%string]
       /\ SparseState.lookup_refs state = ["b"%string; "7"%string].
Proof.
  assert (Hs : spec_sorted Shapes.name_and_child) by (repeat constructor).
  split; [exact keyed_sorted|]. split; [exact Hs|].
  split; [exact name_and_child_fits|].
  destruct (lookup_keys_in_name_order Shapes.keyed Shapes.name_and_child
              (fun _ => 7) keyed_sorted Hs name_and_child_fits)
    as (plan & state & Hp & Hst & Hn & _ & Hk & _).
  exists plan, state. split; [exact Hp|]. split; [exact Hst|].
  split; [exact Hn|]. rewrite Hk.
  assert (E : Ok plan
              = Ok (SparsePlan.mk 0
                      [DimSpec.mk "k" (label (Label.Name "b"));
                       DimSpec.mk "m" (child 0)] [0; 1]))
    by (rewrite <- Hp; reflexivity).
  injection E as E. rewrite E. reflexivity.
Defined.

Lemma absent_name_well_typed :
  well_typed Sample.input_type Sample.dense_type Sample.absent_name.
Proof.
  apply sample_well_typed; [repeat constructor | | reflexivity].
  intros e [E|[]]. subst e. exists Sample.y. cbn. auto.
Defined.

Lemma default_subspace_policy_witness :
  well_typed Sample.input_type Sample.dense_type Sample.absent_name
  /\ PeekParam.ctor Sample.input_type Sample.dense_type Sample.absent_name
     = Ok (peek_param Sample.input_type Sample.dense_type Sample.absent_name)
  /\ nothing_filled Sample.input
       (PeekParam.sparse_plan
          (peek_param Sample.input_type Sample.dense_type Sample.absent_name))
       (PeekParam.dense_plan
          (peek_param Sample.input_type Sample.dense_type Sample.absent_name))
       (source (fun _ => 0))
  /\ generic_mixed_peek (fun c : Z => c) 0 Sample.input
       (PeekParam.sparse_plan
          (peek_param Sample.input_type Sample.dense_type Sample.absent_name))
       (PeekParam.dense_plan
          (peek_param Sample.input_type Sample.dense_type Sample.absent_name))
       (source (fun _ => 0))
     = Ok [([], [0; 0; 0])].
Proof.
  assert (Hctor : PeekParam.ctor Sample.input_type Sample.dense_type
                    Sample.absent_name
                  = Ok (peek_param Sample.input_type Sample.dense_type
                          Sample.absent_name)) by reflexivity.
  assert (Hnone : nothing_filled Sample.input
            (PeekParam.sparse_plan
               (peek_param Sample.input_type Sample.dense_type Sample.absent_name))
            (PeekParam.dense_plan
               (peek_param Sample.input_type Sample.dense_type Sample.absent_name))
            (source (fun _ => 0))).
  { right. exists 0, (SparseState.mk ["z"%string] []).
    split; [reflexivity|]. split; [intros E; vm_compute in E; discriminate E|].
    split; reflexivity. }
  split; [exact absent_name_well_typed|]. split; [exact Hctor|].
  split; [exact Hnone|].
  exact (default_subspace_policy (fun c : Z => c) 0 Sample.input_type
           Sample.dense_type Sample.absent_name _ Sample.input
           (source (fun _ => 0)) absent_name_well_typed Hctor Hnone).
Defined.

Lemma literals_well_typed :
  well_typed Sample.input_type Sample.scalar_type Sample.literals.
Proof.
  apply sample_well_typed; [repeat constructor | | reflexivity].
  intros e [E|[E|[]]]; subst e.
  - exists Sample.x. split; [now left|]. split; reflexivity.
  - exists Sample.y. split; [right; now left|]. split; [reflexivity | exact I].
Defined.

Lemma literals_all_literal : all_literal Sample.literals [Sample.x; Sample.y].
Proof.
  intros d [E|[E|[]]]; subst d; eexists; reflexivity.
Defined.

Lemma sample_value_of_type : value_of_type [Sample.x; Sample.y] Sample.input.
Proof.
  constructor.
  - constructor; [intros [E|[]]; discriminate E|].
    constructor; [intros []|constructor].
  - intros addr [E|[E|[]]]; subst addr; reflexivity.
  - reflexivity.
  - reflexivity.
Defined.

Lemma peek_pinned_cell_witness :
  well_typed Sample.input_type Sample.scalar_type Sample.literals
  /\ dense_addressable (ValueType.dimensions Sample.input_type)
  /\ all_literal Sample.literals (ValueType.dimensions Sample.input_type)
  /\ value_of_type (ValueType.dimensions Sample.input_type) Sample.input
  /\ nth_error (Value.index Sample.input) 1
     = Some (pinned_address Sample.literals
               (ValueType.dimensions Sample.input_type))
  /\ exists param cell,
       PeekParam.ctor Sample.input_type Sample.scalar_type Sample.literals
       = Ok param
       /\ nth_error (Value.cells Sample.input) 5 = Some cell
       /\ forall get_child_value,
            generic_mixed_peek (fun c : Z => c) 0 Sample.input
              (PeekParam.sparse_plan param) (PeekParam.dense_plan param)
              get_child_value
            = Ok [([], [cell])].
Proof.
  assert (Hk : nth_error (Value.index Sample.input) 1
               = Some (pinned_address Sample.literals
                         (ValueType.dimensions Sample.input_type)))
    by reflexivity.
  split; [exact literals_well_typed|]. split; [exact sample_addressable|].
  split; [exact literals_all_literal|]. split; [exact sample_value_of_type|].
  split; [exact Hk|].
  exact (proj2 (peek_pinned_cell (fun c : Z => c) 0 Sample.input_type
                  Sample.scalar_type Sample.literals Sample.input 1
                  literals_well_typed sample_addressable literals_all_literal
                  sample_value_of_type Hk)).
Defined.

Lemma stack_effect_witness :
  Z.of_nat (List.length [Sample.Num 1])
  = PeekParam.num_children
      (peek_param Sample.input_type Sample.by_child_type Sample.by_child)
  /\ PeekParam.num_children
       (peek_param Sample.input_type Sample.by_child_type Sample.by_child) + 1
     < SizeT.modulus
  /\ my_generic_peek_op (fun c : Z => c) 0 Sample.as_double (fun d : Z => d)
       Sample.as_tensor Sample.Built
       ([Sample.Num 1] ++ Sample.Tensor Sample.input :: [Sample.Num 9])
       (peek_param Sample.input_type Sample.by_child_type Sample.by_child)
     = Ok [Sample.Built [(["a"%string], [2]); (["b"%string], [5])];
           Sample.Num 9].
Proof.
  assert (Hn : Z.of_nat (List.length [Sample.Num 1])
               = PeekParam.num_children
                   (peek_param Sample.input_type Sample.by_child_type
                      Sample.by_child)) by reflexivity.
  assert (Hfit : PeekParam.num_children
                   (peek_param Sample.input_type Sample.by_child_type
                      Sample.by_child) + 1 < SizeT.modulus) by reflexivity.
  split; [exact Hn|]. split; [exact Hfit|].
  rewrite (proj1 (proj2 (stack_effect (fun c : Z => c) 0 Sample.as_double
                           (fun d : Z => d) Sample.as_tensor Sample.Built
                           [Sample.Num 1] [Sample.Num 9]
                           (Sample.Tensor Sample.input) _ Hn Hfit))).
  reflexivity.
Defined.

(** * Further properties of the constructors *)

(** ** The shape of every constructed dense plan *)

Lemma classify_shape (dims : list (Dimension.t * (Z * Z))) :
  forall pos p p',
    DensePlan.classify dims pos p = Ok p' ->
    exists cnts strides cs,
      DensePlan.loop_cnt p' = DensePlan.loop_cnt p ++ cnts
      /\ DensePlan.in_stride p' = DensePlan.in_stride p ++ strides
      /\ List.length cnts = List.length strides
      /\ DensePlan.out_dense_size p'
         = fold_left SizeT.mul cnts (DensePlan.out_dense_size p)
      /\ DensePlan.children p' = DensePlan.children p ++ cs
      /\ (List.length cnts + List.length pos)%nat = List.length dims
      /\ (List.length cs <= List.length pos)%nat
      /\ DensePlan.in_dense_size p' = DensePlan.in_dense_size p
      /\ Forall (fun n => In n (map (fun z => fst (snd z)) dims)) cnts
      /\ Forall (fun c => In (DensePlan.limit c)
                            (map (fun z => fst (snd z)) dims)) cs.
Proof.
  induction dims as [|[dim [size_i stride_i]] rest IH]; intros pos p p' Hc.
  - cbn [DensePlan.classify] in Hc. assert_ok Hc as E.
    destruct pos; [|discriminate]. inversion Hc; subst p'.
    exists [], [], []. rewrite !app_nil_r. repeat split; constructor.
  - assert (Hfree : forall pos0,
               DensePlan.classify rest pos0
                 (DensePlan.mk (DensePlan.in_dense_size p)
                    (SizeT.mul (DensePlan.out_dense_size p) size_i)
                    (DensePlan.loop_cnt p ++ [size_i])
                    (DensePlan.in_stride p ++ [stride_i])
                    (DensePlan.verbatim_offset p) (DensePlan.children p)) = Ok p' ->
               exists cnts strides cs,
                 DensePlan.loop_cnt p' = DensePlan.loop_cnt p ++ cnts
                 /\ DensePlan.in_stride p' = DensePlan.in_stride p ++ strides
                 /\ List.length cnts = List.length strides
                 /\ DensePlan.out_dense_size p'
                    = fold_left SizeT.mul cnts (DensePlan.out_dense_size p)
                 /\ DensePlan.children p' = DensePlan.children p ++ cs
                 /\ (List.length cnts + List.length pos0)%nat
                    = List.length ((dim, (size_i, stride_i)) :: rest)
                 /\ (List.length cs <= List.length pos0)%nat
                 /\ DensePlan.in_dense_size p' = DensePlan.in_dense_size p
                 /\ Forall (fun n => In n (map (fun z => fst (snd z))
                                             ((dim, (size_i, stride_i)) :: rest)))
                      cnts
                 /\ Forall (fun c => In (DensePlan.limit c)
                                       (map (fun z => fst (snd z))
                                          ((dim, (size_i, stride_i)) :: rest)))
                      cs).
    { intros pos0 H0. apply IH in H0.
      destruct H0 as (cnts & strides & cs & L & S & Hl & O & C & N & M & I & F1 & F2).
      cbn [DensePlan.loop_cnt DensePlan.in_stride DensePlan.out_dense_size
           DensePlan.children DensePlan.in_dense_size] in *.
      exists (size_i :: cnts), (stride_i :: strides), cs.
      rewrite <- app_assoc in L, S. cbn [app] in L, S.
      repeat split; try assumption.
      - cbn [List.length]. now rewrite Hl.
      - cbn [List.length]. lia.
      - constructor; [now left|].
        eapply Forall_impl; [|exact F1]. intros n Hn. now right.
      - eapply Forall_impl; [|exact F2]. intros c Hc'. now right. }
    cbn [DensePlan.classify] in Hc.
    destruct pos as [|here pos']; [now apply Hfree in Hc|].
    destruct (String.ltb (Dimension.name dim) (DimSpec.name here));
      [now apply Hfree in Hc|].
    assert_ok Hc as E0. destruct (DimSpec.has_child here).
    + bind_ok Hc as E1. apply IH in Hc.
      destruct Hc as (cnts & strides & cs & L & S & Hl & O & C & N & M & I & F1 & F2).
      cbn [DensePlan.loop_cnt DensePlan.in_stride DensePlan.out_dense_size
           DensePlan.children DensePlan.in_dense_size] in *.
      exists cnts, strides, (DensePlan.mkChild a stride_i size_i :: cs).
      rewrite <- app_assoc in C. cbn [app] in C.
      repeat split; try assumption.
      * cbn [List.length]. lia.
      * cbn [List.length]. lia.
      * eapply Forall_impl; [|exact F1]. intros n Hn. now right.
      * constructor; [now left|].
        eapply Forall_impl; [|exact F2]. intros c Hc'. now right.
    + assert_ok Hc as E3. bind_ok Hc as E1. assert_ok Hc as E2.
      apply IH in Hc.
      destruct Hc as (cnts & strides & cs & L & S & Hl & O & C & N & M & I & F1 & F2).
      cbn [DensePlan.loop_cnt DensePlan.in_stride DensePlan.out_dense_size
           DensePlan.children DensePlan.in_dense_size] in *.
      exists cnts, strides, cs.
      repeat split; try assumption.
      * cbn [List.length]. lia.
      * cbn [List.length]. lia.
      * eapply Forall_impl; [|exact F1]. intros n Hn. now right.
      * eapply Forall_impl; [|exact F2]. intros c Hc'. now right.
Qed.

(** X1. Every plan the dense constructor returns, for any type and
    specification: the loop-count and stride vectors have the same length,
    [out_dense_size] is the [size_t] product of the loop counts,
    [in_dense_size] is the [size_t] product of the indexed sizes, the free
    and child-pinned dimensions together are no more than the indexed
    dimensions, and every loop count and child limit is the size of an
    indexed dimension of the type. *)
Theorem dense_plan_shape (dims : list Dimension.t) (spec : Spec)
  (p : DensePlan.t) :
  DensePlan.ctor dims spec = Ok p ->
  List.length (DensePlan.loop_cnt p) = List.length (DensePlan.in_stride p)
  /\ DensePlan.out_dense_size p = SizeT.product (DensePlan.loop_cnt p)
  /\ DensePlan.in_dense_size p = SizeT.product (ValueType.indexed_sizes dims)
  /\ (List.length (DensePlan.loop_cnt p) + List.length (DensePlan.children p)
      <= List.length (ValueType.indexed_sizes dims))%nat
  /\ (forall n, In n (DensePlan.loop_cnt p) ->
        In n (ValueType.indexed_sizes dims))
  /\ (forall c, In c (DensePlan.children p) ->
        In (DensePlan.limit c) (ValueType.indexed_sizes dims)).
Proof.
  intros H. unfold DensePlan.ctor in H. bind_ok H as Em.
  pose proof (ExtractedSpecs_dimensions _ _ _ _ Em) as Hd. rewrite Hd in H.
  rewrite DenseSizes_ctor_indexed in H by apply dims_of_kind_indexed.
  rewrite indexed_sizes_of_kind in H.
  cbn [bind DenseSizes.size DenseSizes.stride DenseSizes.cur_size] in H.
  set (sizes := ValueType.indexed_sizes dims) in *.
  apply classify_shape in H.
  destruct H as (cnts & strides & cs & L & S & Hl & O & C & N & M & I & F1 & F2).
  cbn [DensePlan.loop_cnt DensePlan.in_stride DensePlan.out_dense_size
       DensePlan.children DensePlan.in_dense_size app] in *.
  assert (Hsub : forall n,
             In n (map (fun z : Dimension.t * (Z * Z) => fst (snd z))
                     (combine (dims_of_kind true dims)
                        (combine sizes (fst (DenseSizes.fill sizes))))) ->
             In n sizes).
  { intros n Hn. apply in_map_iff in Hn. destruct Hn as ([d [sz st]] & E & Hin).
    cbn [fst snd] in E. subst n. apply in_combine_r in Hin.
    now apply in_combine_l in Hin. }
  assert (Hlen : List.length (combine (dims_of_kind true dims)
                                (combine sizes (fst (DenseSizes.fill sizes))))
                 = List.length sizes).
  { rewrite !length_combine, fill_length, Nat.min_id.
    unfold sizes. rewrite <- indexed_sizes_of_kind.
    rewrite indexed_sizes_length by apply dims_of_kind_indexed.
    apply Nat.min_id. }
  rewrite L, S, C, O, I. repeat split.
  - exact Hl.
  - rewrite fill_cur_size. symmetry. apply product_wrap.
  - lia.
  - intros n Hn. rewrite Forall_forall in F1. apply Hsub. now apply F1.
  - intros c Hc. rewrite Forall_forall in F2. apply Hsub. now apply F2.
Qed.

(** ** The shape of every constructed sparse plan *)

Lemma mapM_length {A B : Type} (f : A -> result B) (l : list A) :
  forall bs, mapM f l = Ok bs -> List.length bs = List.length l.
Proof.
  induction l as [|a l IH]; intros bs H; cbn [mapM] in H.
  - now inversion H.
  - bind_ok H as E1. bind_ok H as E2. inversion H. subst bs.
    cbn [List.length]. f_equal. now apply IH.
Qed.

Lemma sparse_classify_shape (dims : list Dimension.t) :
  forall dim_idx pos out view r,
    SparsePlan.classify dims dim_idx pos out view = Ok r ->
    0 <= dim_idx -> 0 <= out ->
    dim_idx + Z.of_nat (List.length dims) < SizeT.modulus ->
    out + Z.of_nat (List.length dims) < SizeT.modulus ->
    exists vs,
      snd r = view ++ vs
      /\ List.length vs = List.length pos
      /\ fst r + Z.of_nat (List.length vs) = out + Z.of_nat (List.length dims)
      /\ ascending_within dim_idx (dim_idx + Z.of_nat (List.length dims)) vs.
Proof.
  induction dims as [|dim rest IH]; intros dim_idx pos out view r Hc Hi Ho Hbi Hbo.
  - cbn [SparsePlan.classify] in Hc. assert_ok Hc as E.
    destruct pos; [|discriminate]. inversion Hc; subst r.
    exists []. cbn. rewrite app_nil_r. repeat split; try constructor; lia.
  - cbn [List.length] in Hbi, Hbo.
    assert (Hnext : SizeT.add dim_idx 1 = dim_idx + 1)
      by (apply wrap_small; lia).
    assert (Hfree : forall pos0,
               SparsePlan.classify rest (SizeT.add dim_idx 1) pos0
                 (SizeT.add out 1) view = Ok r ->
               exists vs,
                 snd r = view ++ vs
                 /\ List.length vs = List.length pos0
                 /\ fst r + Z.of_nat (List.length vs)
                    = out + Z.of_nat (List.length (dim :: rest))
                 /\ ascending_within dim_idx
                      (dim_idx + Z.of_nat (List.length (dim :: rest))) vs).
    { intros pos0 H0. rewrite Hnext in H0.
      assert (Hout : SizeT.add out 1 = out + 1) by (apply wrap_small; lia).
      rewrite Hout in H0. apply IH in H0; try lia.
      destruct H0 as (vs & V & L & O & [S F]). exists vs.
      cbn [List.length]. repeat split; try assumption; try lia.
      eapply Forall_impl; [|exact F]. cbn. intros v Hv. lia. }
    cbn [SparsePlan.classify] in Hc.
    destruct pos as [|here pos']; [now apply Hfree in Hc|].
    destruct (String.ltb (Dimension.name dim) (DimSpec.name here));
      [now apply Hfree in Hc|].
    assert_ok Hc as E0. rewrite Hnext in Hc. apply IH in Hc; try lia.
    destruct Hc as (vs & V & L & O & [S F]). exists (dim_idx :: vs).
    rewrite <- app_assoc in V. cbn [app List.length] in *.
    repeat split; try assumption; try lia.
    + constructor; [exact S|].
      eapply Forall_impl; [|exact F]. cbn. intros v Hv. lia.
    + constructor; [lia|].
      eapply Forall_impl; [|exact F]. cbn. intros v Hv. lia.
Qed.

(** X2. Every plan the sparse constructor returns, for any type and
    specification: there are as many view dimensions as lookup specs, the
    output mapped dimensions and the view dimensions together are the mapped
    dimensions of the type, the view dimensions are distinct positions among
    them in ascending order, and the size assertion of [make_state] cannot
    fail: once every key resolves the state is built. *)
Theorem sparse_plan_shape (dims : list Dimension.t) (spec : Spec)
  (plan : SparsePlan.t) :
  SparsePlan.ctor dims spec = Ok plan ->
  Z.of_nat (List.length dims) < SizeT.modulus ->
  List.length (SparsePlan.lookup_specs plan)
  = List.length (SparsePlan.view_dims plan)
  /\ SparsePlan.out_mapped_dims plan
     + Z.of_nat (List.length (SparsePlan.view_dims plan))
     = Z.of_nat (List.length (dims_of_kind false dims))
  /\ ascending_within 0 (Z.of_nat (List.length (dims_of_kind false dims)))
       (SparsePlan.view_dims plan)
  /\ (forall get_child_value keys,
        mapM (SparsePlan.key_of get_child_value) (SparsePlan.lookup_specs plan)
        = Ok keys ->
        SparsePlan.make_state plan get_child_value
        = Ok (SparseState.ctor keys (SparsePlan.out_mapped_dims plan))).
Proof.
  intros H Hcnt. unfold SparsePlan.ctor in H. bind_ok H as Em. bind_ok H as Ec.
  inversion H. subst plan. clear H.
  cbn [SparsePlan.lookup_specs SparsePlan.view_dims SparsePlan.out_mapped_dims].
  pose proof (ExtractedSpecs_dimensions _ _ _ _ Em) as Hd. rewrite Hd in Ec.
  pose proof (filter_length_le (fun d => Bool.eqb (Dimension.is_indexed d) false)
                dims) as Hle.
  fold (dims_of_kind false dims) in Hle.
  apply sparse_classify_shape in Ec; try lia.
  destruct Ec as (vs & V & L & O & A). cbn [app] in V. rewrite V.
  cbn [Z.add] in A. repeat split.
  - now rewrite L.
  - lia.
  - apply A.
  - apply A.
  - intros get_child_value keys Hk. unfold SparsePlan.make_state.
    cbn [SparsePlan.lookup_specs SparsePlan.view_dims SparsePlan.out_mapped_dims].
    rewrite Hk. cbn [bind]. rewrite L, (mapM_length _ _ _ Hk), Nat.eqb_refl.
    reflexivity.
Qed.

(** ** What construction never does *)

Lemma plain_bind {A B : Type} (r : result A) (k : A -> result B) :
  plain_failure r -> (forall a, plain_failure (k a)) -> plain_failure (bind r k).
Proof. destruct r as [a|f]; intros Hr Hk; [apply Hk | exact Hr]. Qed.

Lemma plain_assert (b : bool) : plain_failure (assert b).
Proof. now destruct b. Qed.

Lemma plain_foldM {A S : Type} (f : S -> A -> result S) (l : list A) :
  (forall s a, plain_failure (f s a)) -> forall s, plain_failure (foldM f l s).
Proof.
  intros Hf. induction l as [|a l IH]; intros s; [exact I|].
  cbn [foldM]. apply plain_bind; [apply Hf | exact IH].
Qed.

Lemma plain_mapM {A B : Type} (f : A -> result B) (l : list A) :
  (forall a, plain_failure (f a)) -> plain_failure (mapM f l).
Proof.
  intros Hf. induction l as [|a l IH]; [exact I|].
  cbn [mapM]. apply plain_bind; [apply Hf|]. intros b.
  apply plain_bind; [exact IH|]. intros bs. exact I.
Qed.

Lemma plain_visitor (indexed : bool) (acc : ExtractedSpecs.t)
  (ev : visit Dimension.t (string * MyLabel)) :
  plain_failure (ExtractedSpecs.visitor indexed acc ev).
Proof.
  destruct ev as [a|b|a b]; cbn [ExtractedSpecs.visitor]; try exact I.
  - now destruct (Bool.eqb (Dimension.is_indexed a) indexed).
  - destruct (Bool.eqb (Dimension.is_indexed a) indexed); [|exact I].
    apply plain_bind; [apply plain_assert | intros; exact I].
Qed.

Lemma plain_ExtractedSpecs (indexed : bool) (dims : list Dimension.t)
  (spec : Spec) : plain_failure (ExtractedSpecs.ctor indexed dims spec).
Proof. apply plain_foldM. apply plain_visitor. Qed.

Lemma plain_DenseSizes (dims : list Dimension.t) :
  plain_failure (DenseSizes.ctor dims).
Proof.
  unfold DenseSizes.ctor. apply plain_bind.
  - apply plain_mapM. intros d. now destruct (Dimension.kind d).
  - intros sizes. now destruct (DenseSizes.fill sizes).
Qed.

Lemma plain_dense_classify (dims : list (Dimension.t * (Z * Z))) :
  forall pos p, plain_failure (DensePlan.classify dims pos p).
Proof.
  induction dims as [|[dim [size_i stride_i]] rest IH]; intros pos p.
  - cbn [DensePlan.classify]. apply plain_bind; [apply plain_assert|].
    intros; exact I.
  - cbn [DensePlan.classify]. destruct pos as [|here pos']; [apply IH|].
    destruct (String.ltb (Dimension.name dim) (DimSpec.name here)); [apply IH|].
    apply plain_bind; [apply plain_assert|]. intros _.
    unfold DimSpec.has_child, DimSpec.has_label, DimSpec.get_child_idx,
      DimSpec.get_label_index.
    destruct (DimSpec.child_or_label here) as [c|[n|i]];
      cbn [holds_child negb assert bind]; try exact I; try apply IH.
    apply plain_bind; [apply plain_assert|]. intros _. apply IH.
Qed.

Lemma plain_sparse_classify (dims : list Dimension.t) :
  forall dim_idx pos out view,
    plain_failure (SparsePlan.classify dims dim_idx pos out view).
Proof.
  induction dims as [|dim rest IH]; intros dim_idx pos out view.
  - cbn [SparsePlan.classify]. apply plain_bind; [apply plain_assert|].
    intros; exact I.
  - cbn [SparsePlan.classify]. destruct pos as [|here pos']; [apply IH|].
    destruct (String.ltb (Dimension.name dim) (DimSpec.name here)); [apply IH|].
    apply plain_bind; [apply plain_assert|]. intros _. apply IH.
Qed.

Lemma plain_DensePlan (dims : list Dimension.t) (spec : Spec) :
  plain_failure (DensePlan.ctor dims spec).
Proof.
  unfold DensePlan.ctor. apply plain_bind; [apply plain_ExtractedSpecs|].
  intros mine. apply plain_bind; [apply plain_DenseSizes|].
  intros sizes. apply plain_dense_classify.
Qed.

Lemma plain_SparsePlan (dims : list Dimension.t) (spec : Spec) :
  plain_failure (SparsePlan.ctor dims spec).
Proof.
  unfold SparsePlan.ctor. apply plain_bind; [apply plain_ExtractedSpecs|].
  intros mine. apply plain_bind; [apply plain_sparse_classify|].
  intros r. exact I.
Qed.

(** X3. Whatever the type and the specification, the constructors never
    apply [std::get] to the alternative a specification entry does not
    hold: every [get_child_idx] is guarded by [has_child] and every
    [get_label_index] by [has_label]. The same holds for [make_state] with
    any child-value source that does not do so itself. *)
Theorem construction_never_misreads (input_type res_type : ValueType.t)
  (spec : Spec) :
  plain_failure (DensePlan.ctor (ValueType.dimensions input_type) spec)
  /\ plain_failure (SparsePlan.ctor (ValueType.dimensions input_type) spec)
  /\ plain_failure (PeekParam.ctor input_type res_type spec)
  /\ forall (plan : SparsePlan.t) (get_child_value : Getter),
       (forall i, plain_failure (get_child_value i)) ->
       plain_failure (SparsePlan.make_state plan get_child_value).
Proof.
  split; [apply plain_DensePlan|]. split; [apply plain_SparsePlan|]. split.
  - unfold PeekParam.ctor. apply plain_bind; [apply plain_DensePlan|].
    intros dense. apply plain_bind; [apply plain_SparsePlan|].
    intros sparse. apply plain_bind; [apply plain_assert|]. intros _.
    apply plain_bind; [apply plain_assert|]. intros _. exact I.
  - intros plan get Hget. unfold SparsePlan.make_state.
    apply plain_bind.
    + apply plain_mapM. intros ds.
      unfold SparsePlan.key_of, DimSpec.has_child, DimSpec.get_child_idx,
        DimSpec.get_label_name.
      destruct (DimSpec.child_or_label ds) as [c|[n|i]];
        cbn [holds_child bind]; try exact I.
      apply plain_bind; [apply Hget | intros; exact I].
    + intros keys. apply plain_bind; [apply plain_assert | intros; exact I].
Qed.

(** ** When construction succeeds *)

Lemma dense_entry_ok_dec (spec : Spec) (z : Dimension.t * (Z * Z)) :
  dense_entry_ok spec z \/ ~ dense_entry_ok spec z.
Proof.
  unfold dense_entry_ok.
  destruct (spec_lookup (Dimension.name (fst z)) spec) as [[c|[n|i]]|]; auto.
  lia.
Qed.

(** The dense loop stops at the first literal its assertions reject. *)
Lemma classify_bad (spec : Spec) (zdims : list (Dimension.t * (Z * Z))) :
  forall p,
    dims_sorted (map fst zdims) ->
    Forall (fun d => Dimension.is_indexed d = true) (map fst zdims) ->
    Exists (fun z => ~ dense_entry_ok spec z) zdims ->
    DensePlan.classify zdims (pinned_specs true spec (map fst zdims)) p
    = Fatal AssertFailed.
Proof.
  induction zdims as [|[d [size_i stride_i]] rest IH]; intros p Hs Hk Hex.
  - inversion Hex.
  - cbn [map fst] in Hs, Hk |- *.
    inversion Hk as [|? ? Hd Hk']; subst.
    assert (Hs' : dims_sorted (map fst rest)) by now inversion Hs.
    assert (Htail : dense_entry_ok spec (d, (size_i, stride_i)) ->
                    Exists (fun z => ~ dense_entry_ok spec z) rest).
    { intros Hok. inversion Hex as [? ? Hbad|? ? Hrest]; subst;
        [contradiction | exact Hrest]. }
    rewrite pinned_specs_cons, Hd. cbn [Bool.eqb].
    unfold dense_entry_ok in Htail. cbn [fst snd] in Htail.
    destruct (spec_lookup (Dimension.name d) spec) as [m|] eqn:L.
    + cbn [app DensePlan.classify DimSpec.name].
      rewrite ltb_irrefl, String.eqb_refl. cbn [assert bind].
      unfold DimSpec.has_child, DimSpec.has_label, DimSpec.get_child_idx,
        DimSpec.get_label_index. cbn [DimSpec.child_or_label].
      destruct m as [c|[n|i]]; cbn [holds_child negb assert bind].
      * apply IH; auto.
      * reflexivity.
      * destruct (Z.ltb_spec (Z.of_N i) size_i) as [Hlt|Hge];
          cbn [assert bind]; [apply IH; auto | reflexivity].
    + cbn [app DensePlan.classify].
      destruct (pinned_specs true spec (map fst rest)) as [|here pos'] eqn:P.
      * apply IH; auto.
      * rewrite (pinned_specs_after true spec d (map fst rest) here Hs)
          by (rewrite P; now left).
        apply IH; auto.
Qed.

Lemma dense_zip_entry (dims : list Dimension.t) (spec : Spec)
  (z : Dimension.t * (Z * Z)) :
  In z (dense_zip dims) ->
  In (fst z) dims
  /\ (dense_entry_ok spec z <-> bad_dense_literal spec (fst z) = false).
Proof.
  intros Hin. destruct z as [d [size_i stride_i]].
  assert (Hd : In d dims).
  { apply in_combine_l in Hin. apply filter_In in Hin. apply Hin. }
  unfold dense_zip in Hin. rewrite <- indexed_sizes_of_kind in Hin.
  apply zip_kind in Hin; [|apply dims_of_kind_indexed].
  split; [exact Hd|].
  unfold dense_entry_ok, bad_dense_literal. cbn [fst snd]. rewrite Hin.
  destruct (spec_lookup (Dimension.name d) spec) as [[c|[n|i]]|];
    try (split; [reflexivity | intros; exact I]).
  - split; [contradiction | discriminate].
  - rewrite Bool.negb_false_iff. symmetry. apply Z.ltb_lt.
Qed.

Lemma DensePlan_ctor_known (dims : list Dimension.t) (spec : Spec) :
  dims_sorted dims -> spec_sorted spec -> names_known dims spec ->
  (Forall (dense_entry_ok spec) (dense_zip dims) ->
   DensePlan.ctor dims spec
   = Ok (dense_roles spec (dense_zip dims) (dense_init dims)))
  /\ (Exists (fun z => ~ dense_entry_ok spec z) (dense_zip dims) ->
      DensePlan.ctor dims spec = Fatal AssertFailed).
Proof.
  intros Hd Hs Hn.
  assert (H : DensePlan.ctor dims spec
              = DensePlan.classify (dense_zip dims)
                  (pinned_specs true spec (map fst (dense_zip dims)))
                  (dense_init dims)).
  { unfold DensePlan.ctor.
    rewrite ExtractedSpecs_ctor_ok by assumption.
    cbn [bind ExtractedSpecs.dimensions ExtractedSpecs.specs].
    rewrite DenseSizes_ctor_indexed by apply dims_of_kind_indexed.
    rewrite indexed_sizes_of_kind.
    cbn [bind DenseSizes.size DenseSizes.stride DenseSizes.cur_size].
    fold (dense_zip dims). fold (dense_init dims).
    now rewrite dense_zip_fst, pinned_specs_of_kind. }
  rewrite H. split; intros Hz.
  - apply classify_lookup; try assumption.
    + rewrite dense_zip_fst. now apply dims_sorted_of_kind.
    + rewrite dense_zip_fst. apply dims_of_kind_indexed.
  - apply classify_bad; try assumption.
    + rewrite dense_zip_fst. now apply dims_sorted_of_kind.
    + rewrite dense_zip_fst. apply dims_of_kind_indexed.
Qed.

(** X4. For a type and a specification in name order, with every name of
    the specification a dimension of the type, the dense constructor fails
    an assertion exactly when some indexed dimension is pinned by a literal
    name or by a literal index that is not below its size; otherwise it
    returns a plan. *)
Theorem dense_construction_outcome (dims : list Dimension.t) (spec : Spec) :
  dims_sorted dims -> spec_sorted spec -> names_known dims spec ->
  (existsb (bad_dense_literal spec) dims = true ->
   DensePlan.ctor dims spec = Fatal AssertFailed)
  /\ (existsb (bad_dense_literal spec) dims = false ->
      exists p, DensePlan.ctor dims spec = Ok p).
Proof.
  intros Hd Hs Hn.
  destruct (DensePlan_ctor_known dims spec Hd Hs Hn) as [Hok Hbad].
  split.
  - intros Hex. apply Hbad. apply existsb_exists in Hex.
    destruct Hex as (d & Hin & Hb).
    assert (Hk : Dimension.is_indexed d = true).
    { unfold bad_dense_literal in Hb. unfold Dimension.is_indexed.
      destruct (Dimension.kind d); [reflexivity | discriminate]. }
    assert (Hz : In d (map fst (dense_zip dims))).
    { rewrite dense_zip_fst. apply filter_In. split; [exact Hin|].
      now rewrite Hk. }
    apply in_map_iff in Hz. destruct Hz as (z & E & Hz).
    apply Exists_exists. exists z. split; [exact Hz|].
    destruct (dense_zip_entry dims spec z Hz) as [_ Hiff].
    rewrite Hiff, E, Hb. discriminate.
  - intros Hnone. eexists. apply Hok. apply Forall_forall. intros z Hz.
    destruct (dense_zip_entry dims spec z Hz) as [Hin Hiff].
    apply Hiff.
    destruct (bad_dense_literal spec (fst z)) eqn:B; [|reflexivity].
    assert (existsb (bad_dense_literal spec) dims = true)
      by (apply existsb_exists; eauto).
    congruence.
Qed.

(** ** A literal of the wrong kind on a mapped dimension *)

Lemma SparsePlan_ctor_known (dims : list Dimension.t) (spec : Spec) :
  dims_sorted dims -> spec_sorted spec -> names_known dims spec ->
  SparsePlan.ctor dims spec
  = Ok (SparsePlan.mk
          (fst (snd (sparse_roles spec (dims_of_kind false dims) (0, (0, [])))))
          (pinned_specs false spec dims)
          (snd (snd (sparse_roles spec (dims_of_kind false dims) (0, (0, [])))))).
Proof.
  intros Hd Hs Hn. unfold SparsePlan.ctor.
  rewrite ExtractedSpecs_ctor_ok by assumption.
  cbn [bind ExtractedSpecs.dimensions ExtractedSpecs.specs].
  rewrite <- (pinned_specs_of_kind false spec dims) at 1.
  rewrite sparse_classify_lookup
    by (try apply dims_of_kind_mapped; now apply dims_sorted_of_kind).
  reflexivity.
Qed.

Lemma mapM_key_of_bad (values : Z -> Z) (l : list DimSpec.t) :
  Exists (fun ds => ~ key_pin (DimSpec.child_or_label ds)) l ->
  mapM (SparsePlan.key_of (source values)) l = Fatal AssertFailed.
Proof.
  induction l as [|ds l IH]; intros Hex; [inversion Hex|].
  assert (Htail : key_pin (DimSpec.child_or_label ds) ->
                  mapM (SparsePlan.key_of (source values)) l
                  = Fatal AssertFailed).
  { intros Hok. apply IH. inversion Hex; subst; [contradiction | assumption]. }
  cbn [mapM]. set (rest := mapM (SparsePlan.key_of (source values)) l) in *.
  unfold SparsePlan.key_of, DimSpec.has_child,
    DimSpec.get_child_idx, DimSpec.get_label_name, source. unfold key_pin in Htail.
  destruct (DimSpec.child_or_label ds) as [c|[n|i]]; cbn [holds_child bind].
  - now rewrite Htail.
  - now rewrite Htail.
  - reflexivity.
Qed.

Section WrongKind.
Context {ICT OCT : Type}.
Variable convert : ICT -> OCT.
Variable zero : OCT.

(** X5. An index literal on a mapped dimension is not caught when the plan
    is built: the sparse constructor returns a plan, and the label's
    assertion fails in [make_state], at every invocation whose dense offset
    resolves; an invocation whose dense offset is [npos] never builds the
    state and returns the degenerate result as if the specification were
    sound. *)
Theorem mapped_index_literal (dims : list Dimension.t) (spec : Spec) :
  dims_sorted dims -> spec_sorted spec -> names_known dims spec ->
  existsb (bad_sparse_literal spec) dims = true ->
  exists plan,
    SparsePlan.ctor dims spec = Ok plan
    /\ forall values,
         SparsePlan.make_state plan (source values) = Fatal AssertFailed
         /\ forall (input_value : Value.t ICT) (dense : DensePlan.t) off,
              DensePlan.get_offset dense (source values) = Ok off ->
              generic_mixed_peek convert zero input_value plan dense
                (source values)
              = if off =? SizeT.npos
                then Ok (if SparsePlan.out_mapped_dims plan =? 0
                         then [([], repeat zero
                                      (Z.to_nat (DensePlan.out_dense_size dense)))]
                         else [])
                else Fatal AssertFailed.
Proof.
  intros Hd Hs Hn Hbad. eexists. split; [now apply SparsePlan_ctor_known|].
  intros values.
  assert (Hst : SparsePlan.make_state
                  (SparsePlan.mk
                     (fst (snd (sparse_roles spec (dims_of_kind false dims)
                                  (0, (0, [])))))
                     (pinned_specs false spec dims)
                     (snd (snd (sparse_roles spec (dims_of_kind false dims)
                                  (0, (0, []))))))
                  (source values) = Fatal AssertFailed).
  { unfold SparsePlan.make_state. cbn [SparsePlan.lookup_specs].
    rewrite mapM_key_of_bad; [reflexivity|].
    apply existsb_exists in Hbad. destruct Hbad as (d & Hin & Hb).
    unfold bad_sparse_literal in Hb.
    destruct (Dimension.kind d) eqn:K; [discriminate|].
    destruct (spec_lookup (Dimension.name d) spec) as [[c|[n|i]]|] eqn:L;
      try discriminate.
    apply Exists_exists.
    exists (DimSpec.mk (Dimension.name d) (label (Label.Index i))). split.
    - apply In_pinned_specs. exists d. cbn [DimSpec.name DimSpec.child_or_label].
      unfold Dimension.is_indexed. rewrite K. auto.
    - cbn. auto. }
  split; [exact Hst|].
  intros input_value dense off Hoff. unfold generic_mixed_peek.
  rewrite Hoff. cbn [bind]. destruct (off =? SizeT.npos); cbn [negb].
  - cbn [bind List.length Z.of_nat]. rewrite Z.eqb_refl, Bool.andb_true_r.
    cbn [SparsePlan.out_mapped_dims].
    now destruct (fst (snd (sparse_roles spec (dims_of_kind false dims)
                              (0, (0, [])))) =? 0).
  - rewrite Hst. reflexivity.
Qed.
End WrongKind.

(** ** Offset resolution as the machine computes it *)

Lemma get_offset_from_machine (values : Z -> Z) (cs : list DensePlan.Child) :
  forall offset,
    SizeT.wrap offset = offset ->
    DensePlan.get_offset_from cs (source values) offset
    = Ok (if forallb (machine_in_range values) cs
          then SizeT.wrap (offset + machine_sum cs values)
          else SizeT.npos).
Proof.
  induction cs as [|c cs IH]; intros offset Hw.
  - cbn. now rewrite Z.add_0_r, Hw.
  - cbn [DensePlan.get_offset_from source bind forallb machine_sum fold_right].
    fold (machine_sum cs values). unfold machine_in_range at 1.
    destruct (Int64.to_size_t (values (DensePlan.idx c)) <? DensePlan.limit c);
      [|reflexivity].
    cbn [andb]. rewrite IH by apply wrap_idem.
    destruct (forallb (machine_in_range values) cs); [|reflexivity].
    f_equal. unfold SizeT.add, SizeT.mul. rewrite wrap_add_l.
    rewrite <- Z.add_assoc, (Z.add_comm (SizeT.wrap _)), Z.add_assoc.
    rewrite wrap_add_r. f_equal. ring.
Qed.

(** X6. For every dense plan, constructed or not, and every source that
    delivers: the offset is [npos] as soon as one child's value, converted
    to [size_t], is not below its limit, whatever the order of the children;
    otherwise it is [verbatim_offset] plus the sum of value times stride,
    reduced modulo [2^64]. *)
Theorem get_offset_machine (p : DensePlan.t) (values : Z -> Z) :
  SizeT.in_range (DensePlan.verbatim_offset p) ->
  DensePlan.get_offset p (source values)
  = Ok (if forallb (machine_in_range values) (DensePlan.children p)
        then SizeT.wrap (DensePlan.verbatim_offset p
                         + machine_sum (DensePlan.children p) values)
        else SizeT.npos).
Proof.
  intros Hv. unfold DensePlan.get_offset.
  apply get_offset_from_machine. now apply wrap_small.
Qed.

(** ** Every child reference is used once *)

Lemma pinned_entries_nil (dims : list Dimension.t) : pinned_entries [] dims = [].
Proof.
  unfold pinned_entries. induction dims as [|d dims IH]; [reflexivity|].
  cbn [flat_map]. now rewrite IH, spec_lookup_nil.
Qed.

Lemma pinned_entries_skip (e : string * MyLabel) (spec : Spec)
  (dims : list Dimension.t) :
  (forall d, In d dims -> fst e <> Dimension.name d) ->
  pinned_entries (e :: spec) dims = pinned_entries spec dims.
Proof.
  unfold pinned_entries. induction dims as [|d dims IH]; intros H; [reflexivity|].
  cbn [flat_map]. rewrite IH by (intros d' Hd'; apply H; now right).
  rewrite spec_lookup_skip by (apply H; now left). reflexivity.
Qed.

(** Looking every dimension up in the specification finds each entry once. *)
Lemma spec_recovered (ra : list Dimension.t) :
  forall rb : Spec,
    dims_sorted ra -> spec_sorted rb -> names_known ra rb ->
    pinned_entries rb ra = rb.
Proof.
  induction ra as [|a ra IH]; intros rb Hra Hrb Hsub.
  - destruct rb as [|b rb]; [reflexivity|].
    destruct (Hsub b (or_introl eq_refl)) as (d & [] & _).
  - destruct rb as [|b rb]; [apply pinned_entries_nil|].
    inversion Hra as [|? ? Hra' Ha]; subst.
    inversion Hrb as [|? ? Hrb' Hb]; subst.
    rewrite Forall_forall in Ha, Hb. unfold name_lt in Ha, Hb.
    unfold pinned_entries. cbn [flat_map]. fold (pinned_entries (b :: rb) ra).
    destruct (String.ltb (Dimension.name a) (fst b)) eqn:Hab.
    + assert (Hnot : forall e, In e (b :: rb) -> fst e <> Dimension.name a).
      { intros e [E|He] Heq.
        - subst e. rewrite Heq, ltb_irrefl in Hab. discriminate.
        - specialize (Hb e He). rewrite Heq in Hb.
          apply ltb_asym in Hab. congruence. }
      rewrite (spec_lookup_none _ _ Hnot). cbn [app]. apply IH; try assumption.
      intros e He. destruct (Hsub e He) as (d & [E|Hd] & Hn); [|eauto].
      subst d. exfalso. apply (Hnot e He). now symmetry.
    + destruct (String.ltb (fst b) (Dimension.name a)) eqn:Hba.
      * exfalso. destruct (Hsub b (or_introl eq_refl)) as (d & [E|Hd] & Hn).
        -- subst d. rewrite Hn, ltb_irrefl in Hab, Hba. discriminate.
        -- specialize (Ha d Hd). rewrite Hn in Ha. congruence.
      * pose proof (ltb_total _ _ Hab Hba) as Heq.
        rewrite (pinned_entries_skip b rb ra).
        2:{ intros d Hd. rewrite <- Heq. apply ltb_neq. now apply Ha. }
        destruct b as [n m]. cbn [fst] in Heq, Hb. subst n.
        rewrite spec_lookup_head. cbn [app]. f_equal. apply IH; try assumption.
        intros e He. destruct (Hsub e (or_intror He)) as (d & [E|Hd] & Hn);
          [|eauto].
        subst d. exfalso. specialize (Hb e He).
        rewrite <- Hn, ltb_irrefl in Hb. discriminate.
Qed.

Lemma pinned_entries_children (spec : Spec) (dims : list Dimension.t) :
  List.length (child_entries (pinned_entries spec dims))
  = List.length (filter (child_pinned spec) dims).
Proof.
  unfold child_entries, pinned_entries.
  induction dims as [|d dims IH]; [reflexivity|].
  cbn [flat_map filter]. rewrite filter_app, length_app, IH.
  unfold child_pinned at 2.
  destruct (spec_lookup (Dimension.name d) spec) as [[c|l]|]; reflexivity.
Qed.

Lemma pinned_entries_length (spec : Spec) (dims : list Dimension.t) :
  (List.length (pinned_entries spec dims) <= List.length dims)%nat.
Proof.
  unfold pinned_entries. induction dims as [|d dims IH]; [cbn; lia|].
  cbn [flat_map]. rewrite length_app. cbn [List.length].
  destruct (spec_lookup (Dimension.name d) spec); cbn [List.length]; lia.
Qed.

Lemma count_children_from (spec : Spec) :
  forall acc,
    0 <= acc -> acc + Z.of_nat (List.length spec) < SizeT.modulus ->
    fold_left
      (fun num_children e =>
         if holds_child (snd e) then SizeT.add num_children 1 else num_children)
      spec acc
    = acc + Z.of_nat (List.length (child_entries spec)).
Proof.
  unfold child_entries.
  induction spec as [|e spec IH]; intros acc H0 Hb; [cbn; lia|].
  cbn [List.length] in Hb. cbn [fold_left filter].
  destruct (holds_child (snd e)).
  - unfold SizeT.add. rewrite wrap_small by lia.
    rewrite IH by lia. cbn [List.length]. lia.
  - rewrite IH by lia. reflexivity.
Qed.

Lemma dense_roles_children (spec : Spec) (zdims : list (Dimension.t * (Z * Z))) :
  forall p,
    List.length (DensePlan.children (dense_roles spec zdims p))
    = (List.length (DensePlan.children p)
       + List.length (filter (child_pinned spec) (map fst zdims)))%nat.
Proof.
  induction zdims as [|z rest IH]; intros p; [cbn; lia|].
  rewrite dense_roles_cons, IH. cbn [map filter].
  unfold dense_step, child_pinned at 2.
  destruct (spec_lookup (Dimension.name (fst z)) spec) as [[c|[n|i]]|];
    cbn [DensePlan.children List.length]; try lia.
  rewrite length_app. cbn [List.length]. lia.
Qed.

Lemma pinned_specs_children (indexed : bool) (spec : Spec)
  (dims : list Dimension.t) :
  List.length (filter DimSpec.has_child (pinned_specs indexed spec dims))
  = List.length (filter (child_pinned spec) (dims_of_kind indexed dims)).
Proof.
  unfold dims_of_kind.
  induction dims as [|d dims IH]; [reflexivity|].
  rewrite pinned_specs_cons, filter_app, length_app, IH. cbn [filter].
  destruct (Bool.eqb (Dimension.is_indexed d) indexed); [|reflexivity].
  cbn [filter]. unfold child_pinned at 2.
  destruct (spec_lookup (Dimension.name d) spec) as [[c|l]|]; reflexivity.
Qed.

Lemma filter_by_kind (f : Dimension.t -> bool) (dims : list Dimension.t) :
  List.length (filter f dims)
  = (List.length (filter f (dims_of_kind true dims))
     + List.length (filter f (dims_of_kind false dims)))%nat.
Proof.
  unfold dims_of_kind. induction dims as [|d dims IH]; [reflexivity|].
  cbn [filter].
  destruct (Dimension.is_indexed d), (f d) eqn:F;
    cbn [Bool.eqb filter]; rewrite ?F; cbn [List.length]; lia.
Qed.

(** X7. For a well-typed operation [num_children] is the number of
    specification entries that hold a child reference, and each of them is
    used by exactly one plan: that number is the number of children of the
    dense plan plus the number of lookup specs of the sparse plan that hold
    a child. *)
Theorem children_accounted (input_type res_type : ValueType.t) (spec : Spec)
  (param : PeekParam.t) :
  well_typed input_type res_type spec ->
  PeekParam.ctor input_type res_type spec = Ok param ->
  PeekParam.num_children param = Z.of_nat (List.length (child_entries spec))
  /\ PeekParam.num_children param
     = Z.of_nat (List.length (DensePlan.children (PeekParam.dense_plan param)))
       + Z.of_nat (List.length
                     (filter DimSpec.has_child
                        (SparsePlan.lookup_specs (PeekParam.sparse_plan param)))).
Proof.
  intros Hwt Hctor.
  destruct (PeekParam_ctor_sorted _ _ _ Hwt) as [Hparam _].
  rewrite Hparam in Hctor. inversion Hctor. subst param. clear Hctor Hparam.
  destruct Hwt as [Hd Hs Hf Hres Hcnt].
  set (dims := ValueType.dimensions input_type) in *.
  pose proof (spec_recovered dims spec Hd Hs (spec_fits_names dims spec Hf))
    as Hrec.
  pose proof (pinned_entries_length spec dims) as Hlen. rewrite Hrec in Hlen.
  assert (Hnum : count_children spec
                 = Z.of_nat (List.length (child_entries spec))).
  { unfold count_children. rewrite count_children_from; lia. }
  unfold peek_param. fold dims.
  cbn [PeekParam.num_children PeekParam.dense_plan PeekParam.sparse_plan
       SparsePlan.lookup_specs].
  split; [exact Hnum|]. rewrite Hnum.
  rewrite dense_roles_children, dense_zip_fst, pinned_specs_children.
  cbn [dense_init DensePlan.children List.length].
  rewrite <- Hrec at 1. rewrite pinned_entries_children.
  rewrite (filter_by_kind (child_pinned spec) dims). lia.
Qed.

(** ** The plans, dimension by dimension *)

Lemma dense_roles_parts (spec : Spec) (zdims : list (Dimension.t * (Z * Z))) :
  forall p,
    List.length (DensePlan.loop_cnt p) = List.length (DensePlan.in_stride p) ->
    free_pairs (dense_roles spec zdims p) = free_pairs p ++ dense_free spec zdims
    /\ DensePlan.children (dense_roles spec zdims p)
       = DensePlan.children p ++ dense_children spec zdims.
Proof.
  unfold dense_free, dense_children.
  induction zdims as [|z rest IH]; intros p Hlen.
  - cbn. now rewrite !app_nil_r.
  - rewrite dense_roles_cons. cbn [filter flat_map].
    unfold unpinned at 1, pinned_by, dense_step.
    destruct (spec_lookup (Dimension.name (fst z)) spec) as [[c|[n|i]]|];
      cbn [negb map app].
    + destruct (IH (DensePlan.mk (DensePlan.in_dense_size p)
                      (DensePlan.out_dense_size p) (DensePlan.loop_cnt p)
                      (DensePlan.in_stride p) (DensePlan.verbatim_offset p)
                      (DensePlan.children p
                       ++ [DensePlan.mkChild c (snd (snd z)) (fst (snd z))])))
        as [F C]; [exact Hlen|].
      rewrite F, C. cbn [DensePlan.children]. unfold free_pairs.
      cbn [DensePlan.loop_cnt DensePlan.in_stride].
      now rewrite <- app_assoc.
    + now apply IH.
    + destruct (IH (DensePlan.mk (DensePlan.in_dense_size p)
                      (DensePlan.out_dense_size p) (DensePlan.loop_cnt p)
                      (DensePlan.in_stride p)
                      (SizeT.add (DensePlan.verbatim_offset p)
                         (SizeT.mul (Z.of_N i) (snd (snd z))))
                      (DensePlan.children p))) as [F C]; [exact Hlen|].
      rewrite F, C. split; reflexivity.
    + destruct (IH (DensePlan.mk (DensePlan.in_dense_size p)
                      (SizeT.mul (DensePlan.out_dense_size p) (fst (snd z)))
                      (DensePlan.loop_cnt p ++ [fst (snd z)])
                      (DensePlan.in_stride p ++ [snd (snd z)])
                      (DensePlan.verbatim_offset p) (DensePlan.children p)))
        as [F C].
      { cbn [DensePlan.loop_cnt DensePlan.in_stride]. rewrite !length_app.
        cbn [List.length]. lia. }
      rewrite F, C. unfold free_pairs.
      cbn [DensePlan.loop_cnt DensePlan.in_stride DensePlan.children].
      rewrite combine_snoc by exact Hlen. rewrite <- app_assoc. cbn [app].
      split; [|reflexivity]. do 2 f_equal. now destruct z as [d [n st]].
Qed.

Lemma dense_roles_verbatim (spec : Spec) (zdims : list (Dimension.t * (Z * Z))) :
  forall p,
    good_pairs (map snd zdims) ->
    Forall (dense_entry_ok spec) zdims ->
    0 <= DensePlan.verbatim_offset p ->
    DensePlan.verbatim_offset p + reach (map snd zdims) < SizeT.modulus ->
    DensePlan.verbatim_offset (dense_roles spec zdims p)
    = DensePlan.verbatim_offset p + literal_sum spec zdims
    /\ 0 <= literal_sum spec zdims <= reach (map snd zdims).
Proof.
  induction zdims as [|[d [size_i stride_i]] rest IH]; intros p Hg Hok Hv Hb.
  - cbn. lia.
  - cbn [map snd] in Hg, Hb |- *. inversion Hg as [|? ? [Hs Ht] Hg']; subst.
    inversion Hok as [|? ? Hz Hok']; subst.
    cbn [fst snd] in Hs, Ht. rewrite reach_cons in Hb |- *.
    pose proof (reach_nonneg _ Hg') as Hr.
    assert (Hfirst : 0 <= (size_i - 1) * stride_i) by nia.
    rewrite dense_roles_cons, literal_sum_cons.
    unfold dense_entry_ok in Hz. unfold dense_step, label_index.
    cbn [fst snd] in Hz |- *.
    destruct (spec_lookup (Dimension.name d) spec) as [[c|[n|i]]|];
      try contradiction.
    + destruct (IH (DensePlan.mk (DensePlan.in_dense_size p)
                      (DensePlan.out_dense_size p) (DensePlan.loop_cnt p)
                      (DensePlan.in_stride p) (DensePlan.verbatim_offset p)
                      (DensePlan.children p
                       ++ [DensePlan.mkChild c stride_i size_i])))
        as [IH1 IH2];
        [exact Hg' | exact Hok' | exact Hv
         | cbn [DensePlan.verbatim_offset]; lia |].
      rewrite IH1. cbn [DensePlan.verbatim_offset]. split; [ring | lia].
    + assert (Hp : 0 <= Z.of_N i * stride_i <= (size_i - 1) * stride_i) by nia.
      assert (Hnew : SizeT.add (DensePlan.verbatim_offset p)
                       (SizeT.mul (Z.of_N i) stride_i)
                     = DensePlan.verbatim_offset p + Z.of_N i * stride_i).
      { unfold SizeT.add, SizeT.mul.
        rewrite (wrap_small (Z.of_N i * stride_i)) by lia.
        apply wrap_small. lia. }
      destruct (IH (DensePlan.mk (DensePlan.in_dense_size p)
                      (DensePlan.out_dense_size p) (DensePlan.loop_cnt p)
                      (DensePlan.in_stride p)
                      (SizeT.add (DensePlan.verbatim_offset p)
                         (SizeT.mul (Z.of_N i) stride_i))
                      (DensePlan.children p)))
        as [IH1 IH2];
        [exact Hg' | exact Hok'
         | cbn [DensePlan.verbatim_offset]; rewrite Hnew; lia
         | cbn [DensePlan.verbatim_offset]; rewrite Hnew; lia |].
      rewrite IH1. cbn [DensePlan.verbatim_offset]. rewrite Hnew.
      split; [ring | lia].
    + destruct (IH (DensePlan.mk (DensePlan.in_dense_size p)
                      (SizeT.mul (DensePlan.out_dense_size p) size_i)
                      (DensePlan.loop_cnt p ++ [size_i])
                      (DensePlan.in_stride p ++ [stride_i])
                      (DensePlan.verbatim_offset p) (DensePlan.children p)))
        as [IH1 IH2];
        [exact Hg' | exact Hok' | exact Hv
         | cbn [DensePlan.verbatim_offset]; lia |].
      rewrite IH1. cbn [DensePlan.verbatim_offset]. split; [ring | lia].
Qed.

(** X8. For a well-typed type and specification the dense constructor
    returns the plan one reads off the indexed dimensions in name order: a
    (size, stride) loop entry for every dimension the specification leaves
    free, a child with the dimension's stride and with its size as limit
    for every dimension pinned by a child reference and, when the dense
    block is addressable, the sum of literal index times stride as
    [verbatim_offset], every stride being the dimension's row-major stride
    among all indexed dimensions. *)
Theorem dense_plan_by_lookup (dims : list Dimension.t) (spec : Spec) :
  dims_sorted dims -> spec_sorted spec -> spec_fits dims spec ->
  exists p,
    DensePlan.ctor dims spec = Ok p
    /\ free_pairs p = dense_free spec (dense_zip dims)
    /\ DensePlan.children p = dense_children spec (dense_zip dims)
    /\ (dense_addressable dims ->
        DensePlan.verbatim_offset p = literal_sum spec (dense_zip dims)
        /\ dense_zip dims
           = combine (dims_of_kind true dims)
               (combine (ValueType.indexed_sizes dims)
                  (exact_strides (ValueType.indexed_sizes dims)))).
Proof.
  intros Hd Hs Hf. eexists. split; [now apply DensePlan_ctor_sorted|].
  destruct (dense_roles_parts spec (dense_zip dims) (dense_init dims) eq_refl)
    as [F C].
  split; [exact F|]. split; [exact C|].
  intros [Hpos Hfit]. unfold Int64.max_value in Hfit.
  set (sizes := ValueType.indexed_sizes dims) in *.
  assert (Hmod : list_product sizes < SizeT.modulus) by (rewrite modulus_eq; lia).
  assert (Hzip : dense_zip dims
                 = combine (dims_of_kind true dims)
                     (combine sizes (exact_strides sizes))).
  { unfold dense_zip. fold sizes. now rewrite (fill_exact sizes Hpos Hmod). }
  split; [|exact Hzip].
  pose proof (dense_zip_ok dims spec Hd Hf) as Hok.
  assert (Hlen : List.length (dims_of_kind true dims)
                 = List.length (combine sizes (exact_strides sizes))).
  { rewrite length_combine, exact_strides_length, Nat.min_id.
    unfold sizes. rewrite <- indexed_sizes_of_kind.
    symmetry. apply indexed_sizes_length, dims_of_kind_indexed. }
  destruct (dense_roles_verbatim spec (dense_zip dims) (dense_init dims))
    as [V _].
  - rewrite Hzip, (map_snd_combine_eq _ _ Hlen). now apply good_exact.
  - exact Hok.
  - cbn. lia.
  - rewrite Hzip, (map_snd_combine_eq _ _ Hlen), reach_exact by exact Hpos.
    cbn. lia.
  - rewrite V. cbn. reflexivity.
Qed.

Lemma sparse_roles_positions (spec : Spec) (dims : list Dimension.t) :
  forall (start : nat) out view,
    Z.of_nat start + Z.of_nat (List.length dims) < SizeT.modulus ->
    snd (snd (sparse_roles spec dims (Z.of_nat start, (out, view))))
    = view ++ map Z.of_nat (positions (pinned_by spec) dims start).
Proof.
  induction dims as [|d rest IH]; intros start out view Hb.
  - cbn. now rewrite app_nil_r.
  - cbn [List.length] in Hb. rewrite sparse_roles_cons. unfold sparse_step.
    cbn [fst snd positions].
    assert (Hnext : SizeT.add (Z.of_nat start) 1 = Z.of_nat (S start))
      by (unfold SizeT.add; rewrite wrap_small; lia).
    rewrite Hnext. destruct (pinned_by spec d).
    + rewrite IH by lia. rewrite <- app_assoc. reflexivity.
    + rewrite IH by lia. reflexivity.
Qed.

Lemma positions_names (f : Dimension.t -> bool) (l : list Dimension.t) :
  forall pre : list Dimension.t,
    map (fun pos => option_map Dimension.name (nth_error (pre ++ l) pos))
      (positions f l (List.length pre))
    = map (fun d => Some (Dimension.name d)) (filter f l).
Proof.
  induction l as [|d l IH]; intros pre; [reflexivity|].
  cbn [positions filter]. rewrite map_app.
  replace (S (List.length pre)) with (List.length (pre ++ [d]))
    by (rewrite length_app; cbn; lia).
  replace (pre ++ d :: l) with ((pre ++ [d]) ++ l)
    by (now rewrite <- app_assoc).
  rewrite IH. destruct (f d); [|reflexivity].
  cbn [map app]. f_equal.
  rewrite <- app_assoc. cbn [app].
  rewrite nth_error_app2 by lia. now rewrite Nat.sub_diag.
Qed.

Lemma pinned_specs_mapped_names (spec : Spec) (dims : list Dimension.t) :
  map (fun ds => Some (DimSpec.name ds)) (pinned_specs false spec dims)
  = map (fun d => Some (Dimension.name d))
      (filter (pinned_by spec) (dims_of_kind false dims)).
Proof.
  unfold dims_of_kind. induction dims as [|d dims IH]; [reflexivity|].
  rewrite pinned_specs_cons, map_app, IH. cbn [filter].
  destruct (Bool.eqb (Dimension.is_indexed d) false); [|reflexivity].
  cbn [filter]. unfold pinned_by at 2.
  destruct (spec_lookup (Dimension.name d) spec); reflexivity.
Qed.

(** X9. For a type and a specification in name order, with every name
    known, the sparse plan's view dimensions line up with its lookup specs:
    the i-th view dimension is the position, among the mapped dimensions of
    the type, of the dimension the i-th lookup spec pins, so that the i-th
    key is matched against that dimension's label; the output mapped
    dimensions are the mapped dimensions left unpinned. *)
Theorem view_dims_aligned (dims : list Dimension.t) (spec : Spec) :
  dims_sorted dims -> spec_sorted spec -> names_known dims spec ->
  Z.of_nat (List.length dims) < SizeT.modulus ->
  exists plan,
    SparsePlan.ctor dims spec = Ok plan
    /\ map (fun v => option_map Dimension.name
                       (nth_error (dims_of_kind false dims) (Z.to_nat v)))
         (SparsePlan.view_dims plan)
       = map (fun ds => Some (DimSpec.name ds)) (SparsePlan.lookup_specs plan)
    /\ SparsePlan.view_dims plan
       = map Z.of_nat (positions (pinned_by spec) (dims_of_kind false dims) 0)
    /\ SparsePlan.out_mapped_dims plan
       = Z.of_nat (List.length (filter (unpinned spec) (dims_of_kind false dims))).
Proof.
  intros Hd Hs Hn Hcnt. eexists. split; [now apply SparsePlan_ctor_known|].
  cbn [SparsePlan.view_dims SparsePlan.lookup_specs SparsePlan.out_mapped_dims].
  pose proof (filter_length_le (fun d => Bool.eqb (Dimension.is_indexed d) false)
                dims) as Hle.
  fold (dims_of_kind false dims) in Hle.
  change (0, (0, @nil Z)) with (Z.of_nat 0, (0, @nil Z)).
  rewrite sparse_roles_positions by lia. cbn [app].
  split; [|split; [reflexivity|]].
  - rewrite map_map, pinned_specs_mapped_names.
    rewrite <- (positions_names (pinned_by spec) (dims_of_kind false dims) []).
    cbn [app List.length]. apply map_ext. intros pos. now rewrite Nat2Z.id.
  - rewrite sparse_roles_out; cbn [fst snd]; lia.
Qed.

(** * Further properties of the execution *)

(** ** The copy fills the output subspace exactly *)

Lemma classify_product (dims : list (Dimension.t * (Z * Z))) :
  forall pos p p',
    DensePlan.classify dims pos p = Ok p' ->
    Forall (fun z => 1 <= fst (snd z)) dims ->
    1 <= list_product (DensePlan.loop_cnt p) ->
    Forall (fun n => 1 <= n) (DensePlan.loop_cnt p) ->
    Forall (fun n => 1 <= n) (DensePlan.loop_cnt p')
    /\ 1 <= list_product (DensePlan.loop_cnt p')
         <= list_product (DensePlan.loop_cnt p)
            * list_product (map (fun z => fst (snd z)) dims).
Proof.
  induction dims as [|[dim [size_i stride_i]] rest IH]; intros pos p p' Hc Hz Hp Hall.
  - cbn [DensePlan.classify] in Hc. assert_ok Hc as E. inversion Hc; subst p'.
    cbn. split; [exact Hall | lia].
  - inversion Hz as [|? ? Hs Hz']; subst. cbn [fst snd] in Hs.
    pose proof (list_product_pos (map (fun z => fst (snd z)) rest)) as Hrest.
    assert (Hrest' : 1 <= list_product (map (fun z : Dimension.t * (Z * Z) =>
                                               fst (snd z)) rest)).
    { apply Hrest. apply Forall_forall. intros n Hn. apply in_map_iff in Hn.
      destruct Hn as (z & E & Hin). subst n. rewrite Forall_forall in Hz'.
      now apply Hz'. }
    cbn [map list_product fold_right fst snd].
    fold (list_product (map (fun z : Dimension.t * (Z * Z) => fst (snd z)) rest)).
    assert (Hfree : forall pos0,
               DensePlan.classify rest pos0
                 (DensePlan.mk (DensePlan.in_dense_size p)
                    (SizeT.mul (DensePlan.out_dense_size p) size_i)
                    (DensePlan.loop_cnt p ++ [size_i])
                    (DensePlan.in_stride p ++ [stride_i])
                    (DensePlan.verbatim_offset p) (DensePlan.children p)) = Ok p' ->
               Forall (fun n => 1 <= n) (DensePlan.loop_cnt p')
               /\ 1 <= list_product (DensePlan.loop_cnt p')
                    <= list_product (DensePlan.loop_cnt p)
                       * (size_i
                          * list_product (map (fun z : Dimension.t * (Z * Z) =>
                                                 fst (snd z)) rest))).
    { intros pos0 H0. apply IH in H0; try assumption;
        cbn [DensePlan.loop_cnt] in *.
      - rewrite list_product_app in H0. cbn [list_product fold_right] in H0.
        destruct H0 as [F B]. split; [exact F | nia].
      - rewrite list_product_app. cbn [list_product fold_right]. nia.
      - apply Forall_app. split; [exact Hall | now constructor]. }
    cbn [DensePlan.classify] in Hc.
    destruct pos as [|here pos']; [now apply Hfree in Hc|].
    destruct (String.ltb (Dimension.name dim) (DimSpec.name here));
      [now apply Hfree in Hc|].
    assert_ok Hc as E0. destruct (DimSpec.has_child here).
    + bind_ok Hc as E1. apply IH in Hc; try assumption.
      cbn [DensePlan.loop_cnt] in Hc. destruct Hc as [F B]. split; [exact F | nia].
    + assert_ok Hc as E3. bind_ok Hc as E1. assert_ok Hc as E2.
      apply IH in Hc; try assumption.
      cbn [DensePlan.loop_cnt] in Hc. destruct Hc as [F B]. split; [exact F | nia].
Qed.

Lemma map_middle_combine {A B C : Type} (l1 : list A) (l2 : list B)
  (l3 : list C) :
  List.length l1 = List.length l2 -> List.length l3 = List.length l2 ->
  map (fun z : A * (B * C) => fst (snd z)) (combine l1 (combine l2 l3)) = l2.
Proof.
  revert l1 l3. induction l2 as [|b l2 IH]; intros [|a l1] [|c l3] H1 H3;
    simpl in *; try discriminate; [reflexivity|].
  f_equal. apply IH; congruence.
Qed.

Lemma map_fst_max (l : list (Z * Z)) :
  Forall (fun n => 1 <= n) (map fst l) ->
  map (fun cs : Z * Z => Z.max 0 (fst cs)) l = map fst l.
Proof.
  induction l as [|[c s] l IH]; intros H; [reflexivity|].
  inversion H as [|? ? Hc Hl]; subst. cbn [map fst] in *.
  rewrite IH by exact Hl. f_equal. lia.
Qed.

(** What construction gives the copy, for an addressable dense block. *)
Lemma execute_count (dims : list Dimension.t) (spec : Spec) (p : DensePlan.t) :
  dense_addressable dims ->
  DensePlan.ctor dims spec = Ok p ->
  DensePlan.out_dense_size p = list_product (DensePlan.loop_cnt p)
  /\ 1 <= DensePlan.out_dense_size p <= DensePlan.in_dense_size p
  /\ forall offset,
       Z.of_nat (List.length (DensePlan.execute p offset))
       = DensePlan.out_dense_size p.
Proof.
  intros Hadd Hctor.
  destruct (DensePlan_ctor_inv dims spec p Hadd Hctor) as (G & R & I & C).
  destruct G as (Hv & Hch & Hfr & Hlen).
  destruct Hadd as [Hpos Hfit]. unfold Int64.max_value in Hfit.
  set (sizes := ValueType.indexed_sizes dims) in *.
  assert (Hmod : list_product sizes < SizeT.modulus) by (rewrite modulus_eq; lia).
  pose proof Hctor as Hc. unfold DensePlan.ctor in Hc. bind_ok Hc as Em.
  apply ExtractedSpecs_dimensions in Em. rewrite Em in Hc.
  rewrite DenseSizes_ctor_indexed in Hc by apply dims_of_kind_indexed.
  rewrite indexed_sizes_of_kind in Hc. fold sizes in Hc.
  rewrite (fill_exact sizes Hpos Hmod) in Hc.
  cbn [bind fst snd DenseSizes.size DenseSizes.stride DenseSizes.cur_size] in Hc.
  assert (Hl : List.length (dims_of_kind true dims)
               = List.length (combine sizes (exact_strides sizes))).
  { rewrite length_combine, exact_strides_length, Nat.min_id.
    unfold sizes. rewrite <- indexed_sizes_of_kind.
    symmetry. apply indexed_sizes_length, dims_of_kind_indexed. }
  assert (Hms : map (fun z : Dimension.t * (Z * Z) => fst (snd z))
                  (combine (dims_of_kind true dims)
                     (combine sizes (exact_strides sizes))) = sizes).
  { apply map_middle_combine; [|apply exact_strides_length].
    unfold sizes. rewrite <- indexed_sizes_of_kind.
    symmetry. apply indexed_sizes_length, dims_of_kind_indexed. }
  pose proof (classify_shape _ _ _ _ Hc) as
    (cnts & strides & cs & L & S & Hcl & O & _).
  apply classify_product in Hc.
  2:{ apply Forall_forall. intros z Hz.
      assert (Hin : In (fst (snd z)) sizes).
      { rewrite <- Hms.
        exact (in_map (fun z : Dimension.t * (Z * Z) => fst (snd z)) _ z Hz). }
      rewrite Forall_forall in Hpos. now apply Hpos. }
  2:{ cbn. lia. }
  2:{ constructor. }
  rewrite Hms in Hc. cbn [DensePlan.loop_cnt list_product fold_right] in Hc.
  destruct Hc as [Hcnt Hprod].
  assert (Hout : DensePlan.out_dense_size p = list_product (DensePlan.loop_cnt p)).
  { rewrite O, L. cbn [DensePlan.out_dense_size DensePlan.loop_cnt app].
    fold (SizeT.product cnts). rewrite product_wrap. apply wrap_small.
    rewrite L in Hprod. cbn [DensePlan.loop_cnt app] in Hprod. lia. }
  split; [exact Hout|]. split; [rewrite Hout, I; fold sizes; lia|].
  intros offset. unfold DensePlan.execute. rewrite run_nested_loop_length.
  rewrite map_fst_max.
  - rewrite map_fst_combine_eq by exact Hlen. now rewrite Hout.
  - now rewrite map_fst_combine_eq by exact Hlen.
Qed.

(** X10. For every plan constructed for an addressable dense block the
    nested loop hands the visitor exactly [out_dense_size] indices, the
    exact product of the loop counts, at least one and at most
    [in_dense_size]: the copy writes as many cells as the builder allots to
    a subspace, no more and no fewer. *)
Theorem execute_fills_subspace (dims : list Dimension.t) (spec : Spec)
  (p : DensePlan.t) (offset : Z) :
  dense_addressable dims ->
  DensePlan.ctor dims spec = Ok p ->
  Z.of_nat (List.length (DensePlan.execute p offset))
  = DensePlan.out_dense_size p
  /\ DensePlan.out_dense_size p = list_product (DensePlan.loop_cnt p)
  /\ 1 <= DensePlan.out_dense_size p <= DensePlan.in_dense_size p.
Proof.
  intros Hadd Hctor.
  destruct (execute_count dims spec p Hadd Hctor) as (Hout & Hb & Hlen).
  split; [apply Hlen|]. split; assumption.
Qed.

(** ** The operation returns a value *)

Lemma lookup_ordinals (index : list (list string)) (view_dims : list Z)
  (keys : list string) (found : list string * Z) :
  In found (Value.lookup index view_dims keys) ->
  0 <= snd found < Z.of_nat (List.length index).
Proof.
  unfold Value.lookup. intros H. apply in_flat_map in H.
  destruct H as ([k addr] & Hin & Hf). cbn [fst snd] in Hf.
  apply in_combine_l in Hin. apply in_seq in Hin.
  destruct (Value.matches view_dims keys addr); [|contradiction].
  destruct Hf as [E|[]]. subst found. cbn [snd]. lia.
Qed.

Lemma lookup_addresses (index : list (list string)) (view_dims : list Z)
  (keys : list string) :
  map fst (Value.lookup index view_dims keys)
  = map (Value.rest_of view_dims)
      (filter (Value.matches view_dims keys) index).
Proof.
  unfold Value.lookup. generalize 0%nat as start.
  induction index as [|addr index IH]; intros start; [reflexivity|].
  cbn [List.length seq combine flat_map filter fst snd].
  rewrite map_app, IH.
  now destruct (Value.matches view_dims keys addr).
Qed.

Section Returns.
Context {ICT OCT : Type}.
Variable convert : ICT -> OCT.
Variable zero : OCT.

Lemma mapM_read_block (cells : list ICT) (l : list Z) :
  (forall idx, In idx l -> 0 <= idx < Z.of_nat (List.length cells)) ->
  exists dst,
    mapM (fun idx => c <- Value.read cells idx ;; Ok (convert c)) l = Ok dst
    /\ List.length dst = List.length l
    /\ Forall (fun c => c = zero \/ exists x, In x cells /\ c = convert x) dst.
Proof.
  induction l as [|idx l IH]; intros H.
  - exists []. repeat split. constructor.
  - destruct IH as (dst & Hm & Hl & Hf); [intros i Hi; apply H; now right|].
    specialize (H idx (or_introl eq_refl)).
    destruct (nth_error cells (Z.to_nat idx)) as [x|] eqn:E.
    2:{ apply nth_error_None in E. lia. }
    exists (convert x :: dst). cbn [mapM]. unfold Value.read at 1.
    rewrite E. cbn [bind]. rewrite Hm. cbn [bind List.length].
    repeat split; [now rewrite Hl|].
    constructor; [|exact Hf]. right. exists x. split; [|reflexivity].
    eapply nth_error_In. exact E.
Qed.

Lemma copy_block (dims : list Dimension.t) (spec : Spec) (p : DensePlan.t)
  (input : Value.t ICT) (offset : Z) (found : list string * Z) :
  dense_addressable dims ->
  DensePlan.ctor dims spec = Ok p ->
  0 <= offset ->
  offset + reach (free_pairs p) < DensePlan.in_dense_size p ->
  0 <= snd found ->
  (snd found + 1) * DensePlan.in_dense_size p
    <= Z.of_nat (List.length (Value.cells input)) ->
  Z.of_nat (List.length (Value.cells input)) < SizeT.modulus ->
  exists dst,
    copy_subspace convert input p offset found = Ok (fst found, dst)
    /\ subspace_from convert zero (Value.cells input)
         (DensePlan.out_dense_size p) (fst found, dst).
Proof.
  intros Hadd Hctor H0 Hb Hk Hblock Hfit.
  destruct (DensePlan_ctor_inv dims spec p Hadd Hctor) as (G & R & I & C).
  destruct G as (Hv & Hch & Hfr & Hlen).
  destruct (execute_count dims spec p Hadd Hctor) as (Hout & Hob & Hcount).
  pose proof (reach_nonneg _ Hfr) as Hrf.
  unfold copy_subspace.
  assert (Hbase : SizeT.add offset
                    (SizeT.mul (snd found) (DensePlan.in_dense_size p))
                  = offset + snd found * DensePlan.in_dense_size p).
  { unfold SizeT.add, SizeT.mul.
    rewrite (wrap_small (snd found * DensePlan.in_dense_size p)) by nia.
    apply wrap_small. nia. }
  rewrite Hbase.
  destruct (mapM_read_block (Value.cells input)
              (DensePlan.execute p
                 (offset + snd found * DensePlan.in_dense_size p)))
    as (dst & Hm & Hl & Hf).
  - intros idx Hidx. unfold DensePlan.execute in Hidx.
    fold (free_pairs p) in Hidx.
    apply run_nested_loop_bounds in Hidx; try assumption; nia.
  - exists dst. rewrite Hm. cbn [bind]. split; [reflexivity|].
    split; [|exact Hf]. cbn [snd]. now rewrite Hl, Hcount.
Qed.

Lemma mapM_copy (dims : list Dimension.t) (spec : Spec) (p : DensePlan.t)
  (input : Value.t ICT) (offset : Z) (founds : list (list string * Z)) :
  dense_addressable dims ->
  DensePlan.ctor dims spec = Ok p ->
  0 <= offset ->
  offset + reach (free_pairs p) < DensePlan.in_dense_size p ->
  Z.of_nat (List.length (Value.cells input)) < SizeT.modulus ->
  (forall found, In found founds ->
     0 <= snd found
     /\ (snd found + 1) * DensePlan.in_dense_size p
        <= Z.of_nat (List.length (Value.cells input))) ->
  exists filled,
    mapM (copy_subspace convert input p offset) founds = Ok filled
    /\ map fst filled = map fst founds
    /\ Forall (subspace_from convert zero (Value.cells input)
                 (DensePlan.out_dense_size p)) filled.
Proof.
  intros Hadd Hctor H0 Hb Hfit.
  induction founds as [|found founds IH]; intros Hall.
  - exists []. repeat split. constructor.
  - destruct IH as (filled & Hm & Ha & Hf); [intros f Hf; apply Hall; now right|].
    destruct (Hall found (or_introl eq_refl)) as [Hk Hblock].
    destruct (copy_block dims spec p input offset found Hadd Hctor H0 Hb Hk
                Hblock Hfit) as (dst & Hc & Hs).
    exists ((fst found, dst) :: filled). cbn [mapM]. rewrite Hc. cbn [bind].
    rewrite Hm. cbn [bind map fst]. repeat split.
    + now rewrite Ha.
    + now constructor.
Qed.

(** The engine on a value of the type, for a well-typed operation whose
    dense coordinates are in range. *)
Lemma peek_in_range (input_type res_type : ValueType.t) (spec : Spec)
  (input : Value.t ICT) (values : Z -> Z) :
  well_typed input_type res_type spec ->
  dense_addressable (ValueType.dimensions input_type) ->
  value_of_type (ValueType.dimensions input_type) input ->
  Forall (child_in_range values)
    (DensePlan.children
       (PeekParam.dense_plan (peek_param input_type res_type spec))) ->
  exists state filled,
    SparsePlan.make_state
      (PeekParam.sparse_plan (peek_param input_type res_type spec))
      (source values) = Ok state
    /\ map fst filled
       = map fst (Value.lookup (Value.index input)
                    (SparsePlan.view_dims
                       (PeekParam.sparse_plan
                          (peek_param input_type res_type spec)))
                    (SparseState.lookup_refs state))
    /\ Forall (subspace_from convert zero (Value.cells input)
                 (ValueType.dense_subspace_size res_type)) filled
    /\ generic_mixed_peek convert zero input
         (PeekParam.sparse_plan (peek_param input_type res_type spec))
         (PeekParam.dense_plan (peek_param input_type res_type spec))
         (source values)
       = Ok (if (ValueType.count_mapped_dimensions res_type =? 0)
                && (Z.of_nat (List.length filled) =? 0)
             then filled
                  ++ [([], repeat zero
                             (Z.to_nat (ValueType.dense_subspace_size res_type)))]
             else filled).
Proof.
  intros Hwt Hadd Hval Hin.
  destruct (PeekParam_ctor_sorted _ _ _ Hwt) as [_ Hout].
  pose proof (out_mapped_dims_result _ _ _ Hwt) as Hmapped.
  pose proof Hwt as [Hd Hs Hf Hres Hcnt].
  destruct Hval as [Hnd Hfull Hcells Hcfit].
  set (dims := ValueType.dimensions input_type) in *.
  pose proof (DensePlan_ctor_sorted dims spec Hd Hs Hf) as Hdense.
  pose proof (SparsePlan_ctor_sorted dims spec Hd Hs Hf) as Hsparse.
  unfold peek_param in *. fold dims in Hin, Hout, Hmapped |- *.
  cbn [PeekParam.dense_plan PeekParam.sparse_plan] in *.
  set (dense := dense_roles spec (dense_zip dims) (dense_init dims)) in *.
  set (sparse := SparsePlan.mk _ _ _) in *.
  destruct (make_state_sorted dims spec values sparse Hd Hs Hf Hsparse)
    as [_ Hst].
  destruct (get_offset_in_block dims spec dense values Hadd Hdense Hin)
    as (Hget & H0 & Hlt).
  destruct (DensePlan_ctor_inv dims spec dense Hadd Hdense) as (G & R & I & C).
  set (off := DensePlan.verbatim_offset dense
              + child_sum (DensePlan.children dense) values) in *.
  set (state := SparseState.ctor _ _) in Hst.
  destruct (mapM_copy dims spec dense input off
              (Value.lookup (Value.index input) (SparsePlan.view_dims sparse)
                 (SparseState.lookup_refs state)) Hadd Hdense H0 Hlt)
    as (filled & Hm & Ha & Hfl).
  - exact Hcfit.
  - intros found Hfound. apply lookup_ordinals in Hfound.
    rewrite I. fold dims in Hcells.
    assert (0 <= list_product (ValueType.indexed_sizes dims))
      by (rewrite <- I; pose proof (reach_nonneg _ (proj1 (proj2 (proj2 G)))); lia).
    split; [lia | nia].
  - exists state, filled. split; [exact Hst|]. split; [exact Ha|].
    rewrite <- Hout. split; [exact Hfl|].
    unfold generic_mixed_peek. rewrite Hget. cbn [bind].
    assert (Hnpos : (off =? SizeT.npos) = false).
    { apply Z.eqb_neq. rewrite npos_eq. destruct Hadd as [_ Hfit].
      unfold Int64.max_value in Hfit. fold dims in Hfit.
      destruct G as (_ & _ & Hfr & _). pose proof (reach_nonneg _ Hfr). lia. }
    rewrite Hnpos. cbn [negb]. rewrite Hst. cbn [bind]. rewrite Hm. cbn [bind].
    rewrite Hmapped.
    now destruct ((ValueType.count_mapped_dimensions res_type =? 0)
                  && (Z.of_nat (List.length filled) =? 0)).
Qed.

(** X11. A well-typed operation on a value of its input type, with an
    addressable dense block and [int64_t] child values, returns a value: no
    read leaves the cell array and no assertion fails. Every subspace of the
    result has [dense_subspace_size] cells of the result type, each the
    conversion of an input cell or the default, and a result type without
    mapped dimensions always gets a subspace. *)
Theorem peek_returns_value (input_type res_type : ValueType.t) (spec : Spec)
  (param : PeekParam.t) (input : Value.t ICT) (values : Z -> Z) :
  well_typed input_type res_type spec ->
  dense_addressable (ValueType.dimensions input_type) ->
  value_of_type (ValueType.dimensions input_type) input ->
  int64_source values ->
  PeekParam.ctor input_type res_type spec = Ok param ->
  exists built,
    generic_mixed_peek convert zero input (PeekParam.sparse_plan param)
      (PeekParam.dense_plan param) (source values) = Ok built
    /\ Forall (subspace_from convert zero (Value.cells input)
                 (ValueType.dense_subspace_size res_type)) built
    /\ (ValueType.count_mapped_dimensions res_type = 0 -> built <> []).
Proof.
  intros Hwt Hadd Hval Hsrc Hctor.
  destruct (PeekParam_ctor_sorted _ _ _ Hwt) as [Hparam Hout].
  rewrite Hparam in Hctor. inversion Hctor. subst param. clear Hctor.
  assert (Hdefault : subspace_from convert zero (Value.cells input)
                       (ValueType.dense_subspace_size res_type)
                       ([], repeat zero
                              (Z.to_nat (ValueType.dense_subspace_size res_type)))).
  { pose proof Hwt as [Hd Hs Hf _ _].
    destruct (execute_count _ spec _ Hadd (DensePlan_ctor_sorted _ spec Hd Hs Hf))
      as (_ & Hb & _).
    fold (PeekParam.dense_plan (peek_param input_type res_type spec)) in Hb.
    unfold peek_param in Hout. cbn [PeekParam.dense_plan] in Hout, Hb.
    rewrite Hout in Hb.
    split; cbn [snd].
    - rewrite repeat_length. lia.
    - apply Forall_forall. intros c Hc. apply repeat_spec in Hc. now left. }
  destruct (children_in_range_dec values
              (DensePlan.children
                 (PeekParam.dense_plan (peek_param input_type res_type spec))))
    as [Hin|Hex].
  - destruct (peek_in_range input_type res_type spec input values Hwt Hadd
                Hval Hin) as (state & filled & _ & _ & Hfl & Hrun).
    eexists. split; [exact Hrun|].
    destruct (ValueType.count_mapped_dimensions res_type =? 0) eqn:M;
      cbn [andb].
    + destruct (Z.of_nat (List.length filled) =? 0) eqn:F.
      * split; [apply Forall_app; split; [exact Hfl | now constructor]|].
        intros _ E. now destruct filled.
      * split; [exact Hfl|]. intros _ E. subst filled. discriminate F.
    + split; [exact Hfl|]. intros E. rewrite E in M. discriminate M.
  - assert (Hnone : nothing_filled input
                      (PeekParam.sparse_plan (peek_param input_type res_type spec))
                      (PeekParam.dense_plan (peek_param input_type res_type spec))
                      (source values)).
    { left. unfold DensePlan.get_offset. apply get_offset_from_out; try assumption.
      pose proof Hwt as [Hd Hs Hf _ _].
      destruct (DensePlan_ctor_inv _ spec _ Hadd (DensePlan_ctor_sorted _ spec Hd Hs Hf))
        as (_ & _ & I & C).
      destruct Hadd as [_ Hfit]. unfold Int64.max_value in Hfit.
      apply Forall_forall. intros c Hc. specialize (C c Hc).
      rewrite I in C. lia. }
    eexists. split; [exact (peek_nothing_filled convert zero _ _ _ _ Hnone)|].
    rewrite Hout, (out_mapped_dims_result _ _ _ Hwt).
    destruct (ValueType.count_mapped_dimensions res_type =? 0) eqn:M.
    + split; [now constructor | discriminate].
    + split; [constructor|]. intros E. rewrite E in M. discriminate M.
Qed.

(** X12. For a well-typed operation on a value of its input type, with an
    addressable dense block and dense coordinates that are all in range,
    the result has one subspace per input subspace whose labels match every
    key, at the labels of the dimensions left free: its addresses are those
    labels up to the order in which the view reports the matches. When none
    matches, the result is the one default subspace for a result type
    without mapped dimensions and has no subspace otherwise. *)
Theorem peek_subspaces_match (input_type res_type : ValueType.t) (spec : Spec)
  (param : PeekParam.t) (input : Value.t ICT) (values : Z -> Z) :
  well_typed input_type res_type spec ->
  dense_addressable (ValueType.dimensions input_type) ->
  value_of_type (ValueType.dimensions input_type) input ->
  PeekParam.ctor input_type res_type spec = Ok param ->
  Forall (child_in_range values)
    (DensePlan.children (PeekParam.dense_plan param)) ->
  exists state built,
    SparsePlan.make_state (PeekParam.sparse_plan param) (source values)
    = Ok state
    /\ generic_mixed_peek convert zero input (PeekParam.sparse_plan param)
         (PeekParam.dense_plan param) (source values) = Ok built
    /\ (filter (Value.matches (SparsePlan.view_dims (PeekParam.sparse_plan param))
                  (SparseState.lookup_refs state)) (Value.index input) <> [] ->
        Permutation (map fst built)
          (map (Value.rest_of (SparsePlan.view_dims (PeekParam.sparse_plan param)))
             (filter (Value.matches
                        (SparsePlan.view_dims (PeekParam.sparse_plan param))
                        (SparseState.lookup_refs state)) (Value.index input))))
    /\ (filter (Value.matches (SparsePlan.view_dims (PeekParam.sparse_plan param))
                  (SparseState.lookup_refs state)) (Value.index input) = [] ->
        built = if ValueType.count_mapped_dimensions res_type =? 0
                then [([], repeat zero
                             (Z.to_nat (ValueType.dense_subspace_size res_type)))]
                else []).
Proof.
  intros Hwt Hadd Hval Hctor Hin.
  destruct (PeekParam_ctor_sorted _ _ _ Hwt) as [Hparam _].
  rewrite Hparam in Hctor. inversion Hctor. subst param. clear Hctor.
  destruct (peek_in_range input_type res_type spec input values Hwt Hadd
              Hval Hin) as (state & filled & Hst & Ha & _ & Hrun).
  rewrite lookup_addresses in Ha.
  exists state. eexists. split; [exact Hst|]. split; [exact Hrun|].
  split.
  - intros Hsome.
    assert (Hne : filled <> []).
    { intros E. subst filled. cbn [map] in Ha. symmetry in Ha.
      apply map_eq_nil in Ha. contradiction. }
    destruct filled as [|f filled]; [contradiction|].
    replace (Z.of_nat (List.length (f :: filled)) =? 0) with false
      by (symmetry; apply Z.eqb_neq; cbn [List.length]; lia).
    rewrite Bool.andb_false_r, Ha. apply Permutation_refl.
  - intros Hnone. rewrite Hnone in Ha. cbn [map] in Ha.
    apply map_eq_nil in Ha. subst filled. cbn [List.length Z.of_nat app].
    rewrite Z.eqb_refl, Bool.andb_true_r. reflexivity.
Qed.
End Returns.

(** ** The order of the cells copied *)

Lemma sorted_app (l1 l2 : list Z) :
  StronglySorted Z.lt l1 -> StronglySorted Z.lt l2 ->
  (forall x y, In x l1 -> In y l2 -> x < y) ->
  StronglySorted Z.lt (l1 ++ l2).
Proof.
  induction 1 as [|a l1 Hs IH Ha]; intros H2 Hlt; [exact H2|].
  cbn [app]. constructor.
  - apply IH; [exact H2|]. intros x y Hx Hy. apply Hlt; [now right | exact Hy].
  - apply Forall_app. split; [exact Ha|].
    apply Forall_forall. intros y Hy. apply Hlt; [now left | exact Hy].
Qed.

Lemma reach_filter {A : Type} (f : A * (Z * Z) -> bool)
  (l : list (A * (Z * Z))) :
  good_pairs (map snd l) ->
  good_pairs (map snd (filter f l))
  /\ reach (map snd (filter f l)) <= reach (map snd l).
Proof.
  induction l as [|[a [c s]] l IH]; intros Hg.
  - split; [constructor | reflexivity].
  - cbn [map snd] in Hg. inversion Hg as [|? ? [Hc Hs] Hg']; subst.
    cbn [fst snd] in Hc, Hs. destruct (IH Hg') as [IHg IHr].
    cbn [filter]. destruct (f (a, (c, s))); cbn [map snd].
    + split; [constructor; [now split | exact IHg]|].
      rewrite !reach_cons. lia.
    + split; [exact IHg|]. rewrite reach_cons. nia.
Qed.

Lemma nested_filter {A : Type} (f : A * (Z * Z) -> bool)
  (l : list (A * (Z * Z))) :
  good_pairs (map snd l) -> nested (map snd l) ->
  nested (map snd (filter f l)).
Proof.
  induction l as [|[a [c s]] l IH]; intros Hg Hn; [exact I|].
  cbn [map snd] in Hg, Hn. inversion Hg as [|? ? _ Hg']; subst.
  destruct Hn as [Hr Hn]. cbn [snd] in Hr.
  cbn [filter]. destruct (f (a, (c, s))); cbn [map snd nested].
  - split; [|now apply IH]. cbn [snd].
    destruct (reach_filter f l Hg') as [_ Hle]. lia.
  - now apply IH.
Qed.

Lemma nested_exact (sizes : list Z) :
  Forall (fun n => 1 <= n) sizes ->
  nested (combine sizes (exact_strides sizes)).
Proof.
  induction 1 as [|s rest Hs Hrest IH]; [exact I|].
  cbn [exact_strides combine nested snd]. split; [|exact IH].
  rewrite reach_exact by exact Hrest. lia.
Qed.

Lemma run_nested_loop_sorted (loop : list (Z * Z)) :
  forall idx,
    good_pairs loop -> nested loop ->
    0 <= idx -> idx + reach loop < SizeT.modulus ->
    StronglySorted Z.lt (run_nested_loop idx loop).
Proof.
  induction loop as [|[cnt stride] inner IH]; intros idx Hg Hn H0 Hb.
  - repeat constructor.
  - inversion Hg as [|? ? [Hc Hs] Hg']; subst. cbn [fst snd] in Hc, Hs.
    destruct Hn as [Hr Hn]. cbn [snd] in Hr.
    rewrite reach_cons in Hb. pose proof (reach_nonneg _ Hg') as Hri.
    cbn [run_nested_loop].
    assert (Hblock : forall i, (i < Z.to_nat cnt)%nat ->
              SizeT.add idx (SizeT.mul (Z.of_nat i) stride)
              = idx + Z.of_nat i * stride).
    { intros i Hi. unfold SizeT.add, SizeT.mul.
      rewrite (wrap_small (Z.of_nat i * stride)) by nia.
      apply wrap_small. nia. }
    assert (H : forall n start, (start + n <= Z.to_nat cnt)%nat ->
              StronglySorted Z.lt
                (flat_map (fun i => run_nested_loop
                             (SizeT.add idx (SizeT.mul (Z.of_nat i) stride))
                             inner) (seq start n))
              /\ forall x,
                   In x (flat_map (fun i => run_nested_loop
                             (SizeT.add idx (SizeT.mul (Z.of_nat i) stride))
                             inner) (seq start n)) ->
                   idx + Z.of_nat start * stride <= x).
    { induction n as [|n IHn]; intros start Hsn.
      - split; [constructor | intros x []].
      - cbn [seq flat_map]. destruct (IHn (S start)) as [Hsorted Hlow]; [lia|].
        rewrite Hblock by lia.
        assert (Hin : forall x,
                  In x (run_nested_loop (idx + Z.of_nat start * stride) inner) ->
                  idx + Z.of_nat start * stride <= x
                  <= idx + Z.of_nat start * stride + reach inner).
        { intros x Hx. apply run_nested_loop_bounds in Hx; try assumption; nia. }
        split.
        + apply sorted_app; [apply IH; try assumption; nia | exact Hsorted |].
          intros x y Hx Hy. apply Hin in Hx. apply Hlow in Hy. nia.
        + intros x Hx. apply in_app_or in Hx. destruct Hx as [Hx|Hx].
          * apply Hin in Hx. lia.
          * apply Hlow in Hx. nia. }
    apply (H (Z.to_nat cnt) 0%nat). lia.
Qed.

Lemma sorted_nodup (l : list Z) : StronglySorted Z.lt l -> NoDup l.
Proof.
  induction 1 as [|a l _ IH Ha]; constructor; [|exact IH].
  intros Hin. rewrite Forall_forall in Ha. specialize (Ha a Hin). lia.
Qed.

(** X13. For a specification that fits a sorted type with an addressable
    dense block, the plan's strides nest, and the indices the nested loop
    hands over from any offset that keeps them within [size_t] are strictly
    increasing: the cells of an output subspace are read from distinct
    input cells, in the input's own cell order. *)
Theorem execute_ascending (dims : list Dimension.t) (spec : Spec)
  (p : DensePlan.t) (offset : Z) :
  dims_sorted dims -> spec_sorted spec -> spec_fits dims spec ->
  dense_addressable dims ->
  DensePlan.ctor dims spec = Ok p ->
  0 <= offset ->
  offset + reach (free_pairs p) < SizeT.modulus ->
  nested (free_pairs p)
  /\ StronglySorted Z.lt (DensePlan.execute p offset)
  /\ NoDup (DensePlan.execute p offset).
Proof.
  intros Hd Hs Hf Hadd Hctor H0 Hb.
  destruct (DensePlan_ctor_inv dims spec p Hadd Hctor) as (G & _).
  destruct G as (_ & _ & Hfr & _).
  assert (Hn : nested (free_pairs p)).
  { rewrite (DensePlan_ctor_sorted dims spec Hd Hs Hf) in Hctor.
    inversion Hctor as [E]. clear Hctor.
    destruct (dense_roles_parts spec (dense_zip dims) (dense_init dims) eq_refl)
      as [Hfree _].
    rewrite Hfree. cbn [free_pairs dense_init DensePlan.loop_cnt
                          DensePlan.in_stride combine app].
    destruct Hadd as [Hpos Hfit]. unfold Int64.max_value in Hfit.
    assert (Hz : map snd (dense_zip dims)
                 = combine (ValueType.indexed_sizes dims)
                     (exact_strides (ValueType.indexed_sizes dims))).
    { unfold dense_zip. rewrite fill_exact by (try rewrite modulus_eq; try lia; exact Hpos).
      cbn [fst]. apply map_snd_combine_eq.
      rewrite length_combine, exact_strides_length, Nat.min_id.
      rewrite <- indexed_sizes_of_kind.
      symmetry. apply indexed_sizes_length, dims_of_kind_indexed. }
    unfold dense_free. apply nested_filter; rewrite Hz.
    - now apply good_exact.
    - now apply nested_exact. }
  split; [exact Hn|].
  assert (Hsorted : StronglySorted Z.lt (DensePlan.execute p offset)).
  { unfold DensePlan.execute. fold (free_pairs p).
    now apply run_nested_loop_sorted. }
  split; [exact Hsorted | now apply sorted_nodup].
Qed.

(** ** The operation that pins nothing *)

Lemma flat_map_ext_seq {B : Type} (f g : nat -> list B) (n start : nat) :
  (forall i, (start <= i < start + n)%nat -> f i = g i) ->
  flat_map f (seq start n) = flat_map g (seq start n).
Proof.
  revert start. induction n as [|n IH]; intros start H; [reflexivity|].
  cbn [seq flat_map]. rewrite (H start) by lia. f_equal. apply IH.
  intros i Hi. apply H. lia.
Qed.

Lemma run_nested_loop_exact (sizes : list Z) :
  Forall (fun n => 1 <= n) sizes ->
  forall start : nat,
    Z.of_nat start + list_product sizes <= SizeT.modulus ->
    run_nested_loop (Z.of_nat start) (combine sizes (exact_strides sizes))
    = map Z.of_nat (seq start (Z.to_nat (list_product sizes))).
Proof.
  induction 1 as [|s rest Hs Hrest IH]; intros start Hb; [reflexivity|].
  pose proof (list_product_pos rest Hrest) as Hp.
  change (list_product (s :: rest)) with (s * list_product rest) in Hb |- *.
  cbn [exact_strides combine run_nested_loop].
  rewrite (flat_map_ext_seq _
             (fun i => map Z.of_nat
                         (seq (start + i * Z.to_nat (list_product rest))
                            (Z.to_nat (list_product rest))))).
  - assert (H : forall n k,
              flat_map (fun i => map Z.of_nat
                          (seq (start + i * Z.to_nat (list_product rest))
                             (Z.to_nat (list_product rest)))) (seq k n)
              = map Z.of_nat
                  (seq (start + k * Z.to_nat (list_product rest))
                     (n * Z.to_nat (list_product rest)))).
    { induction n as [|n IHn]; intros k; [reflexivity|].
      cbn [seq flat_map]. rewrite IHn.
      replace (S n * Z.to_nat (list_product rest))%nat
        with (Z.to_nat (list_product rest) + n * Z.to_nat (list_product rest))%nat
        by lia.
      rewrite seq_app, map_app. do 3 f_equal. lia. }
    rewrite H. f_equal. f_equal; [lia|].
    rewrite Z2Nat.inj_mul by lia. reflexivity.
  - intros i Hi.
    assert (E : SizeT.add (Z.of_nat start)
                  (SizeT.mul (Z.of_nat i) (list_product rest))
                = Z.of_nat (start + i * Z.to_nat (list_product rest))).
    { unfold SizeT.add, SizeT.mul.
      rewrite (wrap_small (Z.of_nat i * list_product rest)) by nia.
      rewrite wrap_small by nia.
      rewrite Nat2Z.inj_add, Nat2Z.inj_mul, Z2Nat.id by lia. reflexivity. }
    rewrite E. apply IH. rewrite Nat2Z.inj_add, Nat2Z.inj_mul, Z2Nat.id by lia.
    nia.
Qed.

Lemma skipn_nth {A : Type} (l : list A) :
  forall n x, nth_error l n = Some x -> skipn n l = x :: skipn (S n) l.
Proof.
  induction l as [|a l IH]; intros [|n] x H; try discriminate.
  - now inversion H.
  - cbn [nth_error] in H. cbn [skipn]. rewrite (IH n x H). reflexivity.
Qed.

Lemma mapM_ok {A B : Type} (f : A -> result B) (g : A -> B) (l : list A) :
  (forall a, In a l -> f a = Ok (g a)) -> mapM f l = Ok (map g l).
Proof.
  induction l as [|a l IH]; intros H; [reflexivity|].
  cbn [mapM map]. rewrite (H a (or_introl eq_refl)). cbn [bind].
  rewrite IH by (intros b Hb; apply H; now right). reflexivity.
Qed.

Lemma dense_roles_unpinned (zdims : list (Dimension.t * (Z * Z))) :
  forall p,
    DensePlan.children (dense_roles [] zdims p) = DensePlan.children p
    /\ DensePlan.verbatim_offset (dense_roles [] zdims p)
       = DensePlan.verbatim_offset p
    /\ DensePlan.in_dense_size (dense_roles [] zdims p)
       = DensePlan.in_dense_size p
    /\ DensePlan.loop_cnt (dense_roles [] zdims p)
       = DensePlan.loop_cnt p ++ map (fun z => fst (snd z)) zdims
    /\ DensePlan.in_stride (dense_roles [] zdims p)
       = DensePlan.in_stride p ++ map (fun z => snd (snd z)) zdims.
Proof.
  induction zdims as [|z zdims IH]; intros p.
  - cbn [dense_roles fold_left map]. now rewrite !app_nil_r.
  - rewrite dense_roles_cons.
    destruct (IH (dense_step [] p z)) as (H1 & H2 & H3 & H4 & H5).
    rewrite H1, H2, H3, H4, H5. unfold dense_step, spec_lookup.
    cbn [find DensePlan.children DensePlan.verbatim_offset
           DensePlan.in_dense_size DensePlan.loop_cnt DensePlan.in_stride map].
    now rewrite <- !app_assoc.
Qed.

Lemma sparse_roles_unpinned (dims : list Dimension.t) :
  forall st, snd (snd (sparse_roles [] dims st)) = snd (snd st).
Proof.
  induction dims as [|d dims IH]; intros st; [reflexivity|].
  change (sparse_roles [] (d :: dims) st)
    with (sparse_roles [] dims (sparse_step [] st d)).
  rewrite IH. reflexivity.
Qed.

Lemma lookup_everything (index : list (list string)) :
  Value.lookup index [] []
  = map (fun oa => (snd oa, Z.of_nat (fst oa)))
      (combine (seq 0 (List.length index)) index).
Proof.
  unfold Value.lookup. generalize 0%nat as start.
  induction index as [|addr index IH]; intros start; [reflexivity|].
  cbn [List.length seq combine flat_map map fst snd]. rewrite IH.
  cbn [Value.matches combine forallb app]. f_equal. f_equal.
  unfold Value.rest_of. cbn [existsb negb].
  assert (H : forall {A : Type} (l : list A), filter (fun _ => true) l = l).
  { intros A l. induction l as [|a l IHl]; [reflexivity|].
    cbn [filter]. now rewrite IHl. }
  rewrite H. apply map_snd_combine_eq. now rewrite length_seq.
Qed.

Lemma map_last_combine {A B C : Type} (l1 : list A) (l2 : list B)
  (l3 : list C) :
  List.length l1 = List.length l2 -> List.length l3 = List.length l2 ->
  map (fun z : A * (B * C) => snd (snd z)) (combine l1 (combine l2 l3)) = l3.
Proof.
  revert l1 l3. induction l2 as [|b l2 IH]; intros [|a l1] [|c l3] H1 H3;
    simpl in *; try discriminate; [reflexivity|].
  f_equal. apply IH; congruence.
Qed.

Lemma unpinned_dense_plan (dims : list Dimension.t) :
  dims_sorted dims -> dense_addressable dims ->
  exists dense,
    DensePlan.ctor dims [] = Ok dense
    /\ DensePlan.children dense = []
    /\ DensePlan.verbatim_offset dense = 0
    /\ DensePlan.in_dense_size dense
       = list_product (ValueType.indexed_sizes dims)
    /\ free_pairs dense
       = combine (ValueType.indexed_sizes dims)
           (exact_strides (ValueType.indexed_sizes dims)).
Proof.
  intros Hd [Hpos Hfit]. unfold Int64.max_value in Hfit.
  exists (dense_roles [] (dense_zip dims) (dense_init dims)).
  split.
  { apply DensePlan_ctor_sorted; [exact Hd | constructor | intros e []]. }
  destruct (dense_roles_unpinned (dense_zip dims) (dense_init dims))
    as (H1 & H2 & H3 & H4 & H5).
  assert (Hfill : DenseSizes.fill (ValueType.indexed_sizes dims)
                  = (exact_strides (ValueType.indexed_sizes dims),
                     list_product (ValueType.indexed_sizes dims))).
  { apply fill_exact; [exact Hpos | rewrite modulus_eq; lia]. }
  assert (Hlen : List.length (dims_of_kind true dims)
                 = List.length (ValueType.indexed_sizes dims)).
  { rewrite <- indexed_sizes_of_kind.
    symmetry. apply indexed_sizes_length, dims_of_kind_indexed. }
  repeat split.
  - exact H1.
  - exact H2.
  - rewrite H3. unfold dense_init. cbn [DensePlan.in_dense_size].
    now rewrite Hfill.
  - unfold free_pairs. rewrite H4, H5. unfold dense_init, dense_zip.
    cbn [DensePlan.loop_cnt DensePlan.in_stride app]. rewrite Hfill. cbn [fst].
    rewrite map_middle_combine, map_last_combine;
      try reflexivity; try exact Hlen; apply exact_strides_length.
Qed.

Section Unpinned.
Context {ICT OCT : Type}.
Variable convert : ICT -> OCT.
Variable zero : OCT.

Lemma mapM_read_seq (cells : list ICT) (n : nat) :
  forall start,
    (start + n <= List.length cells)%nat ->
    mapM (fun idx => c <- Value.read cells idx ;; Ok (convert c))
      (map Z.of_nat (seq start n))
    = Ok (map convert (firstn n (skipn start cells))).
Proof.
  induction n as [|n IH]; intros start Hb; [reflexivity|].
  cbn [seq map mapM]. unfold Value.read at 1. rewrite Nat2Z.id.
  destruct (nth_error cells start) as [x|] eqn:E.
  2:{ apply nth_error_None in E. lia. }
  cbn [bind]. rewrite IH by lia. cbn [bind].
  rewrite (skipn_nth cells start x E). reflexivity.
Qed.

(** X14. With nothing pinned, on a sorted type with an addressable dense
    block, both plans are built and the operation copies a value of the type
    that has a subspace: up to the order in which the view reports the
    subspaces, the result is the input's subspaces, each at its own address
    with the conversion of the cells of its own dense block; no child value
    is asked for. *)
Theorem peek_nothing_pinned (dims : list Dimension.t) (input : Value.t ICT)
  (get_child_value : Getter) :
  dims_sorted dims -> dense_addressable dims -> value_of_type dims input ->
  Value.index input <> [] ->
  exists dense sparse built,
    DensePlan.ctor dims [] = Ok dense
    /\ SparsePlan.ctor dims [] = Ok sparse
    /\ generic_mixed_peek convert zero input sparse dense get_child_value
       = Ok built
    /\ Permutation built
         (map (fun oa =>
                 (snd oa,
                  map convert
                    (subspace_cells (Value.cells input)
                       (Z.to_nat (list_product (ValueType.indexed_sizes dims)))
                       (fst oa))))
            (combine (seq 0 (List.length (Value.index input)))
               (Value.index input))).
Proof.
  intros Hd Hadd [Hnd Hfull Hcells Hcfit] Hne.
  destruct (unpinned_dense_plan dims Hd Hadd)
    as (dense & Hdense & Hch & Hv & Hin & Hfree).
  pose proof (SparsePlan_ctor_sorted dims [] Hd
                (SSorted_nil _) (fun e (H : In e []) => match H with end))
    as Hsparse.
  rewrite pinned_specs_nil, sparse_roles_unpinned in Hsparse. cbn [snd] in Hsparse.
  destruct Hadd as [Hpos Hfit]. unfold Int64.max_value in Hfit.
  pose proof (list_product_pos _ Hpos) as Hp.
  set (P := list_product (ValueType.indexed_sizes dims)) in *.
  set (n := List.length (Value.index input)) in *.
  set (block := fun k : nat =>
                  firstn (Z.to_nat P) (skipn (k * Z.to_nat P) (Value.cells input))).
  assert (Hlen : List.length (Value.cells input) = (n * Z.to_nat P)%nat).
  { apply Nat2Z.inj. rewrite Hcells, Nat2Z.inj_mul, Z2Nat.id by lia.
    reflexivity. }
  assert (Hcopy : forall oa,
            In oa (combine (seq 0 n) (Value.index input)) ->
            copy_subspace convert input dense 0 (snd oa, Z.of_nat (fst oa))
            = Ok (snd oa, map convert (block (fst oa)))).
  { intros [k addr] Hoa. apply in_combine_l, in_seq in Hoa. cbn [fst snd].
    unfold copy_subspace. cbn [fst snd]. rewrite Hin.
    assert (E : SizeT.add 0 (SizeT.mul (Z.of_nat k) P)
                = Z.of_nat (k * Z.to_nat P)).
    { unfold SizeT.add, SizeT.mul. rewrite Z.add_0_l, wrap_idem.
      rewrite wrap_small by nia.
      rewrite Nat2Z.inj_mul, Z2Nat.id by lia. reflexivity. }
    rewrite E. unfold DensePlan.execute. fold (free_pairs dense).
    rewrite Hfree, run_nested_loop_exact;
      [| exact Hpos | rewrite Nat2Z.inj_mul, Z2Nat.id by lia; fold P; nia].
    fold P. rewrite mapM_read_seq by nia. reflexivity. }
  exists dense. eexists. eexists.
  split; [exact Hdense|]. split; [exact Hsparse|].
  unfold generic_mixed_peek, DensePlan.get_offset, SparsePlan.make_state.
  rewrite Hch, Hv.
  cbn [DensePlan.get_offset_from bind SparsePlan.lookup_specs
         SparsePlan.view_dims SparsePlan.out_mapped_dims mapM List.length
         Nat.eqb assert SparseState.ctor SparseState.lookup_refs
         SparseState.view_addr].
  replace (0 =? SizeT.npos) with false by (rewrite npos_eq; reflexivity).
  cbn [negb]. rewrite lookup_everything.
  rewrite (mapM_ok _ (fun found => (fst found,
                                    map convert (block (Z.to_nat (snd found)))))).
  2:{ intros found Hfound. apply in_map_iff in Hfound.
      destruct Hfound as (oa & E & Hoa). subst found. cbn [fst snd].
      rewrite Nat2Z.id. now apply Hcopy. }
  cbn [bind]. rewrite !length_map, length_combine, length_seq. fold n.
  rewrite Nat.min_id.
  replace (Z.of_nat n =? 0) with false
    by (symmetry; apply Z.eqb_neq; unfold n; destruct (Value.index input);
        [contradiction | cbn [List.length]; lia]).
  rewrite Bool.andb_false_r.
  split; [reflexivity|].
  rewrite map_map. cbn [fst snd].
  rewrite (map_ext _ (fun oa : nat * list string =>
                        (snd oa, map convert (block (fst oa)))))
    by (intros oa; now rewrite Nat2Z.id).
  apply Permutation_refl.
Qed.
End Unpinned.

(** * Worked instances of the further properties *)

Lemma by_child_known : names_known [Sample.x; Sample.y] Sample.by_child.
Proof. intros e [E|[]]. subst e. exists Sample.x. split; [now left | reflexivity]. Defined.

Lemma mapped_child_known : names_known [Sample.x; Sample.y] Sample.mapped_child.
Proof.
  intros e [E|[]]. subst e. exists Sample.y.
  split; [right; now left | reflexivity].
Defined.

Lemma name_on_indexed_known :
  names_known [Sample.x; Sample.y] Misuse.name_on_indexed.
Proof. intros e [E|[]]. subst e. exists Sample.x. split; [now left | reflexivity]. Defined.

Lemma index_on_mapped_known :
  names_known [Sample.x; Sample.y] Misuse.index_on_mapped.
Proof.
  intros e [E|[]]. subst e. exists Sample.y.
  split; [right; now left | reflexivity].
Defined.

Lemma by_child_fits : spec_fits [Sample.x; Sample.y] Sample.by_child.
Proof.
  intros e [E|[]]. subst e. exists Sample.x.
  split; [now left|]. split; [reflexivity | exact I].
Defined.

Lemma dense_plan_shape_witness :
  DensePlan.ctor Sample.cube Sample.cube_spec = Ok Sample.cube_plan
  /\ DensePlan.out_dense_size Sample.cube_plan
     = SizeT.product (DensePlan.loop_cnt Sample.cube_plan)
  /\ DensePlan.in_dense_size Sample.cube_plan
     = SizeT.product (ValueType.indexed_sizes Sample.cube).
Proof.
  assert (Hctor : DensePlan.ctor Sample.cube Sample.cube_spec
                  = Ok Sample.cube_plan) by reflexivity.
  split; [exact Hctor|].
  destruct (dense_plan_shape Sample.cube Sample.cube_spec Sample.cube_plan Hctor)
    as (_ & Ho & Hi & _).
  split; [exact Ho | exact Hi].
Defined.

Lemma sparse_plan_shape_witness :
  SparsePlan.ctor [Sample.x; Sample.y] Sample.mapped_child
  = Ok Misuse.mapped_plan
  /\ Z.of_nat (List.length [Sample.x; Sample.y]) < SizeT.modulus
  /\ List.length (SparsePlan.lookup_specs Misuse.mapped_plan)
     = List.length (SparsePlan.view_dims Misuse.mapped_plan)
  /\ ascending_within 0
       (Z.of_nat (List.length (dims_of_kind false [Sample.x; Sample.y])))
       (SparsePlan.view_dims Misuse.mapped_plan).
Proof.
  assert (Hctor : SparsePlan.ctor [Sample.x; Sample.y] Sample.mapped_child
                  = Ok Misuse.mapped_plan) by reflexivity.
  assert (Hfit : Z.of_nat (List.length [Sample.x; Sample.y]) < SizeT.modulus)
    by reflexivity.
  split; [exact Hctor|]. split; [exact Hfit|].
  destruct (sparse_plan_shape [Sample.x; Sample.y] Sample.mapped_child
              Misuse.mapped_plan Hctor Hfit) as (Hl & _ & Ha & _).
  split; [exact Hl | exact Ha].
Defined.

Lemma dense_construction_outcome_witness :
  dims_sorted [Sample.x; Sample.y]
  /\ spec_sorted Misuse.name_on_indexed
  /\ names_known [Sample.x; Sample.y] Misuse.name_on_indexed
  /\ existsb (bad_dense_literal Misuse.name_on_indexed) [Sample.x; Sample.y]
     = true
  /\ DensePlan.ctor [Sample.x; Sample.y] Misuse.name_on_indexed
     = Fatal AssertFailed.
Proof.
  assert (Hs : spec_sorted Misuse.name_on_indexed) by (repeat constructor).
  split; [exact sample_dims_sorted|]. split; [exact Hs|].
  split; [exact name_on_indexed_known|]. split; [reflexivity|].
  exact (proj1 (dense_construction_outcome [Sample.x; Sample.y]
                  Misuse.name_on_indexed sample_dims_sorted Hs
                  name_on_indexed_known) eq_refl).
Defined.

Lemma mapped_index_literal_witness :
  dims_sorted [Sample.x; Sample.y]
  /\ spec_sorted Misuse.index_on_mapped
  /\ names_known [Sample.x; Sample.y] Misuse.index_on_mapped
  /\ existsb (bad_sparse_literal Misuse.index_on_mapped) [Sample.x; Sample.y]
     = true
  /\ exists plan,
       SparsePlan.ctor [Sample.x; Sample.y] Misuse.index_on_mapped = Ok plan
       /\ SparsePlan.make_state plan (source (fun _ => 0))
          = Fatal AssertFailed.
Proof.
  assert (Hs : spec_sorted Misuse.index_on_mapped) by (repeat constructor).
  split; [exact sample_dims_sorted|]. split; [exact Hs|].
  split; [exact index_on_mapped_known|]. split; [reflexivity|].
  destruct (mapped_index_literal (fun c : Z => c) 0 [Sample.x; Sample.y]
              Misuse.index_on_mapped sample_dims_sorted Hs
              index_on_mapped_known eq_refl) as (plan & Hp & Hall).
  exists plan. split; [exact Hp | exact (proj1 (Hall (fun _ => 0)))].
Defined.

Lemma get_offset_machine_witness :
  SizeT.in_range (DensePlan.verbatim_offset Sample.cube_plan)
  /\ DensePlan.get_offset Sample.cube_plan (source (fun _ => 2)) = Ok 8
  /\ DensePlan.get_offset Sample.cube_plan (source (fun _ => 3))
     = Ok SizeT.npos.
Proof.
  assert (Hr : SizeT.in_range (DensePlan.verbatim_offset Sample.cube_plan))
    by (split; [discriminate | reflexivity]).
  split; [exact Hr|]. split.
  - rewrite (get_offset_machine Sample.cube_plan (fun _ => 2) Hr). reflexivity.
  - rewrite (get_offset_machine Sample.cube_plan (fun _ => 3) Hr). reflexivity.
Defined.

Lemma children_accounted_witness :
  well_typed Sample.input_type Sample.by_child_type Sample.by_child
  /\ PeekParam.ctor Sample.input_type Sample.by_child_type Sample.by_child
     = Ok (peek_param Sample.input_type Sample.by_child_type Sample.by_child)
  /\ PeekParam.num_children
       (peek_param Sample.input_type Sample.by_child_type Sample.by_child)
     = Z.of_nat (List.length (child_entries Sample.by_child)).
Proof.
  assert (Hctor : PeekParam.ctor Sample.input_type Sample.by_child_type
                    Sample.by_child
                  = Ok (peek_param Sample.input_type Sample.by_child_type
                          Sample.by_child)) by reflexivity.
  split; [exact by_child_well_typed|]. split; [exact Hctor|].
  exact (proj1 (children_accounted Sample.input_type Sample.by_child_type
                  Sample.by_child _ by_child_well_typed Hctor)).
Defined.

Lemma dense_plan_by_lookup_witness :
  dims_sorted Sample.cube
  /\ spec_sorted Sample.cube_spec
  /\ spec_fits Sample.cube Sample.cube_spec
  /\ exists p,
       DensePlan.ctor Sample.cube Sample.cube_spec = Ok p
       /\ free_pairs p = dense_free Sample.cube_spec (dense_zip Sample.cube)
       /\ DensePlan.children p
          = dense_children Sample.cube_spec (dense_zip Sample.cube).
Proof.
  assert (Hs : spec_sorted Sample.cube_spec) by (repeat constructor).
  split; [exact cube_sorted|]. split; [exact Hs|].
  split; [exact cube_spec_fits|].
  destruct (dense_plan_by_lookup Sample.cube Sample.cube_spec cube_sorted Hs
              cube_spec_fits) as (p & Hp & Hfree & Hch & _).
  exists p. split; [exact Hp|]. split; [exact Hfree | exact Hch].
Defined.

Lemma view_dims_aligned_witness :
  dims_sorted [Sample.x; Sample.y]
  /\ spec_sorted Sample.mapped_child
  /\ names_known [Sample.x; Sample.y] Sample.mapped_child
  /\ Z.of_nat (List.length [Sample.x; Sample.y]) < SizeT.modulus
  /\ exists plan,
       SparsePlan.ctor [Sample.x; Sample.y] Sample.mapped_child = Ok plan
       /\ SparsePlan.view_dims plan = [0]
       /\ SparsePlan.out_mapped_dims plan = 0.
Proof.
  assert (Hs : spec_sorted Sample.mapped_child) by (repeat constructor).
  assert (Hfit : Z.of_nat (List.length [Sample.x; Sample.y]) < SizeT.modulus)
    by reflexivity.
  split; [exact sample_dims_sorted|]. split; [exact Hs|].
  split; [exact mapped_child_known|]. split; [exact Hfit|].
  destruct (view_dims_aligned [Sample.x; Sample.y] Sample.mapped_child
              sample_dims_sorted Hs mapped_child_known Hfit)
    as (plan & Hp & _ & Hv & Ho).
  exists plan. split; [exact Hp|]. split; [exact Hv | exact Ho].
Defined.

Lemma execute_fills_subspace_witness :
  dense_addressable Sample.cube
  /\ DensePlan.ctor Sample.cube Sample.cube_spec = Ok Sample.cube_plan
  /\ Z.of_nat (List.length (DensePlan.execute Sample.cube_plan 8))
     = DensePlan.out_dense_size Sample.cube_plan.
Proof.
  assert (Hctor : DensePlan.ctor Sample.cube Sample.cube_spec
                  = Ok Sample.cube_plan) by reflexivity.
  split; [exact cube_addressable|]. split; [exact Hctor|].
  exact (proj1 (execute_fills_subspace Sample.cube Sample.cube_spec
                  Sample.cube_plan 8 cube_addressable Hctor)).
Defined.

Lemma peek_returns_value_witness :
  well_typed Sample.input_type Sample.by_child_type Sample.by_child
  /\ dense_addressable (ValueType.dimensions Sample.input_type)
  /\ value_of_type (ValueType.dimensions Sample.input_type) Sample.input
  /\ int64_source (fun _ => 2)
  /\ PeekParam.ctor Sample.input_type Sample.by_child_type Sample.by_child
     = Ok (peek_param Sample.input_type Sample.by_child_type Sample.by_child)
  /\ exists built,
       generic_mixed_peek (fun c : Z => c) 0 Sample.input
         (PeekParam.sparse_plan
            (peek_param Sample.input_type Sample.by_child_type Sample.by_child))
         (PeekParam.dense_plan
            (peek_param Sample.input_type Sample.by_child_type Sample.by_child))
         (source (fun _ => 2)) = Ok built
       /\ Forall (subspace_from (fun c : Z => c) 0 (Value.cells Sample.input)
                    (ValueType.dense_subspace_size Sample.by_child_type)) built.
Proof.
  assert (Hsrc : int64_source (fun _ => 2))
    by (apply constant_source; split; discriminate).
  assert (Hctor : PeekParam.ctor Sample.input_type Sample.by_child_type
                    Sample.by_child
                  = Ok (peek_param Sample.input_type Sample.by_child_type
                          Sample.by_child)) by reflexivity.
  split; [exact by_child_well_typed|]. split; [exact sample_addressable|].
  split; [exact sample_value_of_type|]. split; [exact Hsrc|].
  split; [exact Hctor|].
  destruct (peek_returns_value (fun c : Z => c) 0 Sample.input_type
              Sample.by_child_type Sample.by_child _ Sample.input (fun _ => 2)
              by_child_well_typed sample_addressable sample_value_of_type
              Hsrc Hctor) as (built & Hrun & Hall & _).
  exists built. split; [exact Hrun | exact Hall].
Defined.

Lemma peek_subspaces_match_witness :
  well_typed Sample.input_type Sample.by_child_type Sample.by_child
  /\ dense_addressable (ValueType.dimensions Sample.input_type)
  /\ value_of_type (ValueType.dimensions Sample.input_type) Sample.input
  /\ PeekParam.ctor Sample.input_type Sample.by_child_type Sample.by_child
     = Ok (peek_param Sample.input_type Sample.by_child_type Sample.by_child)
  /\ Forall (child_in_range (fun _ => 2))
       (DensePlan.children
          (PeekParam.dense_plan
             (peek_param Sample.input_type Sample.by_child_type
                Sample.by_child)))
  /\ exists state built,
       SparsePlan.make_state
         (PeekParam.sparse_plan
            (peek_param Sample.input_type Sample.by_child_type Sample.by_child))
         (source (fun _ => 2)) = Ok state
       /\ generic_mixed_peek (fun c : Z => c) 0 Sample.input
            (PeekParam.sparse_plan
               (peek_param Sample.input_type Sample.by_child_type
                  Sample.by_child))
            (PeekParam.dense_plan
               (peek_param Sample.input_type Sample.by_child_type
                  Sample.by_child))
            (source (fun _ => 2)) = Ok built
       /\ Permutation (map fst built) [["a"%string]; ["b"%string]].
Proof.
  assert (Hctor : PeekParam.ctor Sample.input_type Sample.by_child_type
                    Sample.by_child
                  = Ok (peek_param Sample.input_type Sample.by_child_type
                          Sample.by_child)) by reflexivity.
  assert (Hin : Forall (child_in_range (fun _ => 2))
                  (DensePlan.children
                     (PeekParam.dense_plan
                        (peek_param Sample.input_type Sample.by_child_type
                           Sample.by_child)))).
  { repeat constructor; discriminate. }
  split; [exact by_child_well_typed|]. split; [exact sample_addressable|].
  split; [exact sample_value_of_type|]. split; [exact Hctor|].
  split; [exact Hin|].
  destruct (peek_subspaces_match (fun c : Z => c) 0 Sample.input_type
              Sample.by_child_type Sample.by_child _ Sample.input (fun _ => 2)
              by_child_well_typed sample_addressable sample_value_of_type
              Hctor Hin) as (state & built & Hst & Hrun & Hsome & _).
  exists state, built. split; [exact Hst|]. split; [exact Hrun|].
  apply Hsome. discriminate.
Defined.

Lemma execute_ascending_witness :
  dims_sorted Sample.cube
  /\ spec_sorted Sample.cube_spec
  /\ spec_fits Sample.cube Sample.cube_spec
  /\ dense_addressable Sample.cube
  /\ DensePlan.ctor Sample.cube Sample.cube_spec = Ok Sample.cube_plan
  /\ 0 <= 8
  /\ 8 + reach (free_pairs Sample.cube_plan) < SizeT.modulus
  /\ StronglySorted Z.lt (DensePlan.execute Sample.cube_plan 8).
Proof.
  assert (Hs : spec_sorted Sample.cube_spec) by (repeat constructor).
  assert (Hctor : DensePlan.ctor Sample.cube Sample.cube_spec
                  = Ok Sample.cube_plan) by reflexivity.
  assert (H0 : 0 <= 8) by discriminate.
  assert (Hb : 8 + reach (free_pairs Sample.cube_plan) < SizeT.modulus)
    by reflexivity.
  split; [exact cube_sorted|]. split; [exact Hs|].
  split; [exact cube_spec_fits|]. split; [exact cube_addressable|].
  split; [exact Hctor|]. split; [exact H0|]. split; [exact Hb|].
  exact (proj1 (proj2 (execute_ascending Sample.cube Sample.cube_spec
                         Sample.cube_plan 8 cube_sorted Hs cube_spec_fits
                         cube_addressable Hctor H0 Hb))).
Defined.

Lemma peek_nothing_pinned_witness :
  dims_sorted [Sample.x; Sample.y]
  /\ dense_addressable [Sample.x; Sample.y]
  /\ value_of_type [Sample.x; Sample.y] Sample.input
  /\ Value.index Sample.input <> []
  /\ exists dense sparse built,
       DensePlan.ctor [Sample.x; Sample.y] [] = Ok dense
       /\ SparsePlan.ctor [Sample.x; Sample.y] [] = Ok sparse
       /\ generic_mixed_peek (fun c : Z => c) 0 Sample.input sparse dense
            (source (fun _ => 0)) = Ok built
       /\ Permutation built
            [(["a"%string], [1; 2; 3]); (["b"%string], [4; 5; 6])].
Proof.
  assert (Hne : Value.index Sample.input <> []) by discriminate.
  split; [exact sample_dims_sorted|]. split; [exact sample_addressable|].
  split; [exact sample_value_of_type|]. split; [exact Hne|].
  exact (peek_nothing_pinned (fun c : Z => c) 0 [Sample.x; Sample.y]
           Sample.input (source (fun _ => 0)) sample_dims_sorted
           sample_addressable sample_value_of_type Hne).
Defined.

(** * A child value below zero *)

(** The loop leaves at the first child whose converted value is not below
    its limit; a negative value converts to at least [2^63]. *)
Lemma get_offset_from_negative (values : Z -> Z) (cs : list DensePlan.Child) :
  Exists (fun c => Int64.in_range (values (DensePlan.idx c))
                   /\ values (DensePlan.idx c) < 0
                   /\ DensePlan.limit c <= 2 ^ 63) cs ->
  forall offset,
    DensePlan.get_offset_from cs (source values) offset = Ok SizeT.npos.
Proof.
  induction 1 as [c cs (Hr & Hneg & Hlim)|c cs _ IH]; intros offset;
    cbn [DensePlan.get_offset_from source bind].
  - replace (Int64.to_size_t (values (DensePlan.idx c)) <? DensePlan.limit c)
      with false; [reflexivity|].
    symmetry. apply Z.ltb_ge.
    destruct Hr as [Hlo _]. unfold Int64.min_value in Hlo.
    unfold Int64.to_size_t, SizeT.wrap.
    rewrite <- (Z_mod_plus_full _ 1), Z.mod_small
      by (rewrite modulus_eq; lia).
    rewrite modulus_eq. lia.
  - destruct (Int64.to_size_t (values (DensePlan.idx c)) <? DensePlan.limit c);
      [apply IH | reflexivity].
Qed.

Lemma In_seq_combine {A : Type} (l : list A) :
  forall (start k : nat) (a : A),
    In (k, a) (combine (seq start (List.length l)) l) ->
    (start <= k)%nat /\ nth_error l (k - start) = Some a.
Proof.
  induction l as [|x l IH]; intros start k a H; [contradiction|].
  cbn [List.length seq combine] in H. destruct H as [E|H].
  - inversion E. subst. rewrite Nat.sub_diag. split; [lia | reflexivity].
  - apply IH in H. destruct H as [Hle Hn]. split; [lia|].
    replace (k - start)%nat with (S (k - S start)) by lia. exact Hn.
Qed.

(** The lookup reports a subspace exactly when its address matches. *)
Lemma lookup_reports (index : list (list string)) (view_dims : list Z)
  (keys addr : list string) (k : nat) :
  nth_error index k = Some addr ->
  In (Value.rest_of view_dims addr, Z.of_nat k)
     (Value.lookup index view_dims keys)
  <-> Value.matches view_dims keys addr = true.
Proof.
  intros Hk. split; [|now apply lookup_finds].
  unfold Value.lookup. intros H. apply in_flat_map in H.
  destruct H as ([k' addr'] & Hin & Hf). cbn [fst snd] in Hf.
  destruct (Value.matches view_dims keys addr') eqn:M; [|contradiction].
  destruct Hf as [E|[]]. inversion E as [[Ha Hz]].
  apply Nat2Z.inj in Hz. subst k'.
  apply In_seq_combine in Hin. destruct Hin as [_ Hn].
  rewrite Nat.sub_0_r, Hk in Hn. inversion Hn. subst addr'. exact M.
Qed.

(** The view positions and the keys, taken together, compare every pinned
    mapped dimension's own label with the key its pin resolves to. *)
Lemma matches_by_dimension (spec : Spec) (values : Z -> Z)
  (mdims : list Dimension.t) :
  Forall (fun d => Dimension.is_indexed d = false) mdims ->
  forall pre addr : list string,
    List.length addr = List.length mdims ->
    Value.matches
      (map Z.of_nat (positions (pinned_by spec) mdims (List.length pre)))
      (map (fun ds => resolved_key values (DimSpec.child_or_label ds))
         (pinned_specs false spec mdims))
      (pre ++ addr)
    = forallb
        (fun dl => match spec_lookup (Dimension.name (fst dl)) spec with
                   | Some m => String.eqb (snd dl) (resolved_key values m)
                   | None => true
                   end)
        (combine mdims addr).
Proof.
  induction 1 as [|d mdims Hd _ IH]; intros pre [|l addr] Hlen;
    try discriminate Hlen; [reflexivity|].
  cbn [List.length] in Hlen.
  specialize (IH (pre ++ [l]) addr ltac:(lia)).
  rewrite <- app_assoc, length_app in IH. cbn [app List.length] in IH.
  replace (List.length pre + 1)%nat with (S (List.length pre)) in IH by lia.
  rewrite pinned_specs_cons, Hd. cbn [Bool.eqb positions combine forallb fst snd].
  destruct (spec_lookup (Dimension.name d) spec) as [m|] eqn:L.
  - replace (pinned_by spec d) with true by (unfold pinned_by; now rewrite L).
    cbn [app map DimSpec.child_or_label]. unfold Value.matches in *.
    cbn [combine forallb fst snd]. rewrite Nat2Z.id, nth_error_app2 by lia.
    rewrite Nat.sub_diag. cbn [nth_error]. now rewrite IH.
  - replace (pinned_by spec d) with false by (unfold pinned_by; now rewrite L).
    cbn [app map]. exact IH.
Qed.

Lemma zip_has (idims : list Dimension.t) :
  forall (strides : list Z) d n,
    Forall (fun d => Dimension.is_indexed d = true) idims ->
    List.length strides = List.length idims ->
    In d idims -> Dimension.kind d = Dimension.Indexed n ->
    exists st,
      In (d, (n, st))
         (combine idims (combine (ValueType.indexed_sizes idims) strides)).
Proof.
  induction idims as [|d0 rest IH]; intros strides d n Hk Hlen Hin Hd;
    [contradiction|].
  inversion Hk as [|? ? Hd0 Hk']; subst. unfold Dimension.is_indexed in Hd0.
  cbn [ValueType.indexed_sizes flat_map].
  destruct (Dimension.kind d0) as [n0|] eqn:K; [|discriminate].
  destruct strides as [|s ss]; [discriminate Hlen|].
  cbn [app combine]. destruct Hin as [E|Hin].
  - subst d0. rewrite Hd in K. inversion K. subst n0.
    exists s. now left.
  - destruct (IH ss d n Hk') as (st & Hst); try assumption.
    + cbn [List.length] in Hlen. lia.
    + exists st. now right.
Qed.

(** C10. A child value that truncates to a negative integer. On a dense
    dimension the converted value is at least [2^63]: for every plan and
    every child whose limit is at most [2^63] the offset resolves to
    [npos], whatever the other children deliver, and so it does for the
    plan of every sorted type and fitting specification that pin an
    indexed dimension of at most [2^63] coordinates by the child, whatever
    the other sizes. On any mapped dimension pinned by the child the key is
    the signed numeral, ["-1"] for -1; the lookup compares it like any
    other string with the dimension's own label, so a subspace is reported
    exactly when its labels equal the keys, and every subspace reported is
    labelled with that numeral. *)
Theorem negative_child_value :
  (forall (p : DensePlan.t) (values : Z -> Z) (c : DensePlan.Child),
      In c (DensePlan.children p) ->
      DensePlan.limit c <= 2 ^ 63 ->
      Int64.in_range (values (DensePlan.idx c)) ->
      values (DensePlan.idx c) < 0 ->
      DensePlan.limit c <= Int64.to_size_t (values (DensePlan.idx c))
      /\ DensePlan.get_offset p (source values) = Ok SizeT.npos)
  /\
  (forall (dims : list Dimension.t) (spec : Spec) (values : Z -> Z)
          (d : Dimension.t) (n c : Z),
      dims_sorted dims -> spec_sorted spec -> spec_fits dims spec ->
      In d dims -> Dimension.kind d = Dimension.Indexed n -> n <= 2 ^ 63 ->
      spec_lookup (Dimension.name d) spec = Some (child c) ->
      Int64.in_range (values c) -> values c < 0 ->
      exists p,
        DensePlan.ctor dims spec = Ok p
        /\ (exists st, In (DensePlan.mkChild c st n) (DensePlan.children p))
        /\ DensePlan.get_offset p (source values) = Ok SizeT.npos)
  /\
  (forall (dims : list Dimension.t) (spec : Spec) (values : Z -> Z)
          (d : Dimension.t) (c : Z),
      dims_sorted dims -> spec_sorted spec -> spec_fits dims spec ->
      Z.of_nat (List.length dims) < SizeT.modulus ->
      In d dims -> Dimension.is_indexed d = false ->
      spec_lookup (Dimension.name d) spec = Some (child c) ->
      values c < 0 ->
      exists plan state,
        SparsePlan.ctor dims spec = Ok plan
        /\ SparsePlan.make_state plan (source values) = Ok state
        /\ In (String "-" (make_string_PRId64 (- values c)))
              (SparseState.lookup_refs state)
        /\ forall (index : list (list string)) (k : nat) (addr : list string),
             nth_error index k = Some addr ->
             List.length addr = List.length (dims_of_kind false dims) ->
             (In (Value.rest_of (SparsePlan.view_dims plan) addr, Z.of_nat k)
                 (Value.lookup index (SparsePlan.view_dims plan)
                    (SparseState.lookup_refs state))
              <-> address_agrees spec values dims addr = true)
             /\ (address_agrees spec values dims addr = true ->
                 forall l,
                   In (d, l) (combine (dims_of_kind false dims) addr) ->
                   l = String "-" (make_string_PRId64 (- values c))))
  /\ make_string_PRId64 (-1) = "-1"%string.
Proof.
  split; [|split; [|split; [|reflexivity]]].
  - intros p values c Hc Hlim Hr Hneg. split.
    + destruct Hr as [Hlo _]. unfold Int64.min_value in Hlo.
      unfold Int64.to_size_t, SizeT.wrap.
      rewrite <- (Z_mod_plus_full _ 1), Z.mod_small
        by (rewrite modulus_eq; lia).
      rewrite modulus_eq. lia.
    + unfold DensePlan.get_offset. apply get_offset_from_negative.
      apply Exists_exists. exists c. auto.
  - intros dims spec values d n c Hd Hs Hf Hin Hk Hn Hl Hr Hneg.
    exists (dense_roles spec (dense_zip dims) (dense_init dims)).
    split; [now apply DensePlan_ctor_sorted|].
    destruct (dense_roles_parts spec (dense_zip dims) (dense_init dims) eq_refl)
      as [_ Hch].
    cbn [dense_init DensePlan.children app] in Hch.
    assert (Hzip : exists st, In (d, (n, st)) (dense_zip dims)).
    { unfold dense_zip. rewrite <- indexed_sizes_of_kind.
      apply zip_has.
      - apply dims_of_kind_indexed.
      - rewrite indexed_sizes_of_kind, fill_length.
        rewrite <- indexed_sizes_of_kind.
        apply indexed_sizes_length, dims_of_kind_indexed.
      - unfold dims_of_kind. apply filter_In. split; [exact Hin|].
        unfold Dimension.is_indexed. now rewrite Hk.
      - exact Hk. }
    destruct Hzip as (st & Hz).
    assert (Hc : In (DensePlan.mkChild c st n)
                   (DensePlan.children
                      (dense_roles spec (dense_zip dims) (dense_init dims)))).
    { rewrite Hch. unfold dense_children. apply in_flat_map.
      exists (d, (n, st)). split; [exact Hz|].
      cbn [fst snd]. rewrite Hl. now left. }
    split; [exists st; exact Hc|].
    unfold DensePlan.get_offset. apply get_offset_from_negative.
    apply Exists_exists. exists (DensePlan.mkChild c st n). auto.
  - intros dims spec values d c Hd Hs Hf Hcnt Hin Hm Hl Hneg.
    pose proof (SparsePlan_ctor_sorted dims spec Hd Hs Hf) as Hctor.
    destruct (make_state_sorted dims spec values _ Hd Hs Hf Hctor) as [_ Hst].
    eexists. eexists. split; [exact Hctor|]. split; [exact Hst|].
    cbn [SparsePlan.lookup_specs SparsePlan.view_dims
           SparsePlan.out_mapped_dims SparseState.ctor
           SparseState.lookup_refs SparseState.view_addr].
    split.
    + rewrite <- make_string_negative by exact Hneg.
      apply in_map_iff. exists (DimSpec.mk (Dimension.name d) (child c)).
      split; [reflexivity|].
      unfold pinned_specs. apply in_flat_map. exists d. split; [exact Hin|].
      rewrite Hm, Hl. now left.
    + intros index k addr Hk Hlen.
      assert (Hpos : Z.of_nat 0
                     + Z.of_nat (List.length (dims_of_kind false dims))
                     < SizeT.modulus).
      { pose proof (filter_length_le
                      (fun d => Bool.eqb (Dimension.is_indexed d) false) dims).
        unfold dims_of_kind. lia. }
      pose proof (sparse_roles_positions spec (dims_of_kind false dims)
                    0%nat 0 [] Hpos) as Hview.
      cbn [Z.of_nat app] in Hview. rewrite Hview.
      rewrite <- (pinned_specs_of_kind false spec dims).
      pose proof (matches_by_dimension spec values (dims_of_kind false dims)
                    (dims_of_kind_mapped dims) [] addr Hlen) as Hmatch.
      cbn [List.length app] in Hmatch.
      split.
      * rewrite (lookup_reports index _ _ addr k Hk), Hmatch. reflexivity.
      * intros Hagree l Hdl. unfold address_agrees in Hagree.
        rewrite forallb_forall in Hagree. specialize (Hagree (d, l) Hdl).
        cbn [fst snd] in Hagree. rewrite Hl in Hagree.
        apply String.eqb_eq in Hagree. rewrite Hagree.
        cbn [resolved_key]. now apply make_string_negative.
Qed.

Lemma negative_child_value_witness :
  In (DensePlan.mkChild 0 4 3) (DensePlan.children Sample.cube_plan)
  /\ DensePlan.limit (DensePlan.mkChild 0 4 3) <= 2 ^ 63
  /\ Int64.in_range ((fun _ : Z => -1) 0)
  /\ (fun _ : Z => -1) 0 < 0
  /\ DensePlan.get_offset Sample.cube_plan (source (fun _ => -1))
     = Ok SizeT.npos
  /\ (exists p,
        DensePlan.ctor Shapes.wide Shapes.wide_spec = Ok p
        /\ DensePlan.get_offset p (source (fun _ => -1)) = Ok SizeT.npos)
  /\ dims_sorted Shapes.keyed
  /\ spec_sorted Shapes.second_by_child
  /\ spec_fits Shapes.keyed Shapes.second_by_child
  /\ Z.of_nat (List.length Shapes.keyed) < SizeT.modulus
  /\ In Shapes.m Shapes.keyed
  /\ Dimension.is_indexed Shapes.m = false
  /\ spec_lookup (Dimension.name Shapes.m) Shapes.second_by_child
     = Some (child 0)
  /\ exists plan state,
       SparsePlan.ctor Shapes.keyed Shapes.second_by_child = Ok plan
       /\ SparsePlan.make_state plan (source (fun _ => -1)) = Ok state
       /\ In ("-1"%string) (SparseState.lookup_refs state)
       /\ In (Value.rest_of (SparsePlan.view_dims plan)
                ["p"%string; "-1"%string], Z.of_nat 0)
             (Value.lookup Shapes.keyed_index (SparsePlan.view_dims plan)
                (SparseState.lookup_refs state))
       /\ ~ In (Value.rest_of (SparsePlan.view_dims plan)
                  ["q"%string; "5"%string], Z.of_nat 1)
               (Value.lookup Shapes.keyed_index (SparsePlan.view_dims plan)
                  (SparseState.lookup_refs state)).
Proof.
  assert (Hc : In (DensePlan.mkChild 0 4 3)
                 (DensePlan.children Sample.cube_plan)) by (now left).
  assert (Hlim : DensePlan.limit (DensePlan.mkChild 0 4 3) <= 2 ^ 63)
    by discriminate.
  assert (Hr : Int64.in_range ((fun _ : Z => -1) 0)) by (split; discriminate).
  assert (Hneg : (fun _ : Z => -1) 0 < 0) by reflexivity.
  assert (Hlim' : 65536 <= 2 ^ 63) by discriminate.
  assert (Hs : spec_sorted Shapes.second_by_child) by (repeat constructor).
  assert (Hcnt : Z.of_nat (List.length Shapes.keyed) < SizeT.modulus)
    by reflexivity.
  assert (Hin : In Shapes.m Shapes.keyed) by (right; now left).
  split; [exact Hc|]. split; [exact Hlim|]. split; [exact Hr|].
  split; [exact Hneg|]. split.
  { exact (proj2 (proj1 negative_child_value Sample.cube_plan (fun _ => -1)
                    _ Hc Hlim Hr Hneg)). }
  split.
  { destruct (proj1 (proj2 negative_child_value) Shapes.wide Shapes.wide_spec
                (fun _ => -1) (Dimension.mk "c" (Dimension.Indexed 65536))
                65536 2 wide_sorted wide_spec_sorted wide_spec_fits
                (or_intror (or_intror (or_introl eq_refl))) eq_refl Hlim'
                eq_refl Hr Hneg) as (p & Hp & _ & Hget).
    exists p. split; [exact Hp | exact Hget]. }
  split; [exact keyed_sorted|]. split; [exact Hs|].
  split; [exact second_by_child_fits|]. split; [exact Hcnt|].
  split; [exact Hin|]. split; [reflexivity|]. split; [reflexivity|].
  destruct (proj1 (proj2 (proj2 negative_child_value)) Shapes.keyed
              Shapes.second_by_child (fun _ => -1) Shapes.m 0 keyed_sorted Hs
              second_by_child_fits Hcnt Hin eq_refl eq_refl Hneg)
    as (plan & state & Hp & Hst & Hkey & Hall).
  exists plan, state. split; [exact Hp|]. split; [exact Hst|].
  split; [exact Hkey|]. split.
  - exact (proj2 (proj1 (Hall Shapes.keyed_index 0%nat
                           ["p"%string; "-1"%string] eq_refl eq_refl))
             eq_refl).
  - intros H.
    apply (proj1 (proj1 (Hall Shapes.keyed_index 1%nat
                           ["q"%string; "5"%string] eq_refl eq_refl))) in H.
    discriminate H.
Defined.
